(** * sdlanggo: a shallow embedding of the SDLang tokenizer and tree builder

    The development follows the two source files of the package:
    the SAX-style tokenizer ([SaxParser], its [Next] method and the
    [next...] helpers) and the tree builder ([ParseIntoAst], [handleValue])
    with the value model ([SdlValue], [SdlAttribute], [SdlTag]).

    Conventions of the embedding.
    - A Go [string] is a Rocq [string] (a sequence of 8-bit characters);
      [s[i]] is [String.get], [s[a:b]] is [slice], which panics out of range.
    - [int] cursors and lengths are [nat]: the cursor is only ever decreased
      by the length of a substring that ends at it.  Values that can be
      negative ([int] results of [Atoi], durations, error columns) are [Z];
      [int64] arithmetic wraps through [wrap64].
    - A Go function that can return an error, panic, or loop returns an
      [outcome]: [Ok], [Err], [Panic], or [OutOfFuel] when the iteration
      bound handed to a loop of the model is exhausted.
    - Methods whose Go name is shared by two receivers, or by a package level
      function, carry their receiver as a prefix ([SdlValue_Float],
      [SaxParser_TimeSpan]); all other names are the source's. *)

From Stdlib Require Import ZArith String Ascii List Bool Lia.
From Stdlib Require PrimFloat.
From stdpp Require Import base option list gmap strings.

Local Open Scope string_scope.
Local Open Scope nat_scope.

(** ** Outcomes of Go calls *)

(** What a call reported through the decorator library: the source lines
    added with [AddLine] (text and metadata) and the comments added with
    [AddBottomComment] (line index, column, message).  Accessor errors made
    with [errors.New] carry their message as a single comment. *)
Record LineMetadata : Type := mkLineMetadata {
  MetaFileName : string;
  LineNumber : nat
}.

Record error : Type := mkError {
  err_lines : list (string * LineMetadata);
  err_comments : list (nat * Z * string)
}.

Inductive panic : Type :=
| IndexOutOfRange
| SliceOutOfRange
| ExplicitPanic (msg : string).

Inductive outcome (A : Type) : Type :=
| Ok (a : A)
| Err (e : error)
| Panic (p : panic)
| OutOfFuel.

Arguments Ok {A} a.
Arguments Err {A} e.
Arguments Panic {A} p.
Arguments OutOfFuel {A}.

Definition bind {A B : Type} (m : outcome A) (k : A -> outcome B) : outcome B :=
  match m with
  | Ok a => k a
  | Err e => Err e
  | Panic p => Panic p
  | OutOfFuel => OutOfFuel
  end.

Notation "'let*' x ':=' m 'in' k" := (bind m (fun x => k))
  (at level 10, x pattern, m at level 200, k at level 200).

(** ** Bytes and strings *)

Definition byte_ff : ascii := ascii_of_nat 255.
Definition LF : ascii := ascii_of_nat 10.
Definition CR : ascii := ascii_of_nat 13.
Definition TAB : ascii := ascii_of_nat 9.
Definition DQUOTE : ascii := ascii_of_nat 34.

Definition between (lo hi ch : ascii) : bool :=
  (nat_of_ascii lo <=? nat_of_ascii ch) && (nat_of_ascii ch <=? nat_of_ascii hi).

Definition isIdentifierStart (ch : ascii) : bool :=
  between "a" "z" ch || between "A" "Z" ch || Ascii.eqb ch "_".

Definition isDigit (ch : ascii) : bool := between "0" "9" ch.

Definition isIdentifierContinue (ch : ascii) : bool :=
  between "a" "z" ch || between "A" "Z" ch || Ascii.eqb ch "_" ||
  between "0" "9" ch || Ascii.eqb ch "-" || Ascii.eqb ch "." || Ascii.eqb ch "$".

(** [s[i]]: a run-time panic when [i] is not an index of [s]. *)
Definition index (s : string) (i : nat) : outcome ascii :=
  match String.get i s with
  | Some c => Ok c
  | None => Panic IndexOutOfRange
  end.

(** [s[a:b]]: a run-time panic unless [a <= b <= len(s)]. *)
Definition slice (s : string) (a b : nat) : outcome string :=
  if (a <=? b) && (b <=? String.length s) then Ok (substring a (b - a) s)
  else Panic SliceOutOfRange.

(** [s[0] == c] for a string known to be non-empty: a panic on the empty one. *)
Definition first_is (c : ascii) (s : string) : outcome bool :=
  let* c0 := index s 0 in Ok (Ascii.eqb c0 c).

(** ** The parts of Go's standard library the package calls

    These are models of library functions, written from their documented
    behaviour; the package's own code starts at [sdlValueTag]. *)

Definition wrap64 (z : Z) : Z := ((z + 2 ^ 63) mod 2 ^ 64 - 2 ^ 63)%Z.

Module strconv.
Local Open Scope Z_scope.

Inductive NumError : Type := ErrSyntax | ErrRange.

Definition digitVal (c : ascii) : Z := Z.of_nat (nat_of_ascii c) - 48.
Definition maxUint64 : Z := 2 ^ 64 - 1.

(** The digit loop of [ParseUint(s, 10, 64)]: the first offending character
    decides between a syntax error (value 0) and a range error (value
    [maxUint64]). *)
Fixpoint parseDigits (s : string) (n : Z) : Z * option NumError :=
  match s with
  | EmptyString => (n, None)
  | String c r =>
      if isDigit c then
        if maxUint64 / 10 + 1 <=? n then (maxUint64, Some ErrRange)
        else
          let n1 := n * 10 + digitVal c in
          if maxUint64 <? n1 then (maxUint64, Some ErrRange)
          else parseDigits r n1
      else (0, Some ErrSyntax)
  end.

Definition ParseUint (s : string) : Z * option NumError :=
  match s with
  | EmptyString => (0, Some ErrSyntax)
  | _ => parseDigits s 0
  end.

(** [ParseInt(s, 10, 64)]: an optional sign, then [ParseUint]; a value out
    of range is clamped to the nearest [int64] and reported as a range
    error. *)
Definition ParseInt (s : string) : Z * option NumError :=
  match s with
  | EmptyString => (0, Some ErrSyntax)
  | String c r =>
      let neg := Ascii.eqb c "-" in
      let body := if Ascii.eqb c "+" || neg then r else s in
      match ParseUint body with
      | (_, Some ErrSyntax) => (0, Some ErrSyntax)
      | (un, _) =>
          if negb neg && (2 ^ 63 <=? un) then (2 ^ 63 - 1, Some ErrRange)
          else if neg && (2 ^ 63 <? un) then (- 2 ^ 63, Some ErrRange)
          else (if neg then wrap64 (- un) else un, None)
      end
  end.

(** [Atoi(s)] on a 64-bit platform: its fast path for short strings and its
    slow path through [ParseInt(s, 10, 0)] return the same results. *)
Definition Atoi (s : string) : Z * option NumError := ParseInt s.
End strconv.

Module time.
Local Open Scope Z_scope.

(** [time.Duration] is an [int64] count of nanoseconds. *)
Definition Nanosecond : Z := 1.
Definition Microsecond : Z := 1000 * Nanosecond.
Definition Millisecond : Z := 1000 * Microsecond.
Definition Second : Z := 1000 * Millisecond.
Definition Minute : Z := 60 * Second.
Definition Hour : Z := 60 * Minute.

(** A [time.Time] in UTC is modelled by the instant it denotes: the number
    of nanoseconds since 1970-01-01 00:00:00 UTC in the proleptic Gregorian
    calendar. *)
Definition daysFromCivil (y m d : Z) : Z :=
  let y' := if m <=? 2 then y - 1 else y in
  let era := y' / 400 in
  let yoe := y' - era * 400 in
  let mp := if 2 <? m then m - 3 else m + 9 in
  let doy := (153 * mp + 2) / 5 + d - 1 in
  let doe := yoe * 365 + yoe / 4 - yoe / 100 + doy in
  era * 146097 + doe - 719468.

Definition civilFromDays (z : Z) : Z * Z * Z :=
  let z' := z + 719468 in
  let era := z' / 146097 in
  let doe := z' - era * 146097 in
  let yoe := (doe - doe / 1460 + doe / 36524 - doe / 146096) / 365 in
  let doy := doe - (365 * yoe + yoe / 4 - yoe / 100) in
  let mp := (5 * doy + 2) / 153 in
  let d := doy - (153 * mp + 2) / 5 + 1 in
  let m := if mp <? 10 then mp + 3 else mp - 9 in
  (if m <=? 2 then yoe + era * 400 + 1 else yoe + era * 400, m, d).

(** [time.Date(year, month, day, hour, min, sec, nsec, time.UTC)]: values
    outside their usual ranges are normalised, which on instants is plain
    addition once the month has been carried into the year. *)
Definition Date (year month day hour min sec nsec : Z) : Z :=
  let year' := year + (month - 1) / 12 in
  let month' := (month - 1) mod 12 + 1 in
  (((daysFromCivil year' month' day * 24 + hour) * 60 + min) * 60 + sec)
    * Second + nsec.

Definition Year (t : Z) : Z := fst (fst (civilFromDays (t / (24 * Hour)))).
Definition Month (t : Z) : Z := snd (fst (civilFromDays (t / (24 * Hour)))).
Definition Day (t : Z) : Z := snd (civilFromDays (t / (24 * Hour))).

(** The zero [time.Time]: January 1, year 1, 00:00:00 UTC. *)
Definition zero : Z := Date 1 1 1 0 0 0 0.
End time.

Module base64.
Local Open Scope N_scope.

(** The value of a character in the standard alphabet. *)
Definition sextet (c : ascii) : option N :=
  let n := N_of_ascii c in
  if between "A" "Z" c then Some (n - 65)
  else if between "a" "z" c then Some (n - 71)
  else if between "0" "9" c then Some (n + 4)
  else if Ascii.eqb c "+" then Some 62
  else if Ascii.eqb c "/" then Some 63
  else None.

(** The sextets of the longest prefix made of alphabet characters. *)
Fixpoint sextets (s : string) : list N :=
  match s with
  | EmptyString => []
  | String c r =>
      match sextet c with
      | Some v => v :: sextets r
      | None => []
      end
  end.

Definition byteOf (n : N) : Byte.byte :=
  match Byte.of_N (n mod 256) with
  | Some b => b
  | None => Byte.x00
  end.

(** [RawStdEncoding]: no padding; four characters give three bytes, a final
    group of three gives two bytes and one of two gives one byte. *)
Fixpoint decodeSextets (l : list N) : list Byte.byte :=
  match l with
  | a :: b :: c :: d :: r =>
      byteOf (a * 4 + b / 16) :: byteOf (b * 16 + c / 4)
        :: byteOf (c * 64 + d) :: decodeSextets r
  | [a; b; c] => [byteOf (a * 4 + b / 16); byteOf (b * 16 + c / 4)]
  | [a; b] => [byteOf (a * 4 + b / 16)]
  | _ => []
  end.

Definition decode (s : string) : list Byte.byte := decodeSextets (sextets s).

(** [NewDecoder(RawStdEncoding, src).Read(p)]: an [io.Reader] writes at
    most [len(p)] bytes into [p] and never changes its length. *)
Definition Read (src : string) (p : list Byte.byte) : list Byte.byte :=
  take (length p) (decode src) ++ drop (length (decode src)) p.
End base64.

(** ** The value model (ast.go) *)

Inductive sdlValueTag : Type :=
| tNull | tString | tInt | tFloat | tDateTime | tTimeSpan | tBool | tBinary.

#[global] Instance sdlValueTag_eq_dec : EqDecision sdlValueTag.
Proof. solve_decision. Defined.

(** [SdlValue] is a struct with a tag and one field per payload; the fields
    of the other variants keep their zero value. *)
Record SdlValue : Type := mkSdlValue {
  tag : sdlValueTag;
  vString : string;
  vInt : Z;
  vFloat : PrimFloat.float;
  vDateTime : Z;
  vTimeSpan : Z;
  vBool : bool;
  vBinary : list Byte.byte
}.

Definition SdlValue_zero : SdlValue :=
  mkSdlValue tNull "" 0%Z PrimFloat.zero time.zero 0%Z false [].

Definition set_tag (v : SdlValue) (x : sdlValueTag) : SdlValue :=
  mkSdlValue x (vString v) (vInt v) (vFloat v) (vDateTime v) (vTimeSpan v) (vBool v) (vBinary v).
Definition set_vString (v : SdlValue) (x : string) : SdlValue :=
  mkSdlValue (tag v) x (vInt v) (vFloat v) (vDateTime v) (vTimeSpan v) (vBool v) (vBinary v).
Definition set_vInt (v : SdlValue) (x : Z) : SdlValue :=
  mkSdlValue (tag v) (vString v) x (vFloat v) (vDateTime v) (vTimeSpan v) (vBool v) (vBinary v).
Definition set_vFloat (v : SdlValue) (x : PrimFloat.float) : SdlValue :=
  mkSdlValue (tag v) (vString v) (vInt v) x (vDateTime v) (vTimeSpan v) (vBool v) (vBinary v).
Definition set_vDateTime (v : SdlValue) (x : Z) : SdlValue :=
  mkSdlValue (tag v) (vString v) (vInt v) (vFloat v) x (vTimeSpan v) (vBool v) (vBinary v).
Definition set_vTimeSpan (v : SdlValue) (x : Z) : SdlValue :=
  mkSdlValue (tag v) (vString v) (vInt v) (vFloat v) (vDateTime v) x (vBool v) (vBinary v).
Definition set_vBool (v : SdlValue) (x : bool) : SdlValue :=
  mkSdlValue (tag v) (vString v) (vInt v) (vFloat v) (vDateTime v) (vTimeSpan v) x (vBinary v).
Definition set_vBinary (v : SdlValue) (x : list Byte.byte) : SdlValue :=
  mkSdlValue (tag v) (vString v) (vInt v) (vFloat v) (vDateTime v) (vTimeSpan v) (vBool v) x.

(** [SdlTag] has fields of the same names, so the first three fields of
    [SdlAttribute] carry the prefix [Attr]. *)
Record SdlAttribute : Type := mkSdlAttribute {
  AttrNamespace : string;
  AttrName : string;
  AttrQualifiedName : string;
  Value : SdlValue
}.

(** A tag.  [Attributes] is a Go map: the nil map and the empty map both have
    no entries and are the same [gmap]; the builder allocates the map before
    its first write. *)
#[warnings="-register-all"]
Inductive SdlTag : Type := mkSdlTag {
  Namespace : string;
  Name : string;
  QualifiedName : string;
  Children : list SdlTag;
  Attributes : gmap string SdlAttribute;
  Values : list SdlValue
}.

Definition SdlTag_zero : SdlTag := mkSdlTag "" "" "" [] ∅ [].

Definition set_Children (g : SdlTag) (x : list SdlTag) : SdlTag :=
  mkSdlTag (Namespace g) (Name g) (QualifiedName g) x (Attributes g) (Values g).
Definition set_Attributes (g : SdlTag) (x : gmap string SdlAttribute) : SdlTag :=
  mkSdlTag (Namespace g) (Name g) (QualifiedName g) (Children g) x (Values g).
Definition set_Values (g : SdlTag) (x : list SdlValue) : SdlTag :=
  mkSdlTag (Namespace g) (Name g) (QualifiedName g) (Children g) (Attributes g) x.

(** The package level constructors.  [String_] is Go's [String]. *)
Definition Null : SdlValue := set_tag SdlValue_zero tNull.
Definition String_ (value : string) : SdlValue :=
  set_vString (set_tag SdlValue_zero tString) value.
Definition Int (value : Z) : SdlValue :=
  set_vInt (set_tag SdlValue_zero tInt) value.
Definition Float (value : PrimFloat.float) : SdlValue :=
  set_vFloat (set_tag SdlValue_zero tFloat) value.
Definition DateTime (value : Z) : SdlValue :=
  set_vDateTime (set_tag SdlValue_zero tDateTime) value.
Definition TimeSpan (value : Z) : SdlValue :=
  set_vTimeSpan (set_tag SdlValue_zero tTimeSpan) value.
Definition Bool (value : bool) : SdlValue :=
  set_vBool (set_tag SdlValue_zero tBool) value.
Definition Binary (value : list Byte.byte) : SdlValue :=
  set_vBinary (set_tag SdlValue_zero tBinary) value.

Definition SdlValue_IsNull (v : SdlValue) : bool := bool_decide (tag v = tNull).
Definition SdlValue_IsString (v : SdlValue) : bool := bool_decide (tag v = tString).
Definition SdlValue_IsInt (v : SdlValue) : bool := bool_decide (tag v = tInt).
Definition SdlValue_IsFloat (v : SdlValue) : bool := bool_decide (tag v = tFloat).
Definition SdlValue_IsDateTime (v : SdlValue) : bool := bool_decide (tag v = tDateTime).
Definition SdlValue_IsTimeSpan (v : SdlValue) : bool := bool_decide (tag v = tTimeSpan).
Definition SdlValue_IsBool (v : SdlValue) : bool := bool_decide (tag v = tBool).
Definition SdlValue_IsBinary (v : SdlValue) : bool := bool_decide (tag v = tBinary).

(** [errors.New(msg)] *)
Definition errors_New (msg : string) : error := mkError [] [(0, 0%Z, msg)].

(** The accessors return a Go pair: the value and the error ([None] is nil).
    [SdlValue.DateTime], which returns [time.Now()] beside its error, is not
    part of the embedding. *)
Definition SdlValue_String (v : SdlValue) : string * option error :=
  if negb (SdlValue_IsString v) then ("", Some (errors_New "this value is not a string"))
  else (vString v, None).
Definition SdlValue_Int (v : SdlValue) : Z * option error :=
  if negb (SdlValue_IsInt v) then (0%Z, Some (errors_New "this value is not an integer"))
  else (vInt v, None).
Definition SdlValue_Float (v : SdlValue) : PrimFloat.float * option error :=
  if negb (SdlValue_IsString v) then (PrimFloat.zero, Some (errors_New "this value is not a float"))
  else (vFloat v, None).
Definition SdlValue_TimeSpan (v : SdlValue) : Z * option error :=
  if negb (SdlValue_IsTimeSpan v) then (0%Z, Some (errors_New "this value is not a timespan"))
  else (vTimeSpan v, None).
Definition SdlValue_Bool (v : SdlValue) : bool * option error :=
  if negb (SdlValue_IsBool v) then (false, Some (errors_New "this value is not a bool"))
  else (vBool v, None).
Definition SdlValue_Binary (v : SdlValue) : list Byte.byte * option error :=
  if negb (SdlValue_IsBinary v) then ([], Some (errors_New "this value is not a binary blob"))
  else (vBinary v, None).

(** ** Visiting the children of a tag (ast.go)

    A callback [func(child *SdlTag)] is handed the address of an element of
    [t.Children]: it can change that child, and whatever it captured.  Here
    it is a function from the child and the captured state [St] to the child
    it leaves behind and the new state; a callback that reaches the slice
    through another reference is outside the embedding.  The receiver is a
    copy, so the number of children is fixed during the visit.  Each method
    returns the children as the calls left them, and the final state. *)

Section ForEach.
Context {St : Type}.

(** [for i := 0; i < len(t.Children); i++ { f(&t.Children[i]) }] *)
Fixpoint ForEachChild_loop (f : SdlTag -> St -> SdlTag * St) (children : list SdlTag)
    (st : St) : list SdlTag * St :=
  match children with
  | [] => ([], st)
  | child :: r =>
      let (child, st) := f child st in
      let (r, st) := ForEachChild_loop f r st in
      (child :: r, st)
  end.

Definition ForEachChild (g : SdlTag) (f : SdlTag -> St -> SdlTag * St) (st : St)
  : list SdlTag * St :=
  ForEachChild_loop f (Children g) st.

(** The filter is a callback as well: it is handed the same address before
    [f] is. *)
Definition ForEachChildFiltered (g : SdlTag) (filter : SdlTag -> St -> bool * SdlTag * St)
    (f : SdlTag -> St -> SdlTag * St) (st : St) : list SdlTag * St :=
  ForEachChild g
    (fun child st =>
       let '(pass, child, st) := filter child st in
       if pass then f child st else (child, st)) st.

Definition ForEachChildByName (g : SdlTag) (name : string)
    (f : SdlTag -> St -> SdlTag * St) (st : St) : list SdlTag * St :=
  ForEachChildFiltered g (fun child st => (String.eqb (Name child) name, child, st)) f st.

Definition ForEachChildByNamespace (g : SdlTag) (namespace : string)
    (f : SdlTag -> St -> SdlTag * St) (st : St) : list SdlTag * St :=
  ForEachChildFiltered g
    (fun child st => (String.eqb (Namespace child) namespace, child, st)) f st.

End ForEach.

(** ** The tokenizer *)

Inductive saxType : Type :=
| failsafe | tagName | attributeName | string_ | character | integer | long
| float | double | decimal | boolean | date | dateTime | timeSpan | binary
| null | newLine | eof | openTag | closeTag.

#[global] Instance saxType_eq_dec : EqDecision saxType.
Proof. solve_decision. Defined.

(** The fields [dateTime], [timeSpan] and [boolean] share their names with
    token kinds and are [dateTimeVal], [timeSpanVal] and [booleanVal] here. *)
Record SaxParser : Type := mkSaxParser {
  Input : string;
  FileName : string;
  cursor : nat;
  t : saxType;
  text : string;
  addText : string;
  dateTimeVal : Z;
  timeSpanVal : Z;
  booleanVal : bool
}.

(** [SaxParser{Input: input, FileName: name}] *)
Definition newSaxParser (input name : string) : SaxParser :=
  mkSaxParser input name 0 failsafe "" "" time.zero 0%Z false.

Definition set_cursor (s : SaxParser) (x : nat) : SaxParser :=
  mkSaxParser (Input s) (FileName s) x (t s) (text s) (addText s)
    (dateTimeVal s) (timeSpanVal s) (booleanVal s).
Definition set_t (s : SaxParser) (x : saxType) : SaxParser :=
  mkSaxParser (Input s) (FileName s) (cursor s) x (text s) (addText s)
    (dateTimeVal s) (timeSpanVal s) (booleanVal s).
Definition set_text (s : SaxParser) (x : string) : SaxParser :=
  mkSaxParser (Input s) (FileName s) (cursor s) (t s) x (addText s)
    (dateTimeVal s) (timeSpanVal s) (booleanVal s).
Definition set_addText (s : SaxParser) (x : string) : SaxParser :=
  mkSaxParser (Input s) (FileName s) (cursor s) (t s) (text s) x
    (dateTimeVal s) (timeSpanVal s) (booleanVal s).
Definition set_dateTimeVal (s : SaxParser) (x : Z) : SaxParser :=
  mkSaxParser (Input s) (FileName s) (cursor s) (t s) (text s) (addText s)
    x (timeSpanVal s) (booleanVal s).
Definition set_timeSpanVal (s : SaxParser) (x : Z) : SaxParser :=
  mkSaxParser (Input s) (FileName s) (cursor s) (t s) (text s) (addText s)
    (dateTimeVal s) x (booleanVal s).
Definition set_booleanVal (s : SaxParser) (x : bool) : SaxParser :=
  mkSaxParser (Input s) (FileName s) (cursor s) (t s) (text s) (addText s)
    (dateTimeVal s) (timeSpanVal s) x.

Definition IsTagName (s : SaxParser) : bool := bool_decide (t s = tagName).
Definition IsAttributeName (s : SaxParser) : bool := bool_decide (t s = attributeName).
Definition SaxParser_IsString (s : SaxParser) : bool := bool_decide (t s = string_).
Definition IsChar (s : SaxParser) : bool := bool_decide (t s = character).
Definition IsInteger (s : SaxParser) : bool := bool_decide (t s = integer).
Definition IsLong (s : SaxParser) : bool := bool_decide (t s = long).
Definition SaxParser_IsFloat (s : SaxParser) : bool := bool_decide (t s = float).
Definition IsDouble (s : SaxParser) : bool := bool_decide (t s = double).
Definition IsDecimal (s : SaxParser) : bool := bool_decide (t s = decimal).
Definition SaxParser_IsBool (s : SaxParser) : bool := bool_decide (t s = boolean).
Definition IsDate (s : SaxParser) : bool := bool_decide (t s = date).
Definition SaxParser_IsDateTime (s : SaxParser) : bool := bool_decide (t s = dateTime).
Definition SaxParser_IsTimeSpan (s : SaxParser) : bool := bool_decide (t s = timeSpan).
Definition SaxParser_IsBinary (s : SaxParser) : bool := bool_decide (t s = binary).
Definition SaxParser_IsNull (s : SaxParser) : bool := bool_decide (t s = null).
Definition IsEof (s : SaxParser) : bool := bool_decide (t s = eof).
Definition IsNewLine (s : SaxParser) : bool := bool_decide (t s = newLine).
Definition IsOpenTag (s : SaxParser) : bool := bool_decide (t s = openTag).
Definition IsCloseTag (s : SaxParser) : bool := bool_decide (t s = closeTag).

Definition Text (s : SaxParser) : string := text s.
Definition AdditionalText (s : SaxParser) : string := addText s.
Definition Time (s : SaxParser) : Z := dateTimeVal s.
Definition SaxParser_TimeSpan (s : SaxParser) : Z := timeSpanVal s.
Definition SaxParser_Bool (s : SaxParser) : bool := booleanVal s.

Definition len (s : SaxParser) : nat := String.length (Input s).

Definition peek (s : SaxParser) (offset : nat) : ascii :=
  if len s <=? cursor s + offset then byte_ff
  else default byte_ff (String.get (cursor s + offset) (Input s)).

Definition advance (s : SaxParser) (amount : nat) : SaxParser :=
  set_cursor s (cursor s + amount).

(** The method [eof()]. *)
Definition SaxParser_eof (s : SaxParser) : bool := len s <=? cursor s.

(** [for cond() { s.advance(1) }], run for at most [fuel] iterations. *)
Fixpoint advanceWhile (cond : SaxParser -> bool) (fuel : nat) (s : SaxParser)
  : outcome SaxParser :=
  if cond s then
    match fuel with
    | 0 => OutOfFuel
    | S fuel' => advanceWhile cond fuel' (advance s 1)
    end
  else Ok s.

Definition isBlank (s : SaxParser) : bool :=
  negb (SaxParser_eof s) && (Ascii.eqb (peek s 0) " " || Ascii.eqb (peek s 0) TAB).

Definition eatWhite (s : SaxParser) : outcome SaxParser :=
  advanceWhile isBlank (len s) s.

(** *** Diagnostics *)

(** [for start > 0 && s.Input[start] != '\n' { start-- }] *)
Fixpoint getLine_start (fuel : nat) (input : string) (start : nat) : outcome nat :=
  if 0 <? start then
    let* c := index input start in
    if negb (Ascii.eqb c LF) then
      match fuel with
      | 0 => OutOfFuel
      | S fuel' => getLine_start fuel' input (start - 1)
      end
    else Ok start
  else Ok start.

(** [for end < len(s.Input) && s.Input[end] != '\n' && s.Input[end] != '\r' { end++ }] *)
Fixpoint getLine_end (fuel : nat) (input : string) (end_ : nat) : outcome nat :=
  if end_ <? String.length input then
    let* c := index input end_ in
    if negb (Ascii.eqb c LF) && negb (Ascii.eqb c CR) then
      match fuel with
      | 0 => OutOfFuel
      | S fuel' => getLine_end fuel' input (end_ + 1)
      end
    else Ok end_
  else Ok end_.

(** [for i := 0; i < start; i++ { if s.Input[i] == '\n' { line++ } }] over
    the indices [idx]. *)
Fixpoint getLine_count (input : string) (idx : list nat) (line : nat) : outcome nat :=
  match idx with
  | [] => Ok line
  | i :: r =>
      let* c := index input i in
      getLine_count input r (if Ascii.eqb c LF then S line else line)
  end.

Definition getLine (s : SaxParser) (at_ : nat) : outcome (string * Z * nat) :=
  let start := at_ in
  let end_ := at_ in
  let* nl :=
    (if negb (start =? 0) && negb (len s <=? start)
     then let* c := index (Input s) start in Ok (Ascii.eqb c LF)
     else Ok false) in
  let start :=
    if negb (start =? 0) && ((len s <=? start) || nl) then start - 1 else start in
  let* start := getLine_start start (Input s) start in
  let* end_ := getLine_end (len s) (Input s) end_ in
  let* c := index (Input s) start in
  let start := if Ascii.eqb c LF then start + 1 else start in
  let* line := getLine_count (Input s) (seq 0 start) 1 in
  let* l := slice (Input s) start end_ in
  Ok (l, (Z.of_nat at_ - Z.of_nat start)%Z, line).

(** One framed line with one comment under it: the shape of most errors. *)
Definition fail_at {A : Type} (s : SaxParser) (at_ : nat) (msg : string) : outcome A :=
  let* (line, loc, ln) := getLine s at_ in
  Err (mkError [(line, mkLineMetadata (FileName s) ln)] [(0, loc, msg)]).

(** Two framed lines: where a literal started and where its end was expected. *)
Definition fail_unterminated {A : Type} (s : SaxParser) (debugStart : nat)
    (msg1 msg2 : string) : outcome A :=
  let* (line1, loc1, ln1) := getLine s debugStart in
  let* (line2, loc2, ln2) := getLine s (cursor s) in
  Err (mkError [(line1, mkLineMetadata (FileName s) ln1);
                (line2, mkLineMetadata (FileName s) ln2)]
         [(0, loc1, msg1); (1, loc2, msg2)]).

(** The comments of the date and time errors: one per field that [Atoi]
    rejected, at the field's column. *)
Definition invalid_numbers (loc : Z) (fields : list (option strconv.NumError * Z))
  : list (nat * Z * string) :=
  flat_map (fun f => match fst f with
                     | Some _ => [(0, (loc + snd f)%Z, "Invalid number")]
                     | None => []
                     end) fields.

Definition NewError (s : SaxParser) (offset : nat) (msg : string) : outcome error :=
  let* (line, loc, ln) := getLine s (cursor s + offset) in
  Ok (mkError [(line, mkLineMetadata (FileName s) ln)] [(0, loc, msg)]).

(** *** Identifiers and strings *)

Definition isTagPosition (s : SaxParser) : bool :=
  bool_decide (t s = newLine) || bool_decide (t s = failsafe).

Definition identifierContinues (s : SaxParser) : bool :=
  isIdentifierContinue (peek s 0).

Definition nextIdentifier (s : SaxParser) : outcome SaxParser :=
  let s := if isTagPosition s then set_t s tagName else set_t s attributeName in
  let start := cursor s in
  let* s := advanceWhile identifierContinues (len s) s in
  let end_ := cursor s in
  let* word := slice (Input s) start end_ in
  if String.eqb word "true" || String.eqb word "on" then
    Ok (set_booleanVal (set_text (set_t s boolean) "true") true)
  else if String.eqb word "false" || String.eqb word "off" then
    Ok (set_booleanVal (set_text (set_t s boolean) "false") false)
  else if String.eqb word "null" then
    Ok (set_text (set_t s null) "null")
  else if negb (Ascii.eqb (peek s 0) ":") then
    Ok (set_addText (set_text s word) "")
  else
    let s := set_addText s word in
    let s := advance s 1 in
    let start := cursor s in
    let* s := advanceWhile identifierContinues (len s) s in
    let end_ := cursor s in
    let* name := slice (Input s) start end_ in
    Ok (set_text s name).

Definition isSpaceOrTab (s : SaxParser) : bool :=
  Ascii.eqb (peek s 0) " " || Ascii.eqb (peek s 0) TAB.

Definition str1 (c : ascii) : string := String c EmptyString.

Definition expected_quote : string :=
  "Expected a terminating '" ++ str1 DQUOTE ++ "' before hitting end of file/line".

Definition unterminated_string {A : Type} (s : SaxParser) (debugStart : nat)
    (msg : string) : outcome A :=
  fail_unterminated s debugStart "Unterminated string" msg.

(** The scanning loop of [nextDoubleQuotedString]; [text] and [start] are its
    local variables. *)
Fixpoint doubleQuoted_loop (fuel : nat) (debugStart : nat) (s : SaxParser)
    (text_ : string) (start : nat) : outcome SaxParser :=
  if negb (SaxParser_eof s) then
    match fuel with
    | 0 => OutOfFuel
    | S fuel' =>
        if Ascii.eqb (peek s 0) "\" then
          let* seg := slice (Input s) start (cursor s) in
          let text_ := text_ ++ seg in
          let s := advance s 1 in
          let ch := peek s 0 in
          let* (s, text_) :=
            (if Ascii.eqb ch "n" then Ok (advance s 1, text_ ++ str1 LF)
             else if Ascii.eqb ch "t" then Ok (advance s 1, text_ ++ str1 TAB)
             else if Ascii.eqb ch "r" then Ok (advance s 1, text_ ++ str1 CR)
             else if Ascii.eqb ch DQUOTE then Ok (advance s 1, text_ ++ str1 DQUOTE)
             else if Ascii.eqb ch "\" then Ok (advance s 1, text_ ++ "\")
             else if Ascii.eqb ch LF then
               let* s := advanceWhile isSpaceOrTab (len s) (advance s 1) in
               Ok (s, text_)
             else
               fail_at s (cursor s)
                 ("Invalid escape character. Only \t, \n, \r, \" ++ str1 DQUOTE
                  ++ ", and \\ are allowed.")) in
          doubleQuoted_loop fuel' debugStart s text_ (cursor s)
        else if Ascii.eqb (peek s 0) DQUOTE then
          let* seg := slice (Input s) start (cursor s) in
          let text_ := if String.eqb text_ "" then seg else text_ ++ seg in
          let s := advance s 1 in
          Ok (set_text s text_)
        else if Ascii.eqb (peek s 0) LF then
          unterminated_string s debugStart expected_quote
        else doubleQuoted_loop fuel' debugStart (advance s 1) text_ start
    end
  else
    unterminated_string s debugStart expected_quote.

Definition nextDoubleQuotedString (s : SaxParser) : outcome SaxParser :=
  let debugStart := cursor s in
  let s := advance s 1 in
  let s := set_t s string_ in
  doubleQuoted_loop (len s) debugStart s "" (cursor s).

Fixpoint backtick_loop (fuel : nat) (debugStart : nat) (s : SaxParser)
    (start : nat) : outcome SaxParser :=
  if negb (SaxParser_eof s) then
    match fuel with
    | 0 => OutOfFuel
    | S fuel' =>
        if Ascii.eqb (peek s 0) "`" then
          let* seg := slice (Input s) start (cursor s) in
          Ok (advance (set_text s seg) 1)
        else if Ascii.eqb (peek s 0) CR then
          fail_at s (cursor s) "Backtick strings do not support \r characters"
        else backtick_loop fuel' debugStart (advance s 1) start
    end
  else
    unterminated_string s debugStart
      "Expected a terminating '`' before hitting end of file".

Definition nextBacktickString (s : SaxParser) : outcome SaxParser :=
  let debugStart := cursor s in
  let s := advance s 1 in
  let s := set_t s string_ in
  backtick_loop (len s) debugStart s (cursor s).

(** The loop of [nextBinary]; [text] collects the bytes that are not blank. *)
Fixpoint binary_loop (fuel : nat) (debugStart : nat) (s : SaxParser)
    (text_ : string) : outcome SaxParser :=
  if negb (SaxParser_eof s) then
    match fuel with
    | 0 => OutOfFuel
    | S fuel' =>
        if Ascii.eqb (peek s 0) "]" then
          Ok (advance (set_text s text_) 1)
        else if Ascii.eqb (peek s 0) " " || Ascii.eqb (peek s 0) TAB
                || Ascii.eqb (peek s 0) LF || Ascii.eqb (peek s 0) CR then
          binary_loop fuel' debugStart (advance s 1) text_
        else
          binary_loop fuel' debugStart (advance s 1) (text_ ++ str1 (peek s 0))
    end
  else
    unterminated_string s debugStart
      "Expected a terminating '`' before hitting end of file".

Definition nextBinary (s : SaxParser) : outcome SaxParser :=
  let debugStart := cursor s in
  let s := advance s 1 in
  let s := set_t s binary in
  binary_loop (len s) debugStart s "".

(** *** Numbers, durations and dates *)

(** [err != nil] *)
Definition notNil {A : Type} (err : option A) : bool :=
  match err with Some _ => true | None => false end.

Definition add64 (a b : Z) : Z := wrap64 (a + b).
Definition mul64 (a b : Z) : Z := wrap64 (a * b).

(** The arithmetic that ends [nextTimeSpan]: the fields as read from the
    input, [Atoi] errors dropped, and the sign applied last. *)
Definition timeSpanOf (isNegative : bool) (days hours minutes seconds nsecs : string) : Z :=
  let daysn := fst (strconv.Atoi days) in
  let hoursn := fst (strconv.Atoi hours) in
  let minsn := fst (strconv.Atoi minutes) in
  let secondsn := fst (strconv.Atoi seconds) in
  let nsecsn := fst (strconv.Atoi nsecs) in
  let isNegative := isNegative || (daysn <? 0)%Z in
  let daysn := if isNegative then mul64 daysn (-1) else daysn in
  let span :=
    add64 (add64 (add64 (add64
      (mul64 (mul64 time.Hour 24) daysn)
      (mul64 time.Hour hoursn))
      (mul64 time.Minute minsn))
      (mul64 time.Second secondsn))
      (mul64 time.Millisecond nsecsn) in
  if isNegative then mul64 span (-1) else span.

(** [nextTimeSpan] from its first [peek(2)] on, when backtracking has taken
    the cursor, an [int], [below] bytes under zero.  [peek] compares
    [s.cursor+offset] with the length before it indexes, so that a negative
    index panics; the error positions [s.cursor+2] and [s.cursor+5] are not
    negative where they are reached; the first slice, which starts at the
    cursor, panics.  No path returns. *)
Definition nextTimeSpan_below {A : Type} (s : SaxParser) (below : nat) : outcome A :=
  if 2 <? below then Panic IndexOutOfRange
  else
    let origin := set_cursor s 0 in
    if negb (Ascii.eqb (peek origin (2 - below)) ":") then
      fail_at s (2 - below) "Expected a : following the hours component of a TimeSpan."
    else if negb (Ascii.eqb (peek origin (5 - below)) ":") then
      fail_at s (5 - below) "Expected a : following the minutes component of a TimeSpan."
    else Panic SliceOutOfRange.

Definition nextTimeSpan (s : SaxParser) (first : string) : outcome SaxParser :=
  let* isNegative := first_is "-" first in
  let* (s, days) :=
    (if Ascii.eqb (peek s 0) "d" then
       if negb (Ascii.eqb (peek s 1) ":") then
         fail_at s (cursor s) "Expected a : following the days component of a TimeSpan."
       else Ok (advance s 2, first)
     else
       (* [s.cursor -= len(first)], and [s.cursor += 1] for a negative number:
          [first] is not empty here *)
       let back := String.length first - (if isNegative then 1 else 0) in
       if cursor s <? back then nextTimeSpan_below s (back - cursor s)
       else Ok (set_cursor s (cursor s - back), "")) in
  if negb (Ascii.eqb (peek s 2) ":") then
    fail_at s (cursor s + 2) "Expected a : following the hours component of a TimeSpan."
  else if negb (Ascii.eqb (peek s 5) ":") then
    fail_at s (cursor s + 5) "Expected a : following the minutes component of a TimeSpan."
  else
    let hasNsecs := Ascii.eqb (peek s 8) "." in
    let* hours := slice (Input s) (cursor s) (cursor s + 2) in
    let* minutes := slice (Input s) (cursor s + 3) (cursor s + 5) in
    let* seconds := slice (Input s) (cursor s + 6) (cursor s + 8) in
    let* (s, nsecs) :=
      (if hasNsecs then
         if negb (isDigit (peek s 9)) || negb (isDigit (peek s 10))
            || negb (isDigit (peek s 11)) then
           fail_at s (cursor s + 9)
             "Expected exactly 3 digits for the nsecs portion of a TimeSpan."
         else
           let* nsecs := slice (Input s) (cursor s + 9) (cursor s + 12) in
           Ok (advance s 12, nsecs)
       else Ok (advance s 8, "")) in
    let s := set_t s timeSpan in
    Ok (set_timeSpanVal s (timeSpanOf isNegative days hours minutes seconds nsecs)).

Definition nextDate (s : SaxParser) : outcome SaxParser :=
  if len s <? cursor s + 10 then
    fail_at s (cursor s)
      "Found what looks like a Date, but there's not enough characters to make a Date."
  else if negb (Ascii.eqb (peek s 7) "/") then
    fail_at s (cursor s + 7) "Expected a '/'"
  else
    let* ys := slice (Input s) (cursor s) (cursor s + 4) in
    let* ms := slice (Input s) (cursor s + 5) (cursor s + 7) in
    let* ds := slice (Input s) (cursor s + 8) (cursor s + 10) in
    let '(year, yerr) := strconv.Atoi ys in
    let '(month, merr) := strconv.Atoi ms in
    let '(day, derr) := strconv.Atoi ds in
    if notNil yerr || notNil merr || notNil derr then
      let* (line, loc, ln) := getLine s (cursor s) in
      Err (mkError [(line, mkLineMetadata (FileName s) ln)]
             (invalid_numbers loc [(yerr, 0%Z); (merr, 5%Z); (derr, 8%Z)]))
    else
      let s := set_dateTimeVal s (time.Date year month day 0 0 0 0) in
      let s := set_t s date in
      Ok (advance s 10).

Definition nextDateTime (s : SaxParser) : outcome SaxParser :=
  let* s := nextDate s in
  let* s := eatWhite s in
  if len s <? cursor s + 8 then
    fail_at s (cursor s)
      "Found what looks like a DateTime, but there's not enough characters to make a DateTime."
  else if negb (Ascii.eqb (peek s 5) ":") then
    fail_at s (cursor s + 5) "Expected a ':'."
  else
    let* hs := slice (Input s) (cursor s) (cursor s + 2) in
    let* ms := slice (Input s) (cursor s + 3) (cursor s + 5) in
    let* ss := slice (Input s) (cursor s + 6) (cursor s + 8) in
    let '(hours, herr) := strconv.Atoi hs in
    let '(minutes, merr) := strconv.Atoi ms in
    let '(seconds, serr) := strconv.Atoi ss in
    if notNil herr || notNil merr || notNil serr then
      let* (line, loc, ln) := getLine s (cursor s) in
      Err (mkError [(line, mkLineMetadata (FileName s) ln)]
             (invalid_numbers loc [(herr, 0%Z); (merr, 3%Z); (serr, 6%Z)]))
    else
      let s := advance s 8 in
      let* (s, frac) :=
        (if Ascii.eqb (peek s 0) "." then
           if len s <? cursor s + 4 then
             fail_at s (cursor s)
               "Found what looks like the fractional part of a DateTime, but there's not enough characters."
           else
             let* fs := slice (Input s) (cursor s + 1) (cursor s + 4) in
             let '(frac, ferr) := strconv.Atoi fs in
             let s := advance s 4 in
             if notNil ferr then fail_at s (cursor s - 3) "Invalid number"
             else Ok (s, frac)
         else Ok (s, 0%Z)) in
      let s := set_t s dateTime in
      Ok (set_dateTimeVal s
            (time.Date (time.Year (dateTimeVal s)) (time.Month (dateTimeVal s))
               (time.Day (dateTimeVal s)) hours minutes seconds frac)).

(** The digit loop of [nextNumeric]; [foundDot] is its local variable. *)
Fixpoint numeric_loop (fuel : nat) (s : SaxParser) (foundDot : bool)
  : outcome (SaxParser * bool) :=
  if negb (SaxParser_eof s) then
    if Ascii.eqb (peek s 0) "." then
      if foundDot then
        fail_at s (cursor s) "There are multiple decimal places in this number."
      else
        match fuel with
        | 0 => OutOfFuel
        | S fuel' => numeric_loop fuel' (advance s 1) true
        end
    else if negb (isDigit (peek s 0)) then Ok (s, foundDot)
    else
      match fuel with
      | 0 => OutOfFuel
      | S fuel' => numeric_loop fuel' (advance s 1) foundDot
      end
  else Ok (s, foundDot).

Definition nextNumeric (s : SaxParser) : outcome SaxParser :=
  if Ascii.eqb (peek s 4) "/" then
    if Ascii.eqb (peek s 13) ":" && isDigit (peek s 11) && isDigit (peek s 12)
    then nextDateTime s
    else nextDate s
  else
    let start := cursor s in
    let isNegative := Ascii.eqb (peek s 0) "-" in
    let s := if isNegative then advance s 1 else s in
    let* (s, foundDot) := numeric_loop (len s) s false in
    let* num := slice (Input s) start (cursor s) in
    if Ascii.eqb (peek s 0) "d" || Ascii.eqb (peek s 0) ":" then
      nextTimeSpan s num
    else
      let s := set_t s integer in
      let s :=
        if Ascii.eqb (peek s 0) "L" then advance (set_t s long) 1
        else if Ascii.eqb (peek s 0) "F" then advance (set_t s float) 1
        else if Ascii.eqb (peek s 0) "D" then advance (set_t s double) 1
        else if foundDot then set_t s double
        else s in
      if negb (SaxParser_eof s) && negb (Ascii.eqb (peek s 0) " ")
         && negb (Ascii.eqb (peek s 0) LF) && negb (Ascii.eqb (peek s 0) CR) then
        fail_at s (cursor s) "Expected whitespace or End of line/file after number."
      else Ok (set_text s num).

(** *** [Next] *)

Definition startsComment (s : SaxParser) : bool :=
  (Ascii.eqb (peek s 0) "/" && Ascii.eqb (peek s 1) "/")
  || (Ascii.eqb (peek s 0) "-" && Ascii.eqb (peek s 1) "-")
  || Ascii.eqb (peek s 0) "#".

Definition inComment (s : SaxParser) : bool :=
  negb (SaxParser_eof s) && negb (Ascii.eqb (peek s 0) LF).

(** [Next] calls itself after a comment and after a line continuation;
    [fuel] bounds the depth of these calls. *)
Fixpoint Next_rec (fuel : nat) (s : SaxParser) : outcome SaxParser :=
  match fuel with
  | 0 => OutOfFuel
  | S fuel' =>
      let* s := eatWhite s in
      if SaxParser_eof s then Ok (set_t s eof)
      else if startsComment s then
        let* s := advanceWhile inComment (len s) s in
        Next_rec fuel' s
      else if Ascii.eqb (peek s 0) LF then
        Ok (set_t (advance s 1) newLine)
      else if Ascii.eqb (peek s 0) CR then
        if negb (Ascii.eqb (peek s 1) LF) then
          let* (line, _, ln) := getLine s (cursor s) in
          Err (mkError [(line ++ " ", mkLineMetadata (FileName s) ln)]
                 [(0, Z.of_nat (String.length line),
                   "Stray \r without a \n following it.")])
        else Ok (set_t (advance s 2) newLine)
      else if Ascii.eqb (peek s 0) "\" && Ascii.eqb (peek s 1) LF then
        Next_rec fuel' (advance s 2)
      else
        let ch := peek s 0 in
        if isIdentifierStart ch then
          let* s := nextIdentifier s in
          if bool_decide (t s = attributeName) then
            if negb (Ascii.eqb (peek s 0) "=") then
              fail_at s (cursor s) "Expected '=' following attribute name"
            else Ok (advance s 1)
          else Ok s
        else if Ascii.eqb ch "{" then
          Ok (advance (set_text (set_t s openTag) "{") 1)
        else if Ascii.eqb ch "}" then
          Ok (advance (set_text (set_t s closeTag) "}") 1)
        else if isTagPosition s then
          Ok (set_text (set_t s tagName) "content")
        else if Ascii.eqb ch DQUOTE then nextDoubleQuotedString s
        else if Ascii.eqb ch "`" then nextBacktickString s
        else if Ascii.eqb ch "[" then nextBinary s
        else if isDigit ch || Ascii.eqb ch "-" then nextNumeric s
        else fail_at s (cursor s) "Unexpected character."
  end.

(** A call of [Next]: each nested call starts at least one character further,
    so the depth never exceeds the length of the input plus one. *)
Definition Next (s : SaxParser) : outcome SaxParser :=
  Next_rec (S (len s)) s.

(** ** The tree builder (ast.go) *)

(** [stack[i]] for an [int] index. *)
Definition stackAt (stack : list SdlTag) (i : Z) : outcome SdlTag :=
  if (i <? 0)%Z then Panic IndexOutOfRange
  else match stack !! Z.to_nat i with
       | Some g => Ok g
       | None => Panic IndexOutOfRange
       end.

(** The four statements that close the tag on top of the stack:
    [parent := &stack[len-2]; child := stack[len-1];
     parent.Children = append(parent.Children, child); stack = stack[0:len-1]]. *)
Definition closeTop (stack : list SdlTag) : outcome (list SdlTag) :=
  let n := Z.of_nat (length stack) in
  let* parent := stackAt stack (n - 2) in
  let* child := stackAt stack (n - 1) in
  let stack :=
    <[Z.to_nat (n - 2) := set_Children parent (Children parent ++ [child])]> stack in
  Ok (take (Z.to_nat (n - 1)) stack).

(** [q := namespace + ":" + name; if q[0] == ':' { q = q[1:] }] *)
Definition qualify (namespace name : string) : outcome string :=
  let q := namespace ++ ":" ++ name in
  let* c := index q 0 in
  if Ascii.eqb c ":" then slice q 1 (String.length q) else Ok q.

Section TreeBuilder.

(** [strconv.ParseFloat(text, 64)] with its error dropped: the value Go's
    library returns for the text of a Float or Double token. *)
Variable ParseFloat : string -> PrimFloat.float.

Definition handleValue (v : SdlValue) (p : SaxParser) : outcome SdlValue :=
  if SaxParser_IsBinary p then
    let v := set_tag v tBinary in
    Ok (set_vBinary v (base64.Read (Text p) (vBinary v)))
  else if SaxParser_IsBool p then
    Ok (set_vBool (set_tag v tBool) (SaxParser_Bool p))
  else if IsDate p || SaxParser_IsDateTime p then
    Ok (set_vDateTime (set_tag v tDateTime) (Time p))
  else if IsDouble p || SaxParser_IsFloat p then
    Ok (set_vFloat (set_tag v tFloat) (ParseFloat (Text p)))
  else if IsInteger p || IsLong p then
    Ok (set_vInt (set_tag v tInt) (fst (strconv.ParseInt (Text p))))
  else if SaxParser_IsNull p then
    Ok (set_tag v tNull)
  else if SaxParser_IsString p then
    Ok (set_vString (set_tag v tString) (Text p))
  else if SaxParser_IsTimeSpan p then
    Ok (set_vTimeSpan (set_tag v tTimeSpan) (SaxParser_TimeSpan p))
  else Panic (ExplicitPanic "bug: this error should've been caught earlier on").

(** The [for] loop of [ParseIntoAst], for at most [fuel] iterations, with
    its three variables: the parser, the stack and [prevWasNewLine]. *)
Fixpoint ParseIntoAst_loop (fuel : nat) (p : SaxParser) (currTagStack : list SdlTag)
    (prevWasNewLine : bool) : outcome SdlTag :=
  match fuel with
  | 0 => OutOfFuel
  | S fuel' =>
      let* p := Next p in
      if IsEof p then stackAt currTagStack 0
      else if IsTagName p then
        if negb prevWasNewLine then
          let* e := NewError p 0
            "(probably a bug) Tag names can only appear at the start of new lines." in
          Err e
        else
          let* q := qualify (AdditionalText p) (Text p) in
          let tag_ := mkSdlTag (AdditionalText p) (Text p) q [] ∅ [] in
          ParseIntoAst_loop fuel' p (currTagStack ++ [tag_]) false
      else if IsAttributeName p then
        let* q := qualify (AdditionalText p) (Text p) in
        let name := Text p in
        let namespace := AdditionalText p in
        let* p := Next p in
        let* v := handleValue SdlValue_zero p in
        let attr := mkSdlAttribute namespace name q v in
        let top := (Z.of_nat (length currTagStack) - 1)%Z in
        let* g := stackAt currTagStack top in
        let g := set_Attributes g (<[q := attr]> (Attributes g)) in
        ParseIntoAst_loop fuel' p (<[Z.to_nat top := g]> currTagStack) false
      else if IsNewLine p then
        if negb prevWasNewLine then
          let* currTagStack := closeTop currTagStack in
          ParseIntoAst_loop fuel' p currTagStack true
        else ParseIntoAst_loop fuel' p currTagStack true
      else if IsOpenTag p then
        if prevWasNewLine then
          let* e := NewError p 0
            "Opening braces have to be on the same line as a tag." in
          Err e
        else
          let* p := Next p in
          if negb (IsNewLine p) then
            let* e := NewError p 0 "Expected a new line following opening brace." in
            Err e
          else ParseIntoAst_loop fuel' p currTagStack true
      else if IsCloseTag p then
        if negb prevWasNewLine then
          let* e := NewError p 0 "Closing braces must be on their own line." in
          Err e
        else
          let* p := Next p in
          if negb (IsNewLine p) && negb (IsEof p) then
            let* e := NewError p 0
              "Expected a new line or end of file following closing brace." in
            Err e
          else
            let* currTagStack := closeTop currTagStack in
            ParseIntoAst_loop fuel' p currTagStack true
      else
        let* val := handleValue SdlValue_zero p in
        let top := (Z.of_nat (length currTagStack) - 1)%Z in
        let* g := stackAt currTagStack top in
        let g := set_Values g (Values g ++ [val]) in
        ParseIntoAst_loop fuel' p (<[Z.to_nat top := g]> currTagStack) false
  end.

(** [ParseIntoAst]: every iteration but the last lowers
    [2 * (len - cursor)], plus one at the start of a line, so
    [2 * len + 2] iterations are never exhausted. *)
Definition ParseIntoAst (p : SaxParser) : outcome SdlTag :=
  ParseIntoAst_loop (2 * len p + 2) p [SdlTag_zero] true.

End TreeBuilder.

(** ** The input of the package's test [TestAst] *)

Definition tab : string := str1 TAB.
Definition dq : string := str1 DQUOTE.

(** The lines, with a line feed between two of them. *)
Fixpoint unlines (ls : list string) : string :=
  match ls with
  | [] => EmptyString
  | l :: r =>
      match r with
      | [] => l
      | _ :: _ => l ++ str1 LF ++ unlines r
      end
  end.

Definition TestAst_code : string :=
  unlines
    ["# a tag having only a name";
     tab ++ "my_tag";
     tab;
     tab ++ "# three tags acting as name value pairs";
     tab ++ "first_name " ++ dq ++ "Akiko" ++ dq;
     tab ++ "last_name " ++ dq ++ "Johnson" ++ dq;
     tab ++ "height 68";
     tab;
     tab ++ "# a tag with a value list";
     tab ++ "person " ++ dq ++ "Akiko" ++ dq ++ " " ++ dq ++ "Johnson" ++ dq ++ " 68";
     tab;
     tab ++ "# a tag with attributes";
     tab ++ "person first_name=" ++ dq ++ "Akiko" ++ dq ++ " last_name=" ++ dq ++
       "Johnson" ++ dq ++ " height=68";
     tab;
     tab ++ "# a tag with values and attributes";
     tab ++ "person " ++ dq ++ "Akiko" ++ dq ++ " " ++ dq ++ "Johnson" ++ dq ++
       " height=60";
     tab;
     tab ++ "# a tag with attributes using namespaces";
     tab ++ "person name:first-name=" ++ dq ++ "Akiko" ++ dq ++ " name:last-name=" ++ dq ++
       "Johnson" ++ dq;
     tab;
     tab ++ "# a tag with values, attributes, namespaces, and children";
     tab ++ "my_namespace:person " ++ dq ++ "Akiko" ++ dq ++ " " ++ dq ++ "Johnson" ++ dq ++
       " dimensions:height=68 {";
     tab ++ tab ++ "son " ++ dq ++ "Nouhiro" ++ dq ++ " " ++ dq ++ "Johnson" ++ dq;
     tab ++ tab ++ "daughter " ++ dq ++ "Sabrina" ++ dq ++ " " ++ dq ++ "Johnson" ++ dq ++
       " location=" ++ dq ++ "Italy" ++ dq ++ " {";
     tab ++ tab ++ tab ++ "hobbies " ++ dq ++ "swimming" ++ dq ++ " " ++ dq ++ "surfing" ++
       dq;
     tab ++ tab ++ tab ++ "languages " ++ dq ++ "English" ++ dq ++ " " ++ dq ++ "Italian" ++
       dq;
     tab ++ tab ++ tab ++ "smoker false";
     tab ++ tab ++ "}";
     tab ++ "}   ";
     tab;
     tab ++ "------------------------------------------------------------------";
     tab ++ "// (notice the separator style comment above...)";
     tab;
     tab ++ "# a log entry";
     tab ++ "#     note - this tag has two values (date_time and string) and an ";
     tab ++ "#            attribute (error)";
     tab ++ "entry 2005/11/23 10:14:23.253 " ++ dq ++ "Something bad happened" ++ dq ++
       " error=true";
     tab;
     tab ++ "# a long line";
     tab ++ "mylist " ++ dq ++ "something" ++ dq ++ " " ++ dq ++ "another" ++ dq ++
       " true " ++ dq ++ "shoe" ++ dq ++ " 2002/12/13 " ++ dq ++ "rock" ++ dq ++ " \";
     tab ++ tab ++ dq ++ "morestuff" ++ dq ++ " " ++ dq ++ "sink" ++ dq ++ " " ++ dq ++
       "penny" ++ dq ++ " 12:15:23.425";
     tab;
     tab ++ "# a long string";
     tab ++ "text " ++ dq ++ "this is a long rambling line of text with a continuation \";
     tab ++ "   and it keeps going and going..." ++ dq;
     tab ++ "   ";
     tab ++ "# anonymous tag examples";
     tab;
     tab ++ "files {";
     tab ++ tab ++ dq ++ "/folder1/file.txt" ++ dq;
     tab ++ tab ++ dq ++ "/file2.txt" ++ dq;
     tab ++ "}";
     tab ++ tab;
     tab ++ "# To retrieve the files as a list of strings";
     tab ++ "#";
     tab ++ "#     List files = tag.getChild(" ++ dq ++ "files" ++ dq ++
       ").getChildrenValues(" ++ dq ++ "content" ++ dq ++ ");";
     tab ++ "# ";
     tab ++ "# We us the name " ++ dq ++ "content" ++ dq ++
       " because the files tag has two children, each of ";
     tab ++ "# which are anonymous tags (values with no name.)  These tags are assigned";
     tab ++ "# the name " ++ dq ++ "content" ++ dq;
     tab ++ tab;
     tab ++ "matrix {";
     tab ++ tab ++ "1 2 3";
     tab ++ tab ++ "4 5 6";
     tab ++ "}";
     tab;
     tab ++ "# To retrieve the values from the matrix (as a list of lists)";
     tab ++ "#";
     tab ++ "#     List rows = tag.getChild(" ++ dq ++ "matrix" ++ dq ++
       ").getChildrenValues(" ++ dq ++ "content" ++ dq ++ ");"].

(** The kind and text of the tokens of up to [n] calls of [Next], and whether
    a call failed. *)
Fixpoint lex (n : nat) (s : SaxParser) : list (saxType * string) * bool :=
  match n with
  | 0 => ([], false)
  | S n' =>
      match Next s with
      | Ok s' => let (l, failed) := lex n' s' in ((t s', text s') :: l, failed)
      | _ => ([], true)
      end
  end.

(** ** Vocabulary of the statements *)

(** [ends r P]: the call returned or failed within the iteration bounds of
    the model, and what it returned satisfies [P]. *)
Definition ends {A : Type} (r : outcome A) (P : A -> Prop) : Prop :=
  match r with
  | Ok a => P a
  | Err _ | Panic _ => True
  | OutOfFuel => False
  end.

Definition in_fuel {A : Type} (r : outcome A) : bool :=
  match r with OutOfFuel => false | _ => true end.

(** What is left of the input. *)
Definition remaining (s : SaxParser) : nat := len s - cursor s.

(** The measure of the tree builder's loop: twice what is left of the input,
    plus one where a synthesized [content] tag name can still be emitted. *)
Definition measure (s : SaxParser) : nat :=
  2 * remaining s + (if isTagPosition s then 1 else 0).

(** Token kinds set by the lexing helpers: all but [failsafe], [newLine], [eof]. *)
Definition isToken (k : saxType) : bool :=
  negb (bool_decide (k = failsafe) || bool_decide (k = newLine) || bool_decide (k = eof)).

(** [s'] is [s] after a token of at least [n] characters was read. *)
Definition consumed (n : nat) (s s' : SaxParser) : Prop :=
  Input s' = Input s /\ cursor s + n <= cursor s' /\ isToken (t s') = true.

(** [s'] is [s] with its cursor moved forward. *)
Definition moved (s s' : SaxParser) : Prop :=
  s' = set_cursor s (cursor s') /\ cursor s <= cursor s'.

(** [s'] is [s] after more of the same token was read. *)
Definition same_token (s s' : SaxParser) : Prop :=
  Input s' = Input s /\ cursor s <= cursor s' /\ t s' = t s.

(** What one successful call of [Next] does to the parser: it reports the end
    of the input, or it moves the cursor forward over a token, or it emits the
    synthesized [content] tag name at the start of a line. *)
Definition progress (s s' : SaxParser) : Prop :=
  Input s' = Input s /\ cursor s <= cursor s' /\
  ((t s' = eof /\ len s <= cursor s')
   \/ (cursor s < cursor s' /\ cursor s < len s /\ t s' <> failsafe /\ t s' <> eof)
   \/ (isTagPosition s = true /\ t s' = tagName /\ text s' = "content")).

(** [n] calls of [Next] in a row, stopping at the first that fails. *)
Fixpoint Next_n (n : nat) (s : SaxParser) : outcome SaxParser :=
  match n with
  | 0 => Ok s
  | S n' => let* s' := Next s in Next_n n' s'
  end.

(** Inputs made of spaces, tabs, line feeds and carriage return + line feed
    pairs. *)
Fixpoint isWhitespace (input : string) : bool :=
  match input with
  | EmptyString => true
  | String c r =>
      if Ascii.eqb c " " || Ascii.eqb c TAB || Ascii.eqb c LF then isWhitespace r
      else if Ascii.eqb c CR then
        match r with
        | String c' r' => Ascii.eqb c' LF && isWhitespace r'
        | EmptyString => false
        end
      else false
  end.

(** [input[n:]], empty past the end. *)
Fixpoint suffix (n : nat) (input : string) : string :=
  match n, input with
  | 0, _ => input
  | S n', String _ r => suffix n' r
  | S _, EmptyString => EmptyString
  end.

(** What is left of the input, as a string. *)
Definition rest (s : SaxParser) : string := suffix (cursor s) (Input s).





(** The children of a tag after a visit of the [selected] ones only: each of
    these is replaced, in order, by the next of [visited], the children the
    visit left behind; every other child stays. *)
Fixpoint putBack (selected : SdlTag -> bool) (children visited : list SdlTag)
  : list SdlTag :=
  match children with
  | [] => []
  | child :: r =>
      if selected child then
        match visited with
        | v :: visited => v :: putBack selected r visited
        | [] => child :: putBack selected r []
        end
      else child :: putBack selected r visited
  end.

(** [yields r P]: if the call returned normally, what it returned satisfies [P]. *)
Definition yields {A : Type} (r : outcome A) (P : A -> Prop) : Prop :=
  match r with
  | Ok a => P a
  | _ => True
  end.

(** The bottom of the stack is a tag with no name and no namespace. *)
Definition rooted (stack : list SdlTag) : Prop :=
  exists r, stack !! 0 = Some r /\ Name r = "" /\ Namespace r = "".

(** *** Tokens *)

(** The cursor is on the input or at its end. *)
Definition inside (s : SaxParser) : Prop := cursor s <= len s.

(** [s'] is [s] with another cursor and another text. *)
Definition scans (s s' : SaxParser) : Prop :=
  s' = set_text (set_cursor s (cursor s')) (text s').

(** The branch of [Next] that returns, for a parser [s] that stands behind
    the blanks, comments and line continuations: what it tests and which
    helper it calls. *)
Inductive lexeme (s : SaxParser) : SaxParser -> Prop :=
| lexeme_eof :
    SaxParser_eof s = true -> lexeme s (set_t s eof)
| lexeme_LF :
    SaxParser_eof s = false -> peek s 0 = LF -> lexeme s (set_t (advance s 1) newLine)
| lexeme_CRLF :
    peek s 0 = CR -> peek s 1 = LF -> lexeme s (set_t (advance s 2) newLine)
| lexeme_word s' :
    isIdentifierStart (peek s 0) = true -> nextIdentifier s = Ok s' ->
    t s' <> attributeName -> lexeme s s'
| lexeme_attribute s' :
    isIdentifierStart (peek s 0) = true -> nextIdentifier s = Ok s' ->
    t s' = attributeName -> peek s' 0 = "="%char -> lexeme s (advance s' 1)
| lexeme_open :
    peek s 0 = "{"%char -> lexeme s (advance (set_text (set_t s openTag) "{") 1)
| lexeme_close :
    peek s 0 = "}"%char -> lexeme s (advance (set_text (set_t s closeTag) "}") 1)
| lexeme_content :
    SaxParser_eof s = false -> isTagPosition s = true ->
    lexeme s (set_text (set_t s tagName) "content")
| lexeme_doubleQuoted s' :
    isTagPosition s = false -> peek s 0 = DQUOTE ->
    nextDoubleQuotedString s = Ok s' -> lexeme s s'
| lexeme_backtick s' :
    isTagPosition s = false -> peek s 0 = "`"%char ->
    nextBacktickString s = Ok s' -> lexeme s s'
| lexeme_binary s' :
    isTagPosition s = false -> peek s 0 = "["%char ->
    nextBinary s = Ok s' -> lexeme s s'
| lexeme_numeric s' :
    isTagPosition s = false -> isDigit (peek s 0) || Ascii.eqb (peek s 0) "-" = true ->
    nextNumeric s = Ok s' -> lexeme s s'.

(** What [Next] can leave behind: [s] with its cursor moved and the fields of
    one kind of token written. *)
Inductive token (s : SaxParser) : SaxParser -> Prop :=
| token_eof c :
    len s <= c -> token s (set_t (set_cursor s c) eof)
| token_newLine c :
    token s (set_t (set_cursor s c) newLine)
| token_boolean c (b : bool) :
    token s (set_booleanVal
               (set_text (set_t (set_cursor s c) boolean) (if b then "true" else "false")) b)
| token_null c :
    token s (set_text (set_t (set_cursor s c) null) "null")
| token_tagName c x a :
    isTagPosition s = true ->
    token s (set_addText (set_text (set_t (set_cursor s c) tagName) x) a)
| token_attributeName c x a :
    isTagPosition s = false -> String.get c (Input s) = Some "="%char ->
    token s (set_addText (set_text (set_t (set_cursor s (S c)) attributeName) x) a)
| token_brace c k x :
    (k = openTag /\ x = "{") \/ (k = closeTag /\ x = "}") ->
    token s (set_text (set_t (set_cursor s c) k) x)
| token_content c :
    isTagPosition s = true ->
    token s (set_text (set_t (set_cursor s c) tagName) "content")
| token_text c k x :
    isTagPosition s = false ->
    k = string_ \/ k = binary \/ k = integer \/ k = long \/ k = float \/ k = double ->
    token s (set_text (set_t (set_cursor s c) k) x)
| token_timeSpan c v :
    isTagPosition s = false ->
    token s (set_timeSpanVal (set_t (set_cursor s c) timeSpan) v)
| token_date c k v :
    isTagPosition s = false -> k = date \/ k = dateTime ->
    token s (set_dateTimeVal (set_t (set_cursor s c) k) v).

(** *** Literals and names, as strings *)

(** The characters of [w] that satisfy [keep]. *)
Fixpoint keepChars (keep : ascii -> bool) (w : string) : string :=
  match w with
  | EmptyString => EmptyString
  | String c r => if keep c then String c (keepChars keep r) else keepChars keep r
  end.

(** Every character of [w] satisfies [ok]. *)
Fixpoint allChars (ok : ascii -> bool) (w : string) : bool :=
  match w with
  | EmptyString => true
  | String c r => ok c && allChars ok r
  end.

(** The words [nextIdentifier] turns into Bool and Null tokens. *)
Definition isKeyword (w : string) : bool :=
  String.eqb w "true" || String.eqb w "on" || String.eqb w "false" || String.eqb w "off"
  || String.eqb w "null".

(** An identifier without a namespace that is not a keyword. *)
Definition isName (w : string) : bool :=
  match w with
  | EmptyString => false
  | String c r => isIdentifierStart c && allChars isIdentifierContinue r
  end && negb (isKeyword w).

(** What follows a name: the end of the input, or a character that neither
    continues the identifier nor starts its second part. *)
Definition endsName (tail : string) : bool :=
  match tail with
  | EmptyString => true
  | String c _ => negb (isIdentifierContinue c) && negb (Ascii.eqb c ":")
  end.

(** Inside double quotes: no escape, no closing quote, no line end. *)
Definition plainInQuotes (c : ascii) : bool :=
  negb (Ascii.eqb c "\") && negb (Ascii.eqb c DQUOTE) && negb (Ascii.eqb c LF).

(** Inside backticks: no closing backtick, no carriage return. *)
Definition plainInBackticks (c : ascii) : bool :=
  negb (Ascii.eqb c "`") && negb (Ascii.eqb c CR).

(** The characters [nextBinary] drops. *)
Definition blankInBinary (c : ascii) : bool :=
  Ascii.eqb c " " || Ascii.eqb c TAB || Ascii.eqb c LF || Ascii.eqb c CR.

Definition notClosing (c : ascii) : bool := negb (Ascii.eqb c "]").

(** What [nextNumeric] accepts after a number: the end of the input, a
    space, or a line end. *)
Definition endsNumber (tail : string) : bool :=
  match tail with
  | EmptyString => true
  | String c _ => Ascii.eqb c " " || Ascii.eqb c LF || Ascii.eqb c CR
  end.

(** *** Trees *)

(** A value as one of the constructors returns it; [Binary] only with no
    bytes. *)
Definition built (v : SdlValue) : Prop :=
  v = Null \/ (exists w, v = String_ w) \/ (exists n, v = Int n) \/ (exists x, v = Float x)
  \/ (exists d, v = DateTime d) \/ (exists d, v = TimeSpan d) \/ (exists b, v = Bool b)
  \/ v = Binary [].

(** A tag, its children, their children, and so on. *)
Fixpoint descendants (g : SdlTag) : list SdlTag :=
  match g with
  | mkSdlTag _ _ _ children _ _ =>
      g :: (fix all (l : list SdlTag) : list SdlTag :=
              match l with
              | [] => []
              | child :: r => (descendants child ++ all r)%list
              end) children
  end.

(** The names of a tag and of its attributes agree with each other, and its
    values are built values. *)
Definition wellFormed (g : SdlTag) : Prop :=
  qualify (Namespace g) (Name g) = Ok (QualifiedName g)
  /\ (forall k a, Attributes g !! k = Some a ->
        AttrQualifiedName a = k
        /\ qualify (AttrNamespace a) (AttrName a) = Ok k
        /\ built (Value a))
  /\ Forall built (Values g).

(** Every tag below [g], and [g] itself, is well formed. *)
Definition deep (g : SdlTag) : Prop := Forall wellFormed (descendants g).

(** * Properties *)

(** ** The package's tests, run on the embedding *)

Example TestEmptyString :
  lex 1 (newSaxParser "" "") = ([(eof, "")], false)
  /\ lex 1 (newSaxParser (" " ++ tab) "") = ([(eof, "")], false).
Proof. split; reflexivity. Qed.

Example TestNewLine :
  lex 3 (newSaxParser (str1 LF ++ " " ++ str1 CR ++ str1 LF ++ str1 CR) "")
  = ([(newLine, ""); (newLine, "")], true).
Proof. vm_compute. reflexivity. Qed.

Example TestIdentifier :
  Next_n 2 (newSaxParser "abc one:23=" "")
  = Ok (mkSaxParser "abc one:23=" "" 11 attributeName "23" "one" time.zero 0%Z false)
  /\ lex 1 (newSaxParser "abc one:23=" "") = ([(tagName, "abc")], false)
  /\ lex 2 (newSaxParser "t no:equals" "") = ([(tagName, "t")], true).
Proof. repeat split; vm_compute; reflexivity. Qed.

Example TestContent :
  lex 2 (newSaxParser (dq ++ "This is content" ++ dq) "")
  = ([(tagName, "content"); (string_, "This is content")], false).
Proof. vm_compute. reflexivity. Qed.

Example TestDoubleQuotedString :
  lex 3 (newSaxParser ("t " ++ dq ++ "ABC" ++ dq ++ " " ++ dq ++ "Unterminated") "")
  = ([(tagName, "t"); (string_, "ABC")], true)
  /\ lex 2 (newSaxParser ("t " ++ dq ++ "john \" ++ str1 LF ++ tab ++ tab ++ "doe" ++ dq) "")
     = ([(tagName, "t"); (string_, "john doe")], false).
Proof. split; vm_compute; reflexivity. Qed.

Example TestBinary :
  lex 3 (newSaxParser ("t [a" ++ str1 LF ++ " b" ++ str1 LF ++ "c] [unterminated") "")
  = ([(tagName, "t"); (binary, "abc")], true).
Proof. vm_compute. reflexivity. Qed.

Example TestDate :
  (exists p, Next_n 2 (newSaxParser "t 1111/12/01" "") = Ok p
     /\ IsDate p = true /\ Time p = time.Date 1111 12 1 0 0 0 0)
  /\ lex 2 (newSaxParser "t 1111/1/11" "") = ([(tagName, "t")], true)
  /\ lex 2 (newSaxParser "t 1111/11/1" "") = ([(tagName, "t")], true)
  /\ lex 2 (newSaxParser "t 1aaa/bb/cc" "") = ([(tagName, "t")], true).
Proof.
  split; [eexists; split; [vm_compute; reflexivity|]; split; vm_compute; reflexivity|].
  repeat split; vm_compute; reflexivity.
Qed.

Example TestNumber :
  lex 7 (newSaxParser "t 123 123.456 -123 -123.456 123L 123.4F" "")
  = ([(tagName, "t"); (integer, "123"); (double, "123.456"); (integer, "-123");
      (double, "-123.456"); (long, "123"); (float, "123.4")], false)
  /\ lex 2 (newSaxParser "t -1- 2.. 3b" "") = ([(tagName, "t")], true).
Proof. split; vm_compute; reflexivity. Qed.

Example TestBoolean :
  lex 6 (newSaxParser "t true on false off null" "")
  = ([(tagName, "t"); (boolean, "true"); (boolean, "true"); (boolean, "false");
      (boolean, "false"); (null, "null")], false).
Proof. vm_compute. reflexivity. Qed.

Example TestAst (ParseFloat : string -> PrimFloat.float) :
  exists ast,
    ParseIntoAst ParseFloat (newSaxParser TestAst_code "") = Ok ast
    /\ length (Children ast) = 14
    /\ Name <$> Children ast !! 0 = Some "my_tag"
    /\ (Name <$> Children ast !! 1 = Some "first_name"
        /\ Values <$> Children ast !! 1 = Some [String_ "Akiko"])
    /\ (Name <$> Children ast !! 2 = Some "last_name"
        /\ Values <$> Children ast !! 2 = Some [String_ "Johnson"])
    /\ (Children ast !! 5 ≫= (fun c => Value <$> Attributes c !! "first_name"))
       = Some (String_ "Akiko").
Proof.
  eexists. split; [vm_compute; reflexivity|].
  repeat split; vm_compute; reflexivity.
Qed.

(** ** Outcomes *)

Lemma ends_Ok {A : Type} (a : A) (P : A -> Prop) : P a -> ends (Ok a) P.
Proof. exact (fun H => H). Qed.

Lemma ends_bind {A B : Type} (m : outcome A) (k : A -> outcome B)
    (Q : A -> Prop) (P : B -> Prop) :
  ends m Q -> (forall a, Q a -> ends (k a) P) -> ends (bind m k) P.
Proof. destruct m; simpl; auto; contradiction. Qed.

Lemma ends_mono {A : Type} (r : outcome A) (P Q : A -> Prop) :
  ends r P -> (forall a, P a -> Q a) -> ends r Q.
Proof. destruct r; simpl; auto. Qed.

Lemma ends_in_fuel {A : Type} (r : outcome A) (P : A -> Prop) :
  ends r P -> in_fuel r = true.
Proof. destruct r; simpl; auto; contradiction. Qed.

Lemma ends_inv {A : Type} (r : outcome A) (P : A -> Prop) (a : A) :
  ends r P -> r = Ok a -> P a.
Proof. intros H ->. exact H. Qed.

Lemma bind_Ok_inv {A B : Type} (m : outcome A) (k : A -> outcome B) (b : B) :
  bind m k = Ok b -> exists a, m = Ok a /\ k a = Ok b.
Proof. destruct m; simpl; try discriminate. eauto. Qed.

(** ** Strings and the cursor *)

Lemma length_substring_le (n m : nat) (s : string) :
  String.length (substring n m s) <= m.
Proof.
  revert n m. induction s as [|c s IH]; intros [|n] [|m]; simpl; try lia.
  - specialize (IH 0 m). lia.
  - apply (IH n 0).
  - apply (IH n (S m)).
Qed.

Lemma slice_length (s w : string) (a b : nat) :
  slice s a b = Ok w -> String.length w <= b - a.
Proof.
  unfold slice. destruct (_ && _); [|discriminate].
  intros [= <-]. apply length_substring_le.
Qed.

Lemma slice_ends (s : string) (a b : nat) :
  ends (slice s a b) (fun w => String.length w <= b - a).
Proof.
  destruct (slice s a b) eqn:E; simpl; auto.
  - eapply slice_length; eauto.
  - unfold slice in E. destruct (_ && _); discriminate.
Qed.

Lemma index_ends (s : string) (i : nat) : ends (index s i) (fun _ => True).
Proof. unfold index. destruct (String.get i s); simpl; auto. Qed.

Lemma peek_eof (s : SaxParser) (k : nat) :
  len s <= cursor s -> peek s k = byte_ff.
Proof.
  intros H. unfold peek.
  destruct (len s <=? cursor s + k) eqn:E; [reflexivity|].
  apply Nat.leb_gt in E. lia.
Qed.

Lemma peek_lt (s : SaxParser) (k : nat) :
  peek s k <> byte_ff -> cursor s + k < len s.
Proof.
  unfold peek. destruct (len s <=? cursor s + k) eqn:E; [congruence|].
  apply Nat.leb_gt in E. auto.
Qed.

Lemma eof_false (s : SaxParser) : SaxParser_eof s = false -> cursor s < len s.
Proof. unfold SaxParser_eof. intros H. apply Nat.leb_gt in H. exact H. Qed.

Lemma eof_true (s : SaxParser) : SaxParser_eof s = true -> len s <= cursor s.
Proof. unfold SaxParser_eof. intros H. apply Nat.leb_le in H. exact H. Qed.

Lemma set_cursor_same (s : SaxParser) : set_cursor s (cursor s) = s.
Proof. destruct s; reflexivity. Qed.


Lemma moved_refl (s : SaxParser) : moved s s.
Proof. split; [symmetry; apply set_cursor_same | lia]. Qed.

Lemma moved_trans (s1 s2 s3 : SaxParser) : moved s1 s2 -> moved s2 s3 -> moved s1 s3.
Proof.
  intros [E1 L1] [E2 L2]. split; [|lia].
  rewrite E2 at 1. rewrite E1. reflexivity.
Qed.

Lemma moved_advance (s : SaxParser) (n : nat) : moved s (advance s n).
Proof. split; [reflexivity | simpl; lia]. Qed.

Lemma moved_Input (s s' : SaxParser) : moved s s' -> Input s' = Input s.
Proof. intros [-> _]. reflexivity. Qed.

Lemma moved_len (s s' : SaxParser) : moved s s' -> len s' = len s.
Proof. intros [-> _]. reflexivity. Qed.

Lemma moved_t (s s' : SaxParser) : moved s s' -> t s' = t s.
Proof. intros [-> _]. reflexivity. Qed.

(** ** The loops of the tokenizer end *)

Section Scanning.

Variable cond : SaxParser -> bool.
Hypothesis cond_inside : forall x, cond x = true -> cursor x < len x.

Lemma advanceWhile_ends (fuel : nat) (s : SaxParser) :
  remaining s <= fuel ->
  ends (advanceWhile cond fuel s)
    (fun s' => moved s s' /\ cond s' = false /\ (cond s = true -> cursor s < cursor s')).
Proof using cond_inside.
  revert s. induction fuel as [|fuel IH]; intros s Hf; simpl.
  - destruct (cond s) eqn:E; simpl.
    + apply cond_inside in E. unfold remaining in Hf. lia.
    + split; [apply moved_refl|]. split; [exact E | discriminate].
  - destruct (cond s) eqn:E; simpl.
    + eapply ends_mono; [apply IH; unfold remaining in *; simpl; unfold len in *; simpl; lia|].
      intros s' (Hm & Hc & _). split; [|split; [exact Hc|]].
      * eapply moved_trans; [apply (moved_advance s 1) | exact Hm].
      * intros _. destruct Hm as [_ Hm]. simpl in Hm. lia.
    + split; [apply moved_refl|]. split; [exact E | discriminate].
Qed.

End Scanning.

Lemma isBlank_inside (x : SaxParser) : isBlank x = true -> cursor x < len x.
Proof.
  unfold isBlank. intros H. apply andb_true_iff in H as [H _].
  apply negb_true_iff in H. apply eof_false. exact H.
Qed.

Lemma inComment_inside (x : SaxParser) : inComment x = true -> cursor x < len x.
Proof.
  unfold inComment. intros H. apply andb_true_iff in H as [H _].
  apply negb_true_iff in H. apply eof_false. exact H.
Qed.

Lemma isSpaceOrTab_inside (x : SaxParser) : isSpaceOrTab x = true -> cursor x < len x.
Proof.
  unfold isSpaceOrTab. intros H.
  pose proof (peek_lt x 0) as P. rewrite Nat.add_0_r in P. apply P.
  intros E. rewrite E in H. discriminate.
Qed.

Lemma identifierContinues_inside (x : SaxParser) :
  identifierContinues x = true -> cursor x < len x.
Proof.
  unfold identifierContinues. intros H.
  pose proof (peek_lt x 0) as P. rewrite Nat.add_0_r in P. apply P.
  intros E. rewrite E in H. discriminate.
Qed.

Lemma remaining_le_len (s : SaxParser) : remaining s <= len s.
Proof. unfold remaining. lia. Qed.

Lemma eatWhite_ends (s : SaxParser) :
  ends (eatWhite s) (fun s' => moved s s' /\ isBlank s' = false).
Proof.
  unfold eatWhite. eapply ends_mono.
  - apply (advanceWhile_ends isBlank isBlank_inside). apply remaining_le_len.
  - intros s' (Hm & Hc & _). auto.
Qed.

(** ** Diagnostics end, and never return normally *)

Lemma getLine_start_ends (fuel : nat) (input : string) (start : nat) :
  start <= fuel -> ends (getLine_start fuel input start) (fun _ => True).
Proof.
  revert start. induction fuel as [|fuel IH]; intros start Hf; simpl.
  - destruct (0 <? start) eqn:E; simpl; auto.
    apply Nat.ltb_lt in E. lia.
  - destruct (0 <? start) eqn:E; simpl; auto.
    eapply ends_bind; [apply index_ends|]. intros c _.
    destruct (negb _); simpl; auto. apply IH. lia.
Qed.

Lemma getLine_end_ends (fuel : nat) (input : string) (end_ : nat) :
  String.length input - end_ <= fuel ->
  ends (getLine_end fuel input end_) (fun _ => True).
Proof.
  revert end_. induction fuel as [|fuel IH]; intros end_ Hf; simpl.
  - destruct (end_ <? String.length input) eqn:E; simpl; auto.
    apply Nat.ltb_lt in E. lia.
  - destruct (end_ <? String.length input) eqn:E; simpl; auto.
    eapply ends_bind; [apply index_ends|]. intros c _.
    destruct (_ && _); simpl; auto. apply IH. lia.
Qed.

Lemma getLine_count_ends (input : string) (idx : list nat) (line : nat) :
  ends (getLine_count input idx line) (fun _ => True).
Proof.
  revert line. induction idx as [|i idx IH]; intros line; simpl; auto.
  eapply ends_bind; [apply index_ends|]. intros c _. apply IH.
Qed.

Lemma getLine_ends (s : SaxParser) (at_ : nat) : ends (getLine s at_) (fun _ => True).
Proof.
  unfold getLine.
  eapply ends_bind with (Q := fun _ => True).
  { destruct (_ && _); simpl; auto.
    eapply ends_bind; [apply index_ends|]. simpl. auto. }
  intros nl _.
  eapply ends_bind; [apply getLine_start_ends; lia|]. intros start _.
  eapply ends_bind; [apply getLine_end_ends; unfold len; lia|]. intros end_ _.
  eapply ends_bind; [apply index_ends|]. intros c _.
  eapply ends_bind; [apply getLine_count_ends|]. intros line _.
  eapply ends_bind; [apply slice_ends|]. intros l _.
  simpl. auto.
Qed.

Lemma fail_at_ends {A : Type} (s : SaxParser) (at_ : nat) (msg : string) (P : A -> Prop) :
  ends (fail_at s at_ msg) P.
Proof.
  unfold fail_at. eapply ends_bind; [apply getLine_ends|].
  intros [[line loc] ln] _. simpl. auto.
Qed.

Lemma fail_unterminated_ends {A : Type} (s : SaxParser) (d : nat) (m1 m2 : string)
    (P : A -> Prop) :
  ends (fail_unterminated s d m1 m2) P.
Proof.
  unfold fail_unterminated. eapply ends_bind; [apply getLine_ends|].
  intros [[line loc] ln] _. eapply ends_bind; [apply getLine_ends|].
  intros [[line2 loc2] ln2] _. simpl. auto.
Qed.

Lemma NewError_ends (s : SaxParser) (offset : nat) (msg : string) :
  ends (NewError s offset msg) (fun _ => True).
Proof.
  unfold NewError. eapply ends_bind; [apply getLine_ends|].
  intros [[line loc] ln] _. simpl. auto.
Qed.


(** ** Every lexing helper ends and consumes its token *)

Lemma start_continue (c : ascii) : isIdentifierStart c = true -> isIdentifierContinue c = true.
Proof.
  unfold isIdentifierStart, isIdentifierContinue. intros H.
  apply orb_true_iff in H as [H|H]; [apply orb_true_iff in H as [H|H]|]; rewrite H;
    rewrite ?orb_true_r; reflexivity.
Qed.

Lemma nextIdentifier_ends (s : SaxParser) :
  isIdentifierStart (peek s 0) = true -> ends (nextIdentifier s) (consumed 1 s).
Proof.
  intros Hs. unfold nextIdentifier.
  set (s0 := if isTagPosition s then set_t s tagName else set_t s attributeName).
  assert (H0 : Input s0 = Input s /\ cursor s0 = cursor s /\ isToken (t s0) = true
                /\ identifierContinues s0 = true).
  { unfold s0. destruct (isTagPosition s); simpl; repeat split; auto;
      apply start_continue; exact Hs. }
  destruct H0 as (HI & HC & HT & HK).
  eapply ends_bind.
  { apply (advanceWhile_ends _ identifierContinues_inside). apply remaining_le_len. }
  intros s1 (Hm & _ & Hlt). specialize (Hlt HK).
  pose proof (moved_Input _ _ Hm) as HI1. pose proof (moved_t _ _ Hm) as HT1.
  eapply ends_bind; [apply slice_ends|]. intros word _.
  repeat match goal with |- context [if ?b then _ else _] => destruct b end;
    try (simpl; unfold consumed; simpl; repeat split; try congruence; try lia; fail).
  eapply ends_bind.
  { apply (advanceWhile_ends _ identifierContinues_inside). apply remaining_le_len. }
  intros s2 (Hm2 & _ & _).
  eapply ends_bind; [apply slice_ends|]. intros name _.
  simpl. unfold consumed. simpl.
  pose proof (moved_Input _ _ Hm2) as HI2. pose proof (moved_t _ _ Hm2) as HT2.
  destruct Hm2 as [_ Hm2]. simpl in *.
  repeat split; try congruence; try lia.
Qed.

Ltac split_ifs :=
  repeat match goal with
         | |- context [if ?b then _ else _] => destruct b eqn:?
         end.


Lemma same_token_step (s s1 s' : SaxParser) :
  Input s1 = Input s -> cursor s <= cursor s1 -> t s1 = t s ->
  same_token s1 s' -> same_token s s'.
Proof. unfold same_token. intros ? ? ? (? & ? & ?). repeat split; try congruence; lia. Qed.

Lemma doubleQuoted_loop_ends (fuel debugStart : nat) (s : SaxParser) (text_ : string)
    (start : nat) :
  remaining s <= fuel ->
  ends (doubleQuoted_loop fuel debugStart s text_ start) (same_token s).
Proof.
  revert s text_ start. induction fuel as [|fuel IH]; intros s text_ start Hf; simpl.
  - destruct (SaxParser_eof s) eqn:E; simpl; [apply fail_unterminated_ends|].
    apply eof_false in E. unfold remaining in Hf. lia.
  - destruct (SaxParser_eof s) eqn:E; simpl; [apply fail_unterminated_ends|].
    apply eof_false in E.
    assert (Hadv : forall n, 0 < n -> remaining (advance s n) <= fuel).
    { intros n Hn. unfold remaining in *. simpl. unfold len in *. simpl. lia. }
    destruct (Ascii.eqb (peek s 0) "\").
    + eapply ends_bind; [apply slice_ends|]. intros seg _.
      eapply ends_bind with
        (Q := fun st => Input (fst st) = Input s /\ cursor s < cursor (fst st)
                        /\ t (fst st) = t s).
      { split_ifs; simpl; try (repeat split; auto; lia); try apply fail_at_ends.
        eapply ends_bind.
        { apply (advanceWhile_ends _ isSpaceOrTab_inside).
          unfold remaining, len. simpl. lia. }
        intros s2 (Hm & _). simpl.
        pose proof (moved_Input _ _ Hm) as HI. pose proof (moved_t _ _ Hm) as HT.
        destruct Hm as [_ Hm]. simpl in *. repeat split; auto. lia. }
      intros [s2 text2] (HI & HC & HT). simpl in *.
      eapply ends_mono.
      * apply IH. unfold remaining in *. unfold len in *. rewrite HI. lia.
      * intros s' Hs'. eapply same_token_step; eauto. lia.
    + destruct (Ascii.eqb (peek s 0) DQUOTE).
      * eapply ends_bind; [apply slice_ends|]. intros seg _.
        simpl. repeat split; simpl; auto. lia.
      * destruct (Ascii.eqb (peek s 0) LF); [apply fail_unterminated_ends|].
        eapply ends_mono; [apply IH; apply Hadv; lia|].
        intros s' Hs'. apply (same_token_step s (advance s 1) s'); simpl; auto. lia.
Qed.

Lemma same_token_consumed (n : nat) (s s1 s' : SaxParser) :
  Input s1 = Input s -> cursor s + n <= cursor s1 -> isToken (t s1) = true ->
  same_token s1 s' -> consumed n s s'.
Proof.
  unfold same_token, consumed. intros ? ? ? (? & ? & ?).
  repeat split; try congruence; lia.
Qed.

Lemma nextDoubleQuotedString_ends (s : SaxParser) :
  ends (nextDoubleQuotedString s) (consumed 1 s).
Proof.
  unfold nextDoubleQuotedString. eapply ends_mono.
  - apply doubleQuoted_loop_ends. apply remaining_le_len.
  - intros s' Hs'.
    apply (same_token_consumed 1 s (set_t (advance s 1) string_) s'); simpl; auto.
Qed.

Lemma backtick_loop_ends (fuel debugStart : nat) (s : SaxParser) (start : nat) :
  remaining s <= fuel ->
  ends (backtick_loop fuel debugStart s start) (same_token s).
Proof.
  revert s start. induction fuel as [|fuel IH]; intros s start Hf; simpl.
  - destruct (SaxParser_eof s) eqn:E; simpl; [apply fail_unterminated_ends|].
    apply eof_false in E. unfold remaining in Hf. lia.
  - destruct (SaxParser_eof s) eqn:E; simpl; [apply fail_unterminated_ends|].
    apply eof_false in E.
    destruct (Ascii.eqb (peek s 0) "`").
    + eapply ends_bind; [apply slice_ends|]. intros seg _.
      simpl. repeat split; simpl; auto. lia.
    + destruct (Ascii.eqb (peek s 0) CR); [apply fail_at_ends|].
      eapply ends_mono.
      * apply IH. unfold remaining, len in *. simpl. lia.
      * intros s' Hs'. apply (same_token_step s (advance s 1) s'); simpl; auto. lia.
Qed.

Lemma nextBacktickString_ends (s : SaxParser) :
  ends (nextBacktickString s) (consumed 1 s).
Proof.
  unfold nextBacktickString. eapply ends_mono.
  - apply backtick_loop_ends. apply remaining_le_len.
  - intros s' Hs'.
    apply (same_token_consumed 1 s (set_t (advance s 1) string_) s'); simpl; auto.
Qed.

Lemma binary_loop_ends (fuel debugStart : nat) (s : SaxParser) (text_ : string) :
  remaining s <= fuel ->
  ends (binary_loop fuel debugStart s text_) (same_token s).
Proof.
  revert s text_. induction fuel as [|fuel IH]; intros s text_ Hf; simpl.
  - destruct (SaxParser_eof s) eqn:E; simpl; [apply fail_unterminated_ends|].
    apply eof_false in E. unfold remaining in Hf. lia.
  - destruct (SaxParser_eof s) eqn:E; simpl; [apply fail_unterminated_ends|].
    apply eof_false in E.
    assert (Hr : remaining (advance s 1) <= fuel).
    { unfold remaining, len in *. simpl. lia. }
    destruct (Ascii.eqb (peek s 0) "]").
    + simpl. repeat split; simpl; auto. lia.
    + destruct (_ || _).
      * eapply ends_mono; [apply IH; exact Hr|].
        intros s' Hs'. apply (same_token_step s (advance s 1) s'); simpl; auto. lia.
      * eapply ends_mono; [apply IH; exact Hr|].
        intros s' Hs'. apply (same_token_step s (advance s 1) s'); simpl; auto. lia.
Qed.

Lemma nextBinary_ends (s : SaxParser) : ends (nextBinary s) (consumed 1 s).
Proof.
  unfold nextBinary. eapply ends_mono.
  - apply binary_loop_ends. apply remaining_le_len.
  - intros s' Hs'.
    apply (same_token_consumed 1 s (set_t (advance s 1) binary) s'); simpl; auto.
Qed.

Lemma numeric_loop_ends (fuel : nat) (s : SaxParser) (foundDot : bool) :
  remaining s <= fuel ->
  ends (numeric_loop fuel s foundDot)
    (fun r => moved s (fst r) /\ (isDigit (peek s 0) = true -> cursor s < cursor (fst r))).
Proof.
  revert s foundDot. induction fuel as [|fuel IH]; intros s foundDot Hf; simpl.
  - destruct (SaxParser_eof s) eqn:E; simpl.
    + split; [apply moved_refl|]. apply eof_true in E.
      rewrite (peek_eof s 0 E). discriminate.
    + apply eof_false in E. unfold remaining in Hf. lia.
  - destruct (SaxParser_eof s) eqn:E; simpl.
    + split; [apply moved_refl|]. apply eof_true in E.
      rewrite (peek_eof s 0 E). discriminate.
    + apply eof_false in E.
      assert (Hr : remaining (advance s 1) <= fuel).
      { unfold remaining, len in *. simpl. lia. }
      assert (Hstep : forall d,
        ends (numeric_loop fuel (advance s 1) d)
          (fun r => moved s (fst r) /\ (isDigit (peek s 0) = true -> cursor s < cursor (fst r)))).
      { intros d. eapply ends_mono; [apply IH; exact Hr|].
        intros r [Hm _]. split.
        - eapply moved_trans; [apply (moved_advance s 1)|exact Hm].
        - intros _. destruct Hm as [_ Hm]. simpl in Hm. lia. }
      destruct (Ascii.eqb (peek s 0) ".") eqn:Edot.
      * destruct foundDot; [apply fail_at_ends | apply Hstep].
      * destruct (isDigit (peek s 0)) eqn:Ed; simpl; [apply Hstep|].
        split; [apply moved_refl | discriminate].
Qed.

Lemma first_is_ends (c : ascii) (w : string) : ends (first_is c w) (fun _ => True).
Proof. unfold first_is. eapply ends_bind; [apply index_ends|]. simpl. auto. Qed.

Lemma nextTimeSpan_ends (s : SaxParser) (first : string) :
  ends (nextTimeSpan s first)
    (fun s' => Input s' = Input s /\ cursor s - String.length first + 8 <= cursor s'
               /\ t s' = timeSpan).
Proof.
  unfold nextTimeSpan.
  eapply ends_bind; [apply first_is_ends|]. intros isNegative _.
  eapply ends_bind with
    (Q := fun st => Input (fst st) = Input s
                    /\ cursor s - String.length first <= cursor (fst st)).
  { unfold nextTimeSpan_below.
    split_ifs; simpl; try apply fail_at_ends; try exact I; split; auto; lia. }
  intros [s1 days] [HI HC]. simpl in HI, HC.
  destruct (negb (Ascii.eqb (peek s1 2) ":")); [apply fail_at_ends|].
  destruct (negb (Ascii.eqb (peek s1 5) ":")); [apply fail_at_ends|].
  cbv zeta.
  eapply ends_bind; [apply slice_ends|]. intros hours _.
  eapply ends_bind; [apply slice_ends|]. intros minutes _.
  eapply ends_bind; [apply slice_ends|]. intros seconds _.
  eapply ends_bind with
    (Q := fun st => Input (fst st) = Input s1 /\ cursor s1 + 8 <= cursor (fst st)).
  { split_ifs; simpl; try apply fail_at_ends;
      try (eapply ends_bind; [apply slice_ends|]; intros nsecs _; simpl);
      split; auto; lia. }
  intros [s2 nsecs] [HI2 HC2]. simpl in *.
  repeat split; try congruence. lia.
Qed.

Lemma nextDate_ends (s : SaxParser) :
  ends (nextDate s)
    (fun s' => Input s' = Input s /\ cursor s' = cursor s + 10 /\ t s' = date).
Proof.
  unfold nextDate.
  destruct (len s <? cursor s + 10); [apply fail_at_ends|].
  destruct (negb (Ascii.eqb (peek s 7) "/")); [apply fail_at_ends|].
  eapply ends_bind; [apply slice_ends|]. intros ys _.
  eapply ends_bind; [apply slice_ends|]. intros ms _.
  eapply ends_bind; [apply slice_ends|]. intros ds _.
  destruct (strconv.Atoi ys) as [year yerr].
  destruct (strconv.Atoi ms) as [month merr].
  destruct (strconv.Atoi ds) as [day derr].
  destruct (_ || _).
  - eapply ends_bind; [apply getLine_ends|]. intros [[line loc] ln] _. simpl. auto.
  - simpl. auto.
Qed.

Lemma nextDateTime_ends (s : SaxParser) :
  ends (nextDateTime s)
    (fun s' => Input s' = Input s /\ cursor s + 18 <= cursor s' /\ t s' = dateTime).
Proof.
  unfold nextDateTime.
  eapply ends_bind; [apply nextDate_ends|]. intros s1 (HI1 & HC1 & _).
  eapply ends_bind; [apply eatWhite_ends|]. intros s2 (Hm & _).
  pose proof (moved_Input _ _ Hm) as HI2. destruct Hm as [_ HC2].
  destruct (len s2 <? cursor s2 + 8); [apply fail_at_ends|].
  destruct (negb (Ascii.eqb (peek s2 5) ":")); [apply fail_at_ends|].
  eapply ends_bind; [apply slice_ends|]. intros hs _.
  eapply ends_bind; [apply slice_ends|]. intros ms _.
  eapply ends_bind; [apply slice_ends|]. intros ss _.
  destruct (strconv.Atoi hs) as [hours herr].
  destruct (strconv.Atoi ms) as [minutes merr].
  destruct (strconv.Atoi ss) as [seconds serr].
  destruct (_ || _).
  - eapply ends_bind; [apply getLine_ends|]. intros [[line loc] ln] _. simpl. auto.
  - eapply ends_bind with
      (Q := fun st => Input (fst st) = Input s2 /\ cursor s2 + 8 <= cursor (fst st)).
    { destruct (Ascii.eqb (peek (advance s2 8) 0) "."); [|simpl; split; auto].
      destruct (len (advance s2 8) <? cursor (advance s2 8) + 4); [apply fail_at_ends|].
      eapply ends_bind; [apply slice_ends|]. intros fs _.
      destruct (strconv.Atoi fs) as [frac ferr].
      destruct (notNil ferr); [apply fail_at_ends|]. simpl. split; auto. lia. }
    intros [s3 frac] [HI3 HC3]. simpl in *.
    repeat split; try congruence. lia.
Qed.

Lemma nextNumeric_ends (s : SaxParser) :
  isDigit (peek s 0) || Ascii.eqb (peek s 0) "-" = true ->
  ends (nextNumeric s) (consumed 1 s).
Proof.
  intros Hch. unfold nextNumeric.
  destruct (Ascii.eqb (peek s 4) "/").
  { destruct (_ && _).
    - eapply ends_mono; [apply nextDateTime_ends|].
      intros s' (HI & HC & HT). unfold consumed. rewrite HT. repeat split; auto. lia.
    - eapply ends_mono; [apply nextDate_ends|].
      intros s' (HI & HC & HT). unfold consumed. rewrite HT. repeat split; auto. lia. }
  set (s0 := if Ascii.eqb (peek s 0) "-" then advance s 1 else s).
  assert (H0 : moved s s0 /\ (cursor s0 = cursor s -> isDigit (peek s0 0) = true)).
  { unfold s0. destruct (Ascii.eqb (peek s 0) "-") eqn:E.
    - split; [apply moved_advance|]. simpl. lia.
    - split; [apply moved_refl|]. intros _. rewrite orb_false_r in Hch. exact Hch. }
  destruct H0 as [Hm0 Hd0].
  eapply ends_bind.
  { apply numeric_loop_ends. unfold remaining.
    rewrite (moved_len _ _ Hm0). lia. }
  intros [s1 foundDot] [Hm1 Hlt]. simpl in Hm1, Hlt.
  assert (Hgt : cursor s < cursor s1).
  { destruct Hm0 as [_ Hm0]. destruct (Nat.eq_dec (cursor s0) (cursor s)) as [e|ne].
    - specialize (Hlt (Hd0 e)). lia.
    - destruct Hm1 as [_ Hm1]. lia. }
  pose proof (moved_trans _ _ _ Hm0 Hm1) as Hm. pose proof (moved_Input _ _ Hm) as HI.
  eapply ends_bind; [apply slice_ends|]. intros num Hnum. simpl in Hnum.
  destruct (Ascii.eqb (peek s1 0) "d" || Ascii.eqb (peek s1 0) ":").
  - eapply ends_mono; [apply nextTimeSpan_ends|].
    intros s' (HI' & HC' & HT'). unfold consumed. rewrite HT'.
    repeat split; try congruence. lia.
  - split_ifs; try apply fail_at_ends; simpl; unfold consumed; simpl;
      repeat split; auto; lia.
Qed.


Lemma isToken_spec (k : saxType) :
  isToken k = true -> k <> failsafe /\ k <> newLine /\ k <> eof.
Proof. destruct k; simpl; intros H; try discriminate; repeat split; discriminate. Qed.

Lemma consumed_progress (s s1 s' : SaxParser) :
  moved s s1 -> cursor s1 < len s1 -> consumed 1 s1 s' -> progress s s'.
Proof.
  intros Hm Hlt (HI & HC & HT). apply isToken_spec in HT as (? & ? & ?).
  pose proof (moved_Input _ _ Hm). pose proof (moved_len _ _ Hm) as Hl.
  destruct Hm as [_ Hm]. unfold progress.
  split; [congruence|]. split; [lia|]. right. left.
  repeat split; auto; lia.
Qed.

Lemma progress_moved (s s1 s' : SaxParser) :
  moved s s1 -> progress s1 s' -> progress s s'.
Proof.
  intros Hm (HI & HC & HK).
  pose proof (moved_Input _ _ Hm). pose proof (moved_len _ _ Hm) as Hl.
  pose proof (moved_t _ _ Hm) as Ht.
  destruct Hm as [_ Hm]. unfold progress.
  split; [congruence|]. split; [lia|].
  destruct HK as [[? ?]|[(? & ? & ? & ?)|(? & ? & ?)]].
  - left. split; auto. lia.
  - right. left. repeat split; auto; lia.
  - right. right. repeat split; auto.
    unfold isTagPosition in *. rewrite <- Ht. assumption.
Qed.

Lemma startsComment_not_LF (s : SaxParser) :
  startsComment s = true -> Ascii.eqb (peek s 0) LF = false.
Proof.
  unfold startsComment. destruct (Ascii.eqb_spec (peek s 0) LF) as [e|ne]; [|reflexivity].
  rewrite e. simpl. discriminate.
Qed.

Lemma Next_rec_ends (fuel : nat) (s : SaxParser) :
  remaining s < fuel -> ends (Next_rec fuel s) (progress s).
Proof.
  revert s. induction fuel as [|fuel IH]; intros s Hf; [lia|]. simpl.
  eapply ends_bind; [apply eatWhite_ends|]. intros s1 [Hm _].
  pose proof (moved_len _ _ Hm) as Hl.
  assert (Hc : cursor s <= cursor s1) by apply Hm.
  destruct (SaxParser_eof s1) eqn:Eeof.
  { apply eof_true in Eeof. simpl. apply (progress_moved s s1); [exact Hm|].
    unfold progress. simpl. repeat split; auto. }
  apply eof_false in Eeof.
  assert (Hadv : forall n, 0 < n -> remaining (advance s1 n) < fuel).
  { intros n Hn. unfold remaining in *. simpl. unfold len in *. simpl. lia. }
  destruct (startsComment s1) eqn:Ecom.
  { eapply ends_bind.
    { apply (advanceWhile_ends _ inComment_inside). apply remaining_le_len. }
    intros s2 (Hm2 & _ & Hlt).
    assert (cursor s1 < cursor s2).
    { apply Hlt. unfold inComment. rewrite (startsComment_not_LF _ Ecom).
      unfold SaxParser_eof. apply Nat.leb_gt in Eeof. rewrite Eeof. reflexivity. }
    eapply ends_mono.
    - apply IH. unfold remaining in *. rewrite (moved_len _ _ Hm2). lia.
    - intros s' Hs'. eapply progress_moved; [|exact Hs'].
      eapply moved_trans; eauto. }
  destruct (Ascii.eqb (peek s1 0) LF).
  { simpl. apply (progress_moved s s1); [exact Hm|].
    unfold progress. simpl. repeat split; auto; try lia.
    right. left. repeat split; try lia; discriminate. }
  destruct (Ascii.eqb (peek s1 0) CR).
  { destruct (negb _).
    - eapply ends_bind; [apply getLine_ends|]. intros [[line loc] ln] _. simpl. auto.
    - simpl. apply (progress_moved s s1); [exact Hm|].
      unfold progress. simpl. repeat split; auto; try lia.
      right. left. repeat split; try lia; discriminate. }
  destruct (_ && _).
  { eapply ends_mono; [apply IH; apply Hadv; lia|].
    intros s' Hs'. eapply progress_moved; [|exact Hs'].
    eapply moved_trans; [exact Hm | apply moved_advance]. }
  destruct (isIdentifierStart (peek s1 0)) eqn:Eid.
  { eapply ends_bind; [apply nextIdentifier_ends; exact Eid|].
    intros s2 Hs2. destruct (bool_decide _).
    - destruct (negb _); [apply fail_at_ends|]. simpl.
      apply (consumed_progress s s1); auto.
      destruct Hs2 as (? & ? & ?). unfold consumed. simpl. repeat split; auto. lia.
    - simpl. apply (consumed_progress s s1); auto. }
  destruct (Ascii.eqb (peek s1 0) "{").
  { simpl. apply (consumed_progress s s1); auto. unfold consumed. simpl. auto. }
  destruct (Ascii.eqb (peek s1 0) "}").
  { simpl. apply (consumed_progress s s1); auto. unfold consumed. simpl. auto. }
  destruct (isTagPosition s1) eqn:Etag.
  { simpl. apply (progress_moved s s1); [exact Hm|].
    unfold progress. simpl. repeat split; auto. }
  destruct (Ascii.eqb (peek s1 0) DQUOTE).
  { eapply ends_mono; [apply nextDoubleQuotedString_ends|].
    intros s' Hs'. apply (consumed_progress s s1); auto. }
  destruct (Ascii.eqb (peek s1 0) "`").
  { eapply ends_mono; [apply nextBacktickString_ends|].
    intros s' Hs'. apply (consumed_progress s s1); auto. }
  destruct (Ascii.eqb (peek s1 0) "[").
  { eapply ends_mono; [apply nextBinary_ends|].
    intros s' Hs'. apply (consumed_progress s s1); auto. }
  destruct (isDigit (peek s1 0) || Ascii.eqb (peek s1 0) "-") eqn:Enum.
  { eapply ends_mono; [apply nextNumeric_ends; exact Enum|].
    intros s' Hs'. apply (consumed_progress s s1); auto. }
  apply fail_at_ends.
Qed.

Lemma Next_ends (s : SaxParser) : ends (Next s) (progress s).
Proof. apply Next_rec_ends. unfold remaining. lia. Qed.

Lemma measure_progress (s s' : SaxParser) :
  progress s s' ->
  (t s' = eof /\ measure s' = 0) \/ (t s' <> eof /\ measure s' < measure s).
Proof.
  intros (HI & HC & HK). unfold measure, remaining, len in *. rewrite HI.
  destruct HK as [[Ht Hl]|[(Hlt & Hin & Hf & He)|(Htag & Ht & _)]].
  - left. split; [exact Ht|]. unfold isTagPosition. rewrite Ht. simpl. lia.
  - right. split; [exact He|].
    destruct (isTagPosition s'), (isTagPosition s); lia.
  - right. split; [rewrite Ht; discriminate|].
    rewrite Htag. unfold isTagPosition. rewrite Ht. simpl. lia.
Qed.

Lemma stackAt_ends (stack : list SdlTag) (i : Z) : ends (stackAt stack i) (fun _ => True).
Proof.
  unfold stackAt. destruct (i <? 0)%Z; simpl; auto.
  destruct (stack !! Z.to_nat i); simpl; auto.
Qed.

Lemma closeTop_ends (stack : list SdlTag) : ends (closeTop stack) (fun _ => True).
Proof.
  unfold closeTop.
  eapply ends_bind; [apply stackAt_ends|]. intros parent _.
  eapply ends_bind; [apply stackAt_ends|]. intros child _. simpl. auto.
Qed.

Lemma qualify_ends (namespace name : string) :
  ends (qualify namespace name) (fun _ => True).
Proof.
  unfold qualify. eapply ends_bind; [apply index_ends|]. intros c _.
  destruct (Ascii.eqb c ":"); simpl; auto.
  eapply ends_mono; [apply slice_ends|]. auto.
Qed.

(** ** The tree builder ends *)

Section Termination.
Variable ParseFloat : string -> PrimFloat.float.

Lemma handleValue_ends (v : SdlValue) (p : SaxParser) :
  ends (handleValue ParseFloat v p) (fun _ => True).
Proof.
  unfold handleValue.
  repeat match goal with |- context [if ?b then _ else _] => destruct b end;
    simpl; auto.
Qed.

Lemma ParseIntoAst_loop_ends (fuel : nat) (p : SaxParser) (stack : list SdlTag)
    (prev : bool) :
  measure p < fuel ->
  ends (ParseIntoAst_loop ParseFloat fuel p stack prev) (fun _ => True).
Proof.
  revert p stack prev. induction fuel as [|fuel IH]; intros p stack prev Hf; [lia|].
  simpl.
  eapply ends_bind; [apply Next_ends|]. intros p1 Hp1.
  apply measure_progress in Hp1.
  destruct (IsEof p1) eqn:Eeof; [apply stackAt_ends|].
  destruct Hp1 as [[Ht _]|[_ Hlt]].
  { unfold IsEof in Eeof. rewrite Ht in Eeof. discriminate. }
  assert (Hrec : forall q st pv, measure q <= measure p1 ->
            ends (ParseIntoAst_loop ParseFloat fuel q st pv) (fun _ => True)).
  { intros q st pv Hq. apply IH. lia. }
  assert (Herr : forall q msg,
            ends (let* e := NewError q 0 msg in @Err SdlTag e) (fun _ => True)).
  { intros q msg. eapply ends_bind; [apply NewError_ends|]. simpl. auto. }
  assert (Hnext : forall k : SaxParser -> outcome SdlTag,
            (forall q, measure q <= measure p1 -> ends (k q) (fun _ => True)) ->
            ends (bind (Next p1) k) (fun _ => True)).
  { intros k Hk. eapply ends_bind; [apply Next_ends|]. intros q Hq.
    apply Hk. apply measure_progress in Hq. lia. }
  destruct (IsTagName p1).
  { destruct (negb prev); [apply Herr|].
    eapply ends_bind; [apply qualify_ends|]. intros q _. apply Hrec. lia. }
  destruct (IsAttributeName p1).
  { eapply ends_bind; [apply qualify_ends|]. intros q _.
    apply Hnext. intros p2 Hp2.
    eapply ends_bind; [apply handleValue_ends|]. intros v _.
    eapply ends_bind; [apply stackAt_ends|]. intros g _. apply Hrec. exact Hp2. }
  destruct (IsNewLine p1).
  { destruct (negb prev); [|apply Hrec; lia].
    eapply ends_bind; [apply closeTop_ends|]. intros st _. apply Hrec. lia. }
  destruct (IsOpenTag p1).
  { destruct prev; [apply Herr|].
    apply Hnext. intros p2 Hp2.
    destruct (negb (IsNewLine p2)); [apply Herr|]. apply Hrec. exact Hp2. }
  destruct (IsCloseTag p1).
  { destruct (negb prev); [apply Herr|].
    apply Hnext. intros p2 Hp2.
    destruct (_ && _); [apply Herr|].
    eapply ends_bind; [apply closeTop_ends|]. intros st _. apply Hrec. exact Hp2. }
  eapply ends_bind; [apply handleValue_ends|]. intros v _.
  eapply ends_bind; [apply stackAt_ends|]. intros g _. apply Hrec. lia.
Qed.

Lemma ParseIntoAst_ends (p : SaxParser) : ends (ParseIntoAst ParseFloat p) (fun _ => True).
Proof.
  apply ParseIntoAst_loop_ends. unfold measure, remaining.
  destruct (isTagPosition p); lia.
Qed.
End Termination.

(** ** After the end of the input *)

Lemma advanceWhile_stop (cond : SaxParser -> bool) (fuel : nat) (s : SaxParser) :
  cond s = false -> advanceWhile cond fuel s = Ok s.
Proof. intros H. destruct fuel; simpl; rewrite H; reflexivity. Qed.

Lemma isBlank_eof (s : SaxParser) : len s <= cursor s -> isBlank s = false.
Proof.
  intros H. unfold isBlank, SaxParser_eof.
  apply Nat.leb_le in H. rewrite H. reflexivity.
Qed.

Lemma Next_at_eof (s : SaxParser) : len s <= cursor s -> Next s = Ok (set_t s eof).
Proof.
  intros H. unfold Next. simpl. unfold eatWhite.
  rewrite advanceWhile_stop by (apply isBlank_eof; exact H). simpl.
  unfold SaxParser_eof. apply Nat.leb_le in H. rewrite H. reflexivity.
Qed.

Lemma set_t_same (s : SaxParser) : set_t s (t s) = s.
Proof. destruct s; reflexivity. Qed.

Lemma Next_eof_inside (s s' : SaxParser) :
  Next s = Ok s' -> IsEof s' = true -> len s' <= cursor s' /\ t s' = eof.
Proof.
  intros HN He. pose proof (Next_ends s) as H. rewrite HN in H. simpl in H.
  unfold IsEof in He. apply bool_decide_eq_true in He.
  destruct H as (HI & _ & [[_ Hl]|[(_ & _ & _ & Hne)|(_ & Ht & _)]]).
  - unfold len in *. rewrite HI. auto.
  - contradiction.
  - congruence.
Qed.




(** ** Inputs of blanks and line ends *)

Lemma suffix_nil (n : nat) (input : string) :
  suffix n input = EmptyString -> String.length input <= n.
Proof.
  revert n. induction input as [|c r IH]; intros [|n]; simpl; try lia; try discriminate.
  intros H. apply IH in H. lia.
Qed.

Lemma suffix_cons (n : nat) (input : string) (c : ascii) (r : string) :
  suffix n input = String c r ->
  n < String.length input /\ String.get n input = Some c /\ suffix (S n) input = r.
Proof.
  revert n. induction input as [|a w IH]; intros [|n]; simpl; try discriminate.
  - intros [= -> ->]. repeat split; auto. lia.
  - intros H. apply IH in H as (? & ? & ?). repeat split; auto. lia.
Qed.


Lemma rest_nil (s : SaxParser) : rest s = EmptyString -> SaxParser_eof s = true.
Proof. intros H. apply suffix_nil in H. apply Nat.leb_le. exact H. Qed.

Lemma rest_cons (s : SaxParser) (c : ascii) (r : string) :
  rest s = String c r ->
  SaxParser_eof s = false /\ peek s 0 = c /\ rest (advance s 1) = r.
Proof.
  intros H. apply suffix_cons in H as (Hlt & Hg & Hs).
  split; [apply Nat.leb_gt; exact Hlt|]. split.
  - unfold peek. rewrite Nat.add_0_r.
    assert (E : (len s <=? cursor s) = false) by (apply Nat.leb_gt; exact Hlt).
    rewrite E, Hg. reflexivity.
  - unfold rest. simpl. rewrite Nat.add_1_r. exact Hs.
Qed.

Lemma rest_cons2 (s : SaxParser) (c c' : ascii) (r : string) :
  rest s = String c (String c' r) ->
  peek s 1 = c' /\ rest (advance s 2) = r.
Proof.
  intros H. apply rest_cons in H as (_ & _ & H).
  apply rest_cons in H as (He & Hp & Hr). split.
  - unfold peek in *. simpl in *. rewrite Nat.add_0_r in Hp. exact Hp.
  - unfold rest in *. simpl in *. rewrite <- Nat.add_assoc in Hr. exact Hr.
Qed.

Lemma advanceWhile_blank (fuel : nat) (s : SaxParser) :
  isWhitespace (rest s) = true -> String.length (rest s) <= fuel ->
  exists s', advanceWhile isBlank fuel s = Ok s' /\ moved s s' /\ isBlank s' = false
             /\ isWhitespace (rest s') = true
             /\ String.length (rest s') <= String.length (rest s).
Proof.
  revert s. induction fuel as [|fuel IH]; intros s Hw Hf.
  - destruct (rest s) as [|c r] eqn:E; [|simpl in Hf; lia].
    assert (Hb : isBlank s = false).
    { unfold isBlank. rewrite (rest_nil s E). reflexivity. }
    exists s. rewrite advanceWhile_stop by exact Hb.
    split; [reflexivity|]. split; [apply moved_refl|]. split; [exact Hb|].
    rewrite E. split; [reflexivity | simpl; lia].
  - destruct (isBlank s) eqn:Eb.
    + simpl. rewrite Eb.
      destruct (rest s) as [|c r] eqn:E.
      { unfold isBlank in Eb. rewrite (rest_nil s E) in Eb. discriminate. }
      destruct (rest_cons s c r E) as (He & Hp & Hr).
      assert (Hwr : isWhitespace r = true).
      { unfold isBlank in Eb. rewrite He, Hp in Eb. simpl in Eb, Hw.
        rewrite Eb in Hw. simpl in Hw. exact Hw. }
      destruct (IH (advance s 1)) as (s' & HA & Hm & Hb & Hw' & Hl).
      { rewrite Hr. exact Hwr. }
      { rewrite Hr. simpl in Hf. lia. }
      exists s'. split; [exact HA|]. split.
      { eapply moved_trans; [apply (moved_advance s 1)|exact Hm]. }
      split; [exact Hb|]. split; [exact Hw'|]. rewrite Hr in Hl. simpl. lia.
    + exists s. rewrite advanceWhile_stop by exact Eb.
      split; [reflexivity|]. split; [apply moved_refl|]. split; [exact Eb|].
      split; [exact Hw | lia].
Qed.

Lemma length_suffix (n : nat) (input : string) :
  String.length (suffix n input) <= String.length input.
Proof.
  revert n. induction input as [|c r IH]; intros [|n]; simpl; try lia.
  specialize (IH n). lia.
Qed.

Lemma Next_blank (s : SaxParser) :
  isWhitespace (rest s) = true ->
  exists s', Next s = Ok s' /\ Input s' = Input s /\
    (t s' = eof \/
     (t s' = newLine /\ isWhitespace (rest s') = true
      /\ String.length (rest s') < String.length (rest s))).
Proof.
  intros Hw. unfold Next. simpl. unfold eatWhite.
  destruct (advanceWhile_blank (len s) s Hw) as (s1 & HA & Hm & Hb & Hw1 & Hl).
  { apply length_suffix. }
  rewrite HA. simpl. pose proof (moved_Input _ _ Hm) as HI.
  destruct (rest s1) as [|c r] eqn:E.
  { rewrite (rest_nil s1 E). exists (set_t s1 eof). simpl. auto. }
  destruct (rest_cons s1 c r E) as (He & Hp & Hr).
  rewrite He. unfold isBlank in Hb. rewrite He, Hp in Hb. simpl in Hb, Hw1.
  rewrite Hb in Hw1. simpl in Hw1.
  destruct (Ascii.eqb_spec c LF) as [->|HnLF].
  - assert (Hc : startsComment s1 = false).
    { unfold startsComment. rewrite Hp. reflexivity. }
    rewrite Hc, Hp. simpl.
    exists (set_t (advance s1 1) newLine). split; [reflexivity|]. split; [exact HI|].
    right. split; [reflexivity|]. split.
    + change (isWhitespace (rest (advance s1 1)) = true). rewrite Hr. exact Hw1.
    + change (String.length (rest (advance s1 1)) < String.length (rest s)).
      rewrite Hr. simpl in Hl. lia.
  - destruct (Ascii.eqb_spec c CR) as [->|HnCR]; [|discriminate].
    destruct r as [|c' r']; [discriminate|].
    apply andb_true_iff in Hw1 as [Hc' Hw1]. apply Ascii.eqb_eq in Hc'. subst c'.
    destruct (rest_cons2 s1 _ _ _ E) as (Hp1 & Hr2).
    assert (Hc : startsComment s1 = false).
    { unfold startsComment. rewrite Hp. reflexivity. }
    rewrite Hc, Hp, Hp1. simpl.
    exists (set_t (advance s1 2) newLine). split; [reflexivity|]. split; [exact HI|].
    right. split; [reflexivity|]. split.
    + change (isWhitespace (rest (advance s1 2)) = true). rewrite Hr2. exact Hw1.
    + change (String.length (rest (advance s1 2)) < String.length (rest s)).
      rewrite Hr2. simpl in Hl. lia.
Qed.

Section Whitespace.
Variable ParseFloat : string -> PrimFloat.float.

Lemma ParseIntoAst_loop_blank (fuel : nat) (p : SaxParser) :
  isWhitespace (rest p) = true -> String.length (rest p) < fuel ->
  ParseIntoAst_loop ParseFloat fuel p [SdlTag_zero] true = Ok SdlTag_zero.
Proof.
  revert p. induction fuel as [|fuel IH]; intros p Hw Hf; [lia|].
  destruct (Next_blank p Hw) as (p1 & HN & HI & [Ht|(Ht & Hw1 & Hl)]).
  - simpl. rewrite HN. simpl. unfold IsEof. rewrite Ht. reflexivity.
  - simpl. rewrite HN. simpl.
    unfold IsEof, IsTagName, IsAttributeName, IsNewLine. rewrite Ht. simpl.
    apply IH; [exact Hw1 | lia].
Qed.

End Whitespace.

(** ** Durations *)

Local Open Scope Z_scope.













Local Open Scope nat_scope.

Tactic Notation "bind_inv" hyp(H) "as" ident(a) ident(Ha) :=
  apply bind_Ok_inv in H as (a & Ha & H).

Lemma slice_Ok (w r : string) (a b : nat) :
  slice w a b = Ok r -> r = substring a (b - a) w.
Proof. unfold slice. destruct (_ && _); [|discriminate]. intros [= <-]. reflexivity. Qed.

Lemma fail_at_not_Ok {A : Type} (s : SaxParser) (at_ : nat) (msg : string) (a : A) :
  fail_at s at_ msg = Ok a -> False.
Proof.
  intros H. pose proof (fail_at_ends s at_ msg (fun _ : A => False)) as E.
  rewrite H in E. exact E.
Qed.


Lemma nextTimeSpan_below_not_Ok {A : Type} (s : SaxParser) (below : nat) (a : A) :
  nextTimeSpan_below s below = Ok a -> False.
Proof.
  unfold nextTimeSpan_below. intros H.
  repeat match type of H with
         | (if ?b then _ else _) = _ => destruct b
         | fail_at _ _ _ = _ => exact (fail_at_not_Ok _ _ _ _ H)
         end; try discriminate H.
Qed.

(** Backtracking over more than was scanned, which [Next] never asks for:
    the cursor goes below zero, and the call panics in [peek] or at the first
    slice, or reports a missing colon. *)
Lemma nextTimeSpan_backtracks_below_zero :
  nextTimeSpan (mkSaxParser "00:00:00" "" 1 tagName "" "" time.zero 0%Z false) "12345"
  = Panic IndexOutOfRange
  /\ nextTimeSpan (mkSaxParser "0:00:00" "" 1 tagName "" "" time.zero 0%Z false) "12"
     = Panic SliceOutOfRange
  /\ ends (nextTimeSpan (mkSaxParser "00:00:00" "" 1 tagName "" "" time.zero 0%Z false)
             "12")
       (fun _ => False)
  /\ exists s',
       nextTimeSpan (mkSaxParser "-00:00:01" "" 3 tagName "" "" time.zero 0%Z false) "-00"
       = Ok s' /\ cursor s' = 9 /\ timeSpanVal s' = (- time.Second)%Z.
Proof.
  split; [reflexivity|]. split; [reflexivity|]. split; [vm_compute; exact I|].
  eexists. split; [vm_compute; reflexivity|]. split; reflexivity.
Qed.


(** ** The bounds do not change what a call returns *)

Lemma eatWhite_Ok (s s1 : SaxParser) : eatWhite s = Ok s1 -> moved s s1.
Proof.
  intros H. pose proof (eatWhite_ends s) as E. rewrite H in E. apply E.
Qed.

Lemma skipComment_Ok (s s1 : SaxParser) :
  startsComment s = true -> SaxParser_eof s = false ->
  advanceWhile inComment (len s) s = Ok s1 ->
  moved s s1 /\ cursor s < cursor s1.
Proof.
  intros Hc He H.
  pose proof (advanceWhile_ends _ inComment_inside (len s) s (remaining_le_len s)) as E.
  rewrite H in E. destruct E as (Hm & _ & Hlt). split; [exact Hm|].
  apply Hlt. unfold inComment. rewrite He, (startsComment_not_LF _ Hc). reflexivity.
Qed.

Lemma Next_rec_fuel (f1 f2 : nat) (s : SaxParser) :
  remaining s < f1 -> remaining s < f2 -> Next_rec f1 s = Next_rec f2 s.
Proof.
  revert f2 s. induction f1 as [|f1 IH]; intros f2 s H1 H2; [lia|].
  destruct f2 as [|f2]; [lia|]. simpl.
  destruct (eatWhite s) as [s1| | |] eqn:Ew; simpl; try reflexivity.
  apply eatWhite_Ok in Ew. pose proof (moved_len _ _ Ew) as Hl.
  assert (Hc : cursor s <= cursor s1) by apply Ew.
  destruct (SaxParser_eof s1) eqn:Eeof; [reflexivity|].
  pose proof (eof_false _ Eeof) as Hlt.
  destruct (startsComment s1) eqn:Ecom.
  { destruct (advanceWhile inComment (len s1) s1) as [s2| | |] eqn:Ea; simpl;
      try reflexivity.
    destruct (skipComment_Ok _ _ Ecom Eeof Ea) as [Hm2 Hlt2].
    pose proof (moved_len _ _ Hm2) as Hl2.
    apply IH; unfold remaining in *; lia. }
  destruct (Ascii.eqb (peek s1 0) LF); [reflexivity|].
  destruct (Ascii.eqb (peek s1 0) CR); [reflexivity|].
  destruct (_ && _); [|reflexivity].
  apply IH; unfold remaining in *; simpl; unfold len in *; simpl; lia.
Qed.

Lemma Next_measure (p p' : SaxParser) :
  Next p = Ok p' ->
  measure p' <= measure p /\ (IsEof p' = false -> measure p' < measure p).
Proof.
  intros HN. pose proof (ends_inv _ _ _ (Next_ends p) HN) as Hp.
  apply measure_progress in Hp. destruct Hp as [[Ht H0]|[_ Hlt]].
  - split; [lia|]. unfold IsEof. rewrite Ht. discriminate.
  - split; [lia | intros _; exact Hlt].
Qed.

Section FuelIndependence.
Variable ParseFloat : string -> PrimFloat.float.

Lemma ParseIntoAst_loop_fuel (f1 f2 : nat) (p : SaxParser) (stack : list SdlTag)
    (prev : bool) :
  measure p < f1 -> measure p < f2 ->
  ParseIntoAst_loop ParseFloat f1 p stack prev
  = ParseIntoAst_loop ParseFloat f2 p stack prev.
Proof.
  revert f2 p stack prev. induction f1 as [|f1 IH]; intros f2 p stack prev H1 H2; [lia|].
  destruct f2 as [|f2]; [lia|]. simpl.
  destruct (Next p) as [p1| | |] eqn:HN; simpl; try reflexivity.
  destruct (Next_measure _ _ HN) as [_ Hlt].
  destruct (IsEof p1) eqn:Eeof; [reflexivity|]. specialize (Hlt eq_refl).
  assert (Hrec : forall q st pv, measure q <= measure p1 ->
            ParseIntoAst_loop ParseFloat f1 q st pv
            = ParseIntoAst_loop ParseFloat f2 q st pv).
  { intros q st pv Hq. apply IH; lia. }
  assert (Hnext : forall k1 k2 : SaxParser -> outcome SdlTag,
            (forall q, measure q <= measure p1 -> k1 q = k2 q) ->
            bind (Next p1) k1 = bind (Next p1) k2).
  { intros k1 k2 Hk. destruct (Next p1) as [q| | |] eqn:HN1; simpl; try reflexivity.
    apply Hk. destruct (Next_measure _ _ HN1) as [Hle _]. exact Hle. }
  destruct (IsTagName p1).
  { destruct (negb prev); [reflexivity|].
    destruct (qualify _ _); simpl; try reflexivity. apply Hrec. lia. }
  destruct (IsAttributeName p1).
  { destruct (qualify _ _); simpl; try reflexivity.
    apply Hnext. intros q Hq.
    destruct (handleValue _ _ _); simpl; try reflexivity.
    destruct (stackAt _ _); simpl; try reflexivity. apply Hrec. exact Hq. }
  destruct (IsNewLine p1).
  { destruct (negb prev); [|apply Hrec; lia].
    destruct (closeTop _); simpl; try reflexivity. apply Hrec. lia. }
  destruct (IsOpenTag p1).
  { destruct prev; [reflexivity|].
    apply Hnext. intros q Hq.
    destruct (negb (IsNewLine q)); [reflexivity|]. apply Hrec. exact Hq. }
  destruct (IsCloseTag p1).
  { destruct (negb prev); [reflexivity|].
    apply Hnext. intros q Hq.
    destruct (_ && _); [reflexivity|].
    destruct (closeTop _); simpl; try reflexivity. apply Hrec. exact Hq. }
  destruct (handleValue _ _ _); simpl; try reflexivity.
  destruct (stackAt _ _); simpl; try reflexivity. apply Hrec. lia.
Qed.

End FuelIndependence.

(** ** The bottom of the stack keeps no name *)

Lemma yields_bind {A B : Type} (m : outcome A) (k : A -> outcome B)
    (Q : A -> Prop) (P : B -> Prop) :
  yields m Q -> (forall a, Q a -> yields (k a) P) -> yields (bind m k) P.
Proof. destruct m; simpl; auto. Qed.

Lemma yields_True {A : Type} (r : outcome A) : yields r (fun _ => True).
Proof. destruct r; simpl; auto. Qed.

Lemma stackAt_Ok (stack : list SdlTag) (i : Z) (g : SdlTag) :
  stackAt stack i = Ok g -> (0 <= i)%Z /\ stack !! Z.to_nat i = Some g.
Proof.
  unfold stackAt. destruct (i <? 0)%Z eqn:E; [discriminate|].
  apply Z.ltb_ge in E. destruct (stack !! Z.to_nat i); [|discriminate].
  intros [= <-]. auto.
Qed.

Lemma stackAt_yields (stack : list SdlTag) (i : Z) :
  yields (stackAt stack i) (fun g => (0 <= i)%Z /\ stack !! Z.to_nat i = Some g).
Proof. destruct (stackAt stack i) eqn:E; simpl; auto. apply stackAt_Ok. exact E. Qed.

Lemma rooted_push (stack : list SdlTag) (g : SdlTag) : rooted stack -> rooted (stack ++ [g]).
Proof.
  intros (r & Hr & Hn). exists r. split; [|exact Hn].
  rewrite lookup_app_l; [exact Hr|]. apply lookup_lt_Some in Hr. exact Hr.
Qed.

Lemma rooted_update (stack : list SdlTag) (i : nat) (g g' : SdlTag) :
  rooted stack -> stack !! i = Some g ->
  Name g' = Name g -> Namespace g' = Namespace g ->
  rooted (<[i := g']> stack).
Proof.
  intros (r & Hr & Hn & Hs) Hg HN HS. destruct i as [|i].
  - exists g'. split.
    + apply list_lookup_insert_eq. apply lookup_lt_Some in Hr. exact Hr.
    + assert (g = r) by congruence. subst g. split; congruence.
  - exists r. split; [|auto]. rewrite list_lookup_insert_ne by lia. exact Hr.
Qed.

Lemma closeTop_rooted (stack : list SdlTag) :
  rooted stack -> yields (closeTop stack) rooted.
Proof.
  intros Hroot. unfold closeTop.
  eapply yields_bind; [apply stackAt_yields|]. intros parent [Hi Hp].
  eapply yields_bind; [apply stackAt_yields|]. intros child _. simpl.
  assert (Hu : rooted (<[Z.to_nat (Z.of_nat (length stack) - 2) :=
                         set_Children parent (Children parent ++ [child])]> stack)).
  { eapply rooted_update; eauto. }
  destruct Hu as (r & Hr & Hn). exists r. split; [|exact Hn].
  rewrite lookup_take_lt by lia. exact Hr.
Qed.

Section RootInvariant.
Variable ParseFloat : string -> PrimFloat.float.

Lemma ParseIntoAst_loop_rooted (fuel : nat) (p : SaxParser) (stack : list SdlTag)
    (prev : bool) :
  rooted stack ->
  yields (ParseIntoAst_loop ParseFloat fuel p stack prev)
    (fun root => Name root = "" /\ Namespace root = "").
Proof.
  revert p stack prev. induction fuel as [|fuel IH]; intros p stack prev Hroot;
    [exact I|].
  simpl. eapply yields_bind; [apply yields_True|]. intros p1 _.
  assert (Herr : forall q msg,
            yields (let* e := NewError q 0 msg in @Err SdlTag e)
              (fun root => Name root = "" /\ Namespace root = "")).
  { intros q msg. destruct (NewError q 0 msg); simpl; auto. }
  assert (Htop : forall (f : SdlTag -> SdlTag) q pv,
            (forall g, Name (f g) = Name g /\ Namespace (f g) = Namespace g) ->
            yields
              (let* g := stackAt stack (Z.of_nat (length stack) - 1) in
               ParseIntoAst_loop ParseFloat fuel q
                 (<[Z.to_nat (Z.of_nat (length stack) - 1) := f g]> stack) pv)
              (fun root => Name root = "" /\ Namespace root = "")).
  { intros f q pv Hf. eapply yields_bind; [apply stackAt_yields|].
    intros g [_ Hg]. apply IH. destruct (Hf g). eapply rooted_update; eauto. }
  destruct (IsEof p1).
  { destruct (stackAt stack 0) as [root| | |] eqn:E; simpl; auto.
    apply stackAt_Ok in E as [_ E]. change (Z.to_nat 0) with 0 in E.
    destruct Hroot as (r & Hr & Hn). assert (root = r) by congruence. subst. exact Hn. }
  destruct (IsTagName p1).
  { destruct (negb prev); [apply Herr|].
    eapply yields_bind; [apply yields_True|]. intros q _.
    apply IH. apply rooted_push. exact Hroot. }
  destruct (IsAttributeName p1).
  { eapply yields_bind; [apply yields_True|]. intros q _.
    eapply yields_bind; [apply yields_True|]. intros p2 _.
    eapply yields_bind; [apply yields_True|]. intros v _.
    apply (Htop (fun g => set_Attributes g
             (<[q := mkSdlAttribute (AdditionalText p1) (Text p1) q v]> (Attributes g)))).
    intros g. split; reflexivity. }
  destruct (IsNewLine p1).
  { destruct (negb prev); [|apply IH; exact Hroot].
    eapply yields_bind; [apply closeTop_rooted; exact Hroot|]. intros st Hst.
    apply IH. exact Hst. }
  destruct (IsOpenTag p1).
  { destruct prev; [apply Herr|].
    eapply yields_bind; [apply yields_True|]. intros p2 _.
    destruct (negb (IsNewLine p2)); [apply Herr|]. apply IH. exact Hroot. }
  destruct (IsCloseTag p1).
  { destruct (negb prev); [apply Herr|].
    eapply yields_bind; [apply yields_True|]. intros p2 _.
    destruct (_ && _); [apply Herr|].
    eapply yields_bind; [apply closeTop_rooted; exact Hroot|]. intros st Hst.
    apply IH. exact Hst. }
  eapply yields_bind; [apply yields_True|]. intros v _.
  apply (Htop (fun g => set_Values g (Values g ++ [v]))).
  intros g. split; reflexivity.
Qed.

Lemma ParseIntoAst_root_is_nameless (p : SaxParser) (root : SdlTag) :
  ParseIntoAst ParseFloat p = Ok root -> Name root = "" /\ Namespace root = "".
Proof.
  intros H. pose proof (ParseIntoAst_loop_rooted (2 * len p + 2) p [SdlTag_zero] true) as Y.
  unfold ParseIntoAst in H. rewrite H in Y. apply Y.
  exists SdlTag_zero. repeat split.
Qed.

End RootInvariant.

(** * The claims *)

(** ** The value accessors *)

(** C1 (the code departs from it): [Float()] is guarded by [IsString()], not
    by [IsFloat()].  On every Float64 value it returns 0 and the error, on
    every String value it returns the zero float payload and no error, and in
    general it succeeds exactly when the value is a String.  The accessors
    beside it test their own variant. *)
Theorem SdlValue_Float_tests_the_string_tag :
  (forall x, SdlValue_Float (Float x)
             = (PrimFloat.zero, Some (errors_New "this value is not a float")))
  /\ (forall w, SdlValue_Float (String_ w) = (PrimFloat.zero, None))
  /\ (forall v, snd (SdlValue_Float v) = None <-> SdlValue_IsString v = true)
  /\ (forall v, snd (SdlValue_Int v) = None <-> SdlValue_IsInt v = true).
Proof.
  split; [reflexivity|]. split; [reflexivity|]. split.
  - intros v. unfold SdlValue_Float. destruct (SdlValue_IsString v); simpl;
      split; congruence.
  - intros v. unfold SdlValue_Int. destruct (SdlValue_IsInt v); simpl;
      split; congruence.
Qed.

(** ** The tokenizer *)

(** C10: once [Next] has reported the end of the input, any number of
    further calls return without error and leave the parser as it is, so
    [IsEof] stays true. *)
Theorem eof_is_idempotent (s s' : SaxParser) (n : nat) :
  Next s = Ok s' -> IsEof s' = true ->
  Next_n n s' = Ok s' /\ Next s' = Ok s' /\ IsEof s' = true.
Proof.
  intros HN He. destruct (Next_eof_inside s s' HN He) as [Hl Ht].
  assert (HN' : Next s' = Ok s').
  { rewrite (Next_at_eof s' Hl). rewrite <- Ht. rewrite set_t_same. reflexivity. }
  split; [|split; assumption].
  induction n as [|n IH]; simpl; [reflexivity|]. rewrite HN'. simpl. exact IH.
Qed.

Lemma eof_is_idempotent_witness :
  let s' := mkSaxParser " " "f.sdl" 1 eof "" "" time.zero 0%Z false in
  Next (newSaxParser " " "f.sdl") = Ok s' /\ IsEof s' = true /\ Next_n 3 s' = Ok s'.
Proof.
  split; [reflexivity|]. split; [reflexivity|].
  apply (eof_is_idempotent (newSaxParser " " "f.sdl") _ 3); reflexivity.
Defined.




(** ** The tree builder *)

Section TreeBuilderClaims.

Variable ParseFloat : string -> PrimFloat.float.

(** C7 (amended): a parse ends, within bounds given by the length of the
    input.  A call of [Next] nests at most once per remaining character, and
    a larger bound returns the same.  When it returns, it has reported the
    end of the input, or moved the cursor forward (also after the
    backtracking of a duration), or, at the start of a line, emitted the
    synthesized [content] tag name without moving the cursor; unless the end
    was reported the measure [2 * remaining + (1 at the start of a line)]
    went down, so the [content] branch is never taken twice in a row.  The
    loop of [ParseIntoAst] therefore ends within [2 * len + 2] iterations,
    with a tag, an error or a panic, and a larger bound returns the same. *)
Theorem parse_terminates (p : SaxParser) :
  (forall fuel, remaining p < fuel ->
      in_fuel (Next_rec fuel p) = true /\ Next_rec fuel p = Next p)
  /\ (forall p', Next p = Ok p' ->
        Input p' = Input p
        /\ (IsEof p' = true
            \/ cursor p < cursor p'
            \/ (isTagPosition p = true /\ IsTagName p' = true
                /\ Text p' = "content" /\ cursor p <= cursor p'))
        /\ (IsEof p' = false -> measure p' < measure p))
  /\ (forall fuel stack prev, measure p < fuel ->
        in_fuel (ParseIntoAst_loop ParseFloat fuel p stack prev) = true)
  /\ (forall fuel, 2 * len p + 2 <= fuel ->
        ParseIntoAst_loop ParseFloat fuel p [SdlTag_zero] true
        = ParseIntoAst ParseFloat p)
  /\ in_fuel (ParseIntoAst ParseFloat p) = true.
Proof using Type.
  assert (Hmu : measure p < 2 * len p + 2).
  { unfold measure, remaining. destruct (isTagPosition p); lia. }
  split; [|split; [|split; [|split]]].
  - intros fuel Hf. split.
    + eapply ends_in_fuel. apply Next_rec_ends. exact Hf.
    + apply Next_rec_fuel; [exact Hf|]. unfold remaining. lia.
  - intros p' HN. pose proof (ends_inv _ _ _ (Next_ends p) HN) as Hp.
    pose proof (measure_progress _ _ Hp) as Hm.
    destruct Hp as (HI & HC & HK). split; [exact HI|]. split.
    + destruct HK as [[Ht _]|[(Hlt & _)|(Htag & Ht & Htxt)]].
      * left. unfold IsEof. rewrite Ht. reflexivity.
      * right. left. exact Hlt.
      * right. right. unfold IsTagName, Text. rewrite Ht. auto.
    + intros He. destruct Hm as [[Ht _]|[_ Hlt]]; [|exact Hlt].
      unfold IsEof in He. rewrite Ht in He. discriminate.
  - intros fuel stack prev Hf. eapply ends_in_fuel.
    apply ParseIntoAst_loop_ends. exact Hf.
  - intros fuel Hf. unfold ParseIntoAst. apply ParseIntoAst_loop_fuel; lia.
  - eapply ends_in_fuel. apply ParseIntoAst_ends.
Qed.

(** C9: an input made only of whitespace, that is of spaces and tabs, the
    empty input included, parses to the root with no name, no children, no
    values and no attributes; so does an input in which line ends (a line
    feed, or a carriage return followed by a line feed) are mixed with
    them. *)
Theorem whitespace_parses_to_empty_root (input name : string) :
  isWhitespace input = true ->
  exists root, ParseIntoAst ParseFloat (newSaxParser input name) = Ok root
    /\ Name root = "" /\ Namespace root = ""
    /\ Children root = [] /\ Values root = [] /\ Attributes root = ∅.
Proof using Type.
  intros Hw. exists SdlTag_zero. split; [|repeat split].
  unfold ParseIntoAst. apply ParseIntoAst_loop_blank.
  - exact Hw.
  - unfold rest, len. simpl. lia.
Qed.

(** C2 (the code departs from it): a bare [true] is lexed as a Bool, not as
    a tag name, so it is appended to the values of the only tag on the
    stack, the root; an attribute after it lands on the root as well.  What
    does hold for every parse that returns is that the root has no name and
    no namespace. *)
Theorem bare_literal_lands_on_root (name : string) :
  ParseIntoAst ParseFloat (newSaxParser "true" name)
  = Ok (set_Values SdlTag_zero [Bool true])
  /\ ParseIntoAst ParseFloat (newSaxParser "null" name)
     = Ok (set_Values SdlTag_zero [Null])
  /\ (exists root, ParseIntoAst ParseFloat (newSaxParser "true a=1" name) = Ok root
        /\ Values root = [Bool true]
        /\ Attributes root = {[ "a" := mkSdlAttribute "" "a" "a" (Int 1) ]})
  /\ (forall p root, ParseIntoAst ParseFloat p = Ok root ->
        Name root = "" /\ Namespace root = "").
Proof using Type.
  split; [vm_compute; reflexivity|]. split; [vm_compute; reflexivity|]. split.
  - eexists. split; [vm_compute; reflexivity|]. split; vm_compute; reflexivity.
  - apply ParseIntoAst_root_is_nameless.
Qed.

(** C5 (the code departs from it): a lone close brace, and a bare keyword
    followed by a line end, make [ParseIntoAst] index the stack at [-1]:
    the call panics instead of returning a tag or an error.  So does every
    close brace that is met, on a line of its own, while the root is the only
    tag on the stack.  The call also panics away from the stack: in
    [handleValue] when an attribute name is followed by no value, in
    [nextTimeSpan] when the seconds field is cut short by the end of the
    input, and in [getLine] when an error is reported past the end of the
    input. *)
Theorem lone_close_brace_panics (name : string) :
  ParseIntoAst ParseFloat (newSaxParser "}" name) = Panic IndexOutOfRange
  /\ ParseIntoAst ParseFloat (newSaxParser ("}" ++ str1 LF) name) = Panic IndexOutOfRange
  /\ ParseIntoAst ParseFloat (newSaxParser ("true" ++ str1 LF) name)
     = Panic IndexOutOfRange
  /\ (forall fuel p p1 p2 root,
        Next p = Ok p1 -> IsCloseTag p1 = true ->
        Next p1 = Ok p2 -> IsNewLine p2 || IsEof p2 = true ->
        ParseIntoAst_loop ParseFloat (S fuel) p [root] true = Panic IndexOutOfRange)
  /\ ParseIntoAst ParseFloat (newSaxParser "t a=" name)
     = Panic (ExplicitPanic "bug: this error should've been caught earlier on")
  /\ ParseIntoAst ParseFloat (newSaxParser "t 00:00:0" name) = Panic SliceOutOfRange
  /\ ParseIntoAst ParseFloat (newSaxParser "t 1d:" name) = Panic IndexOutOfRange.
Proof using Type.
  split; [vm_compute; reflexivity|]. split; [vm_compute; reflexivity|].
  split; [vm_compute; reflexivity|].
  split; [|repeat split; vm_compute; reflexivity].
  intros fuel p p1 p2 root H1 Hc H2 Hnl. simpl. rewrite H1. simpl.
  unfold IsCloseTag in Hc. apply bool_decide_eq_true in Hc.
  unfold IsEof, IsTagName, IsAttributeName, IsNewLine, IsOpenTag, IsCloseTag.
  rewrite Hc. simpl. rewrite H2. simpl.
  apply orb_true_iff in Hnl. unfold IsNewLine, IsEof in Hnl.
  destruct Hnl as [E|E]; rewrite E; simpl; rewrite ?andb_false_r; reflexivity.
Qed.

(** C6 (the code departs from it): at the end of the input [ParseIntoAst]
    returns the bottom of the stack whatever lies above it.  The block
    [a {] with the child [b 1] and no closing brace parses, without error,
    to a root with no children; so does a last line [a] that no line end
    follows.  With the closing brace the same block is in the tree. *)
Theorem unclosed_block_is_dropped (name : string) :
  ParseIntoAst ParseFloat (newSaxParser ("a {" ++ str1 LF ++ "b 1" ++ str1 LF) name)
  = Ok SdlTag_zero
  /\ ParseIntoAst ParseFloat (newSaxParser "a" name) = Ok SdlTag_zero
  /\ ParseIntoAst ParseFloat
       (newSaxParser ("a {" ++ str1 LF ++ "b 1" ++ str1 LF ++ "}") name)
     = Ok (set_Children SdlTag_zero
             [mkSdlTag "" "a" "a" [mkSdlTag "" "b" "b" [] ∅ [Int 1]] ∅ []])
  /\ (forall fuel p p' root above prev,
        Next p = Ok p' -> IsEof p' = true ->
        ParseIntoAst_loop ParseFloat (S fuel) p (root :: above) prev = Ok root).
Proof using Type.
  split; [vm_compute; reflexivity|]. split; [vm_compute; reflexivity|].
  split; [vm_compute; reflexivity|].
  intros fuel p p' root above prev HN He. simpl. rewrite HN. simpl. rewrite He.
  reflexivity.
Qed.

(** C4 (the code departs from it): [handleValue] hands the decoder the
    value's own [vBinary], which has length 0, so no byte is stored: the
    Binary value of every binary token is empty.  [t [YWJj]] yields an empty
    Binary although the text decodes to the three bytes of [abc]. *)
Theorem binary_value_is_always_empty (name : string) :
  (forall p, handleValue ParseFloat SdlValue_zero (set_t p binary) = Ok (Binary []))
  /\ Next_n 2 (newSaxParser "t [YWJj]" name)
     = Ok (mkSaxParser "t [YWJj]" name 8 binary "YWJj" "" time.zero 0%Z false)
  /\ ParseIntoAst ParseFloat (newSaxParser ("t [YWJj]" ++ str1 LF) name)
     = Ok (set_Children SdlTag_zero [mkSdlTag "" "t" "t" [] ∅ [Binary []]])
  /\ base64.decode "YWJj" = [Byte.x61; Byte.x62; Byte.x63].
Proof using Type.
  split.
  - intros p. unfold handleValue, SaxParser_IsBinary, base64.Read. simpl.
    rewrite drop_nil. reflexivity.
  - repeat split; vm_compute; reflexivity.
Qed.

End TreeBuilderClaims.

(** C3 (the code departs from it): the three digits after the seconds of a
    DateTime are handed to [time.Date] as nanoseconds.  The literal
    [1111/12/01 11:22:33.456] is the instant 11:22:33 plus 456 nanoseconds,
    which is 455999544 nanoseconds before 11:22:33 plus 456 milliseconds.
    The same three digits of a duration are multiplied by a millisecond. *)
Theorem datetime_fraction_is_nanoseconds :
  exists p, Next_n 2 (newSaxParser "t 1111/12/01 11:22:33.456" "") = Ok p
    /\ SaxParser_IsDateTime p = true
    /\ Time p = time.Date 1111 12 1 11 22 33 456
    /\ (time.Date 1111 12 1 11 22 33 (456 * time.Millisecond) - Time p = 455999544)%Z
    /\ exists q, Next_n 2 (newSaxParser "t 11:22:33.456" "") = Ok q
         /\ SaxParser_TimeSpan q
            = (11 * time.Hour + 22 * time.Minute + 33 * time.Second
               + 456 * time.Millisecond)%Z.
Proof.
  eexists. split; [vm_compute; reflexivity|].
  split; [reflexivity|]. split; [vm_compute; reflexivity|].
  split; [vm_compute; reflexivity|].
  eexists. split; vm_compute; reflexivity.
Qed.

(** ** The claims at concrete inputs *)

Lemma parse_terminates_witness :
  exists p1 p2,
    Next (newSaxParser "-00:02:30" "f.sdl") = Ok p1
    /\ Next p1 = Ok p2
    /\ measure p1 < measure (newSaxParser "-00:02:30" "f.sdl")
    /\ measure p2 < measure p1
    /\ in_fuel (ParseIntoAst (fun _ => PrimFloat.zero) (newSaxParser "-00:02:30" "f.sdl"))
       = true.
Proof.
  eexists. eexists.
  split; [vm_compute; reflexivity|]. split; [vm_compute; reflexivity|].
  split; [|split].
  - refine (proj2 (proj2 (proj1 (proj2
      (parse_terminates (fun _ => PrimFloat.zero) (newSaxParser "-00:02:30" "f.sdl")))
      _ _)) _); reflexivity.
  - refine (proj2 (proj2 (proj1 (proj2
      (parse_terminates (fun _ => PrimFloat.zero)
         (mkSaxParser "-00:02:30" "f.sdl" 0 tagName "content" "" time.zero 0%Z false)))
      _ _)) _); reflexivity.
  - exact (proj2 (proj2 (proj2 (proj2
      (parse_terminates (fun _ => PrimFloat.zero) (newSaxParser "-00:02:30" "f.sdl")))))).
Defined.

(** C7, the claim as stated fails: on the input [1] the first call of [Next]
    returns the synthesized [content] tag name with the cursor where it was,
    and not at the end of the input; the loop of [ParseIntoAst] then needs
    three iterations for this input of length one. *)
Lemma content_branch_consumes_nothing :
  exists p',
    Next (newSaxParser "1" "f.sdl") = Ok p'
    /\ cursor p' = cursor (newSaxParser "1" "f.sdl")
    /\ IsEof p' = false /\ IsTagName p' = true /\ Text p' = "content"
    /\ len p' = 1
    /\ ParseIntoAst_loop (fun _ => PrimFloat.zero) 2 (newSaxParser "1" "f.sdl")
         [SdlTag_zero] true = OutOfFuel
    /\ in_fuel (ParseIntoAst_loop (fun _ => PrimFloat.zero) 3 (newSaxParser "1" "f.sdl")
                  [SdlTag_zero] true) = true.
Proof. eexists. split; [vm_compute; reflexivity|]. repeat split. Qed.

Lemma whitespace_parses_to_empty_root_witness :
  isWhitespace (" " ++ str1 TAB ++ str1 CR ++ str1 LF ++ str1 LF ++ " ") = true
  /\ exists root,
       ParseIntoAst (fun _ => PrimFloat.zero)
         (newSaxParser (" " ++ str1 TAB ++ str1 CR ++ str1 LF ++ str1 LF ++ " ") "f.sdl")
       = Ok root
       /\ Name root = "" /\ Namespace root = ""
       /\ Children root = [] /\ Values root = [] /\ Attributes root = ∅.
Proof.
  split; [reflexivity|].
  apply (whitespace_parses_to_empty_root (fun _ => PrimFloat.zero) _ "f.sdl").
  reflexivity.
Defined.

(** * Further properties *)


Lemma yields_mono {A : Type} (r : outcome A) (P Q : A -> Prop) :
  yields r P -> (forall a, P a -> Q a) -> yields r Q.
Proof. destruct r; simpl; auto. Qed.

Lemma yields_inv {A : Type} (r : outcome A) (P : A -> Prop) (a : A) :
  yields r P -> r = Ok a -> P a.
Proof. intros H ->. exact H. Qed.

Lemma fail_at_yields {A : Type} (s : SaxParser) (at_ : nat) (msg : string) (P : A -> Prop) :
  yields (fail_at s at_ msg) P.
Proof.
  destruct (fail_at s at_ msg) eqn:E; simpl; auto.
  exfalso. eapply fail_at_not_Ok; eauto.
Qed.

Lemma fail_unterminated_yields {A : Type} (s : SaxParser) (d : nat) (m1 m2 : string)
    (P : A -> Prop) :
  yields (fail_unterminated s d m1 m2) P.
Proof.
  pose proof (fail_unterminated_ends s d m1 m2 (fun _ : A => False)) as E.
  destruct (fail_unterminated s d m1 m2); simpl in *; auto. contradiction.
Qed.

Lemma moved_inside (s s' : SaxParser) : moved s s' -> inside s' -> cursor s' <= len s.
Proof. intros Hm Hi. rewrite <- (moved_len _ _ Hm). exact Hi. Qed.

Lemma advanceWhile_yields (cond : SaxParser -> bool) (fuel : nat) (s : SaxParser) :
  (forall x, cond x = true -> cursor x < len x) -> inside s ->
  yields (advanceWhile cond fuel s)
    (fun s' => moved s s' /\ inside s' /\ cond s' = false
               /\ (cond s = true -> cursor s < cursor s')).
Proof.
  intros Hc. revert s. induction fuel as [|fuel IH]; intros s Hi; simpl.
  - destruct (cond s) eqn:E; simpl; auto. split; [apply moved_refl|].
    repeat split; auto. discriminate.
  - destruct (cond s) eqn:E; simpl.
    + eapply yields_mono.
      * apply IH. apply Hc in E. unfold inside, len in *. simpl. lia.
      * intros s' (Hm & Hi' & Hc' & _). split; [|split; [auto|split; [auto|]]].
        -- eapply moved_trans; [apply (moved_advance s 1)|exact Hm].
        -- intros _. destruct Hm as [_ Hm]. simpl in Hm. lia.
    + split; [apply moved_refl|]. repeat split; auto. discriminate.
Qed.

Lemma scans_refl (s : SaxParser) : scans s s.
Proof. destruct s; reflexivity. Qed.

Lemma scans_trans (s1 s2 s3 : SaxParser) : scans s1 s2 -> scans s2 s3 -> scans s1 s3.
Proof. unfold scans. intros H1 H2. rewrite H2 at 1. rewrite H1. reflexivity. Qed.

Lemma moved_scans (s s' : SaxParser) : moved s s' -> scans s s'.
Proof. unfold scans. intros [H _]. rewrite H. destruct s; reflexivity. Qed.

Lemma scans_advance (s : SaxParser) (n : nat) : scans s (advance s n).
Proof. destruct s; reflexivity. Qed.

Lemma scans_len (s s' : SaxParser) : scans s s' -> len s' = len s.
Proof. intros ->. reflexivity. Qed.

Lemma peek_char (s : SaxParser) (k : nat) (c : ascii) :
  Ascii.eqb (peek s k) c = true -> c <> byte_ff -> cursor s + k < len s.
Proof.
  intros E Hc. apply Ascii.eqb_eq in E. apply peek_lt. rewrite E. exact Hc.
Qed.

Ltac not_ff := let E := fresh in intros E; vm_compute in E; discriminate E.

Lemma peek_char0 (s : SaxParser) (c : ascii) :
  Ascii.eqb (peek s 0) c = true -> c <> byte_ff -> cursor s < len s.
Proof. intros E Hc. pose proof (peek_char s 0 c E Hc). lia. Qed.

Lemma doubleQuoted_loop_scans (fuel debugStart : nat) (s : SaxParser) (text_ : string)
    (start : nat) :
  yields (doubleQuoted_loop fuel debugStart s text_ start)
    (fun s' => scans s s' /\ inside s' /\ cursor s < cursor s').
Proof.
  revert s text_ start. induction fuel as [|fuel IH]; intros s text_ start; simpl.
  - destruct (SaxParser_eof s); simpl; [apply fail_unterminated_yields | exact I].
  - destruct (SaxParser_eof s) eqn:E; simpl; [apply fail_unterminated_yields|].
    apply eof_false in E.
    destruct (Ascii.eqb (peek s 0) "\") eqn:Eb.
    + eapply yields_bind; [apply yields_True|]. intros seg _.
      eapply yields_bind with
        (Q := fun st => scans s (fst st) /\ inside (fst st) /\ cursor s < cursor (fst st)).
      { assert (Hone : forall c x, Ascii.eqb (peek (advance s 1) 0) c = true ->
                  c <> byte_ff ->
                  yields (Ok (advance (advance s 1) 1, x) : outcome (SaxParser * string))
                    (fun st => scans s (fst st) /\ inside (fst st)
                               /\ cursor s < cursor (fst st))).
        { intros c x Hc Hn. pose proof (peek_char0 _ _ Hc Hn) as Hlt. simpl in *.
          split; [destruct s; reflexivity|]. unfold inside, len in *. simpl in *.
          split; lia. }
        destruct (Ascii.eqb (peek (advance s 1) 0) "n") eqn:E1; [eapply Hone; eauto; not_ff|].
        destruct (Ascii.eqb (peek (advance s 1) 0) "t") eqn:E2; [eapply Hone; eauto; not_ff|].
        destruct (Ascii.eqb (peek (advance s 1) 0) "r") eqn:E3; [eapply Hone; eauto; not_ff|].
        destruct (Ascii.eqb (peek (advance s 1) 0) DQUOTE) eqn:E4;
          [eapply Hone; eauto; not_ff|].
        destruct (Ascii.eqb (peek (advance s 1) 0) "\") eqn:E5; [eapply Hone; eauto; not_ff|].
        destruct (Ascii.eqb (peek (advance s 1) 0) LF) eqn:E6; [|apply fail_at_yields].
        assert (Hlt : cursor (advance s 1) < len (advance s 1)).
        { eapply peek_char0; [exact E6 | not_ff]. }
        eapply yields_bind.
        { apply (advanceWhile_yields _ _ _ isSpaceOrTab_inside).
          unfold inside, len in *. simpl in *. lia. }
        intros s2 (Hm & Hi & _ & _). simpl.
        split; [|split; [exact Hi|]].
        - eapply scans_trans; [apply (scans_advance s 2)|].
          apply moved_scans. replace (advance s 2) with (advance (advance s 1) 1); [exact Hm|].
          destruct s; unfold advance; simpl; f_equal; lia.
        - destruct Hm as [_ Hm]. simpl in Hm. lia. }
      intros [s2 text2] (Hs & Hi & Hc). simpl in *.
      eapply yields_mono; [apply IH|].
      intros s' (Hs' & Hi' & Hc'). split; [eapply scans_trans; eauto|]. split; [auto | lia].
    + destruct (Ascii.eqb (peek s 0) DQUOTE).
      * eapply yields_bind; [apply yields_True|]. intros seg _. simpl.
        split; [destruct s; reflexivity|]. unfold inside, len in *. simpl. split; lia.
      * destruct (Ascii.eqb (peek s 0) LF); [apply fail_unterminated_yields|].
        eapply yields_mono; [apply IH|].
        intros s' (Hs' & Hi' & Hc'). split.
        { eapply scans_trans; [apply (scans_advance s 1)|exact Hs']. }
        split; [auto | simpl in Hc'; lia].
Qed.

Lemma backtick_loop_scans (fuel debugStart : nat) (s : SaxParser) (start : nat) :
  yields (backtick_loop fuel debugStart s start)
    (fun s' => scans s s' /\ inside s' /\ cursor s < cursor s').
Proof.
  revert s start. induction fuel as [|fuel IH]; intros s start; simpl.
  - destruct (SaxParser_eof s); simpl; [apply fail_unterminated_yields | exact I].
  - destruct (SaxParser_eof s) eqn:E; simpl; [apply fail_unterminated_yields|].
    apply eof_false in E.
    destruct (Ascii.eqb (peek s 0) "`").
    + eapply yields_bind; [apply yields_True|]. intros seg _. simpl.
      split; [destruct s; reflexivity|]. unfold inside, len in *. simpl. split; lia.
    + destruct (Ascii.eqb (peek s 0) CR); [apply fail_at_yields|].
      eapply yields_mono; [apply IH|].
      intros s' (Hs' & Hi' & Hc'). split.
      { eapply scans_trans; [apply (scans_advance s 1)|exact Hs']. }
      split; [auto | simpl in Hc'; lia].
Qed.

Lemma binary_loop_scans (fuel debugStart : nat) (s : SaxParser) (text_ : string) :
  yields (binary_loop fuel debugStart s text_)
    (fun s' => scans s s' /\ inside s' /\ cursor s < cursor s').
Proof.
  revert s text_. induction fuel as [|fuel IH]; intros s text_; simpl.
  - destruct (SaxParser_eof s); simpl; [apply fail_unterminated_yields | exact I].
  - destruct (SaxParser_eof s) eqn:E; simpl; [apply fail_unterminated_yields|].
    apply eof_false in E.
    assert (Hstep : forall x,
      yields (binary_loop fuel debugStart (advance s 1) x)
        (fun s' => scans s s' /\ inside s' /\ cursor s < cursor s')).
    { intros x. eapply yields_mono; [apply IH|].
      intros s' (Hs' & Hi' & Hc'). split.
      { eapply scans_trans; [apply (scans_advance s 1)|exact Hs']. }
      split; [auto | simpl in Hc'; lia]. }
    destruct (Ascii.eqb (peek s 0) "]").
    + simpl. split; [destruct s; reflexivity|]. unfold inside, len in *. simpl. split; lia.
    + destruct (_ || _); apply Hstep.
Qed.

(** *** Substrings *)

Lemma substring_0_all (w : string) : substring 0 (String.length w) w = w.
Proof. induction w as [|c w IH]; simpl; [reflexivity | rewrite IH; reflexivity]. Qed.

Lemma substring_get (a : nat) (s : string) (c : ascii) :
  String.get a s = Some c -> substring a 1 s = String c EmptyString.
Proof.
  revert a. induction s as [|x s IH]; intros [|a]; simpl; try discriminate.
  - intros [= ->]. destruct s; reflexivity.
  - apply IH.
Qed.

Lemma substring_head (a m : nat) (s : string) (c : ascii) :
  String.get a s = Some c -> exists r, substring a (S m) s = String c r.
Proof.
  revert a. induction s as [|x s IH]; intros [|a]; simpl; try discriminate.
  - intros [= ->]. eauto.
  - apply IH.
Qed.

Lemma substring_split (a n m : nat) (s : string) :
  a + n + m <= String.length s ->
  substring a (n + m) s = substring a n s ++ substring (a + n) m s.
Proof.
  revert a n. induction s as [|x s IH]; intros a n H.
  - simpl in H. assert (a = 0) by lia. assert (n = 0) by lia. assert (m = 0) by lia.
    subst. reflexivity.
  - destruct a as [|a].
    + destruct n as [|n]; [reflexivity|].
      simpl. rewrite (IH 0 n) by (simpl in H; lia). reflexivity.
    + simpl. apply IH. simpl in H. lia.
Qed.

Lemma peek_get (s : SaxParser) (k : nat) (c : ascii) :
  peek s k = c -> c <> byte_ff -> String.get (cursor s + k) (Input s) = Some c.
Proof.
  intros E Hc. unfold peek in E. destruct (len s <=? cursor s + k); [congruence|].
  destruct (String.get (cursor s + k) (Input s)); simpl in E; congruence.
Qed.

Lemma isIdentifierStart_not_ff (c : ascii) : isIdentifierStart c = true -> c <> byte_ff.
Proof. intros H ->. vm_compute in H. discriminate. Qed.

Lemma isIdentifierStart_not_colon (c : ascii) : isIdentifierStart c = true -> c <> ":"%char.
Proof. intros H ->. vm_compute in H. discriminate. Qed.

Lemma qualify_plain (name : string) : qualify "" name = Ok name.
Proof.
  unfold qualify. change ("" ++ ":" ++ name) with (String ":"%char name).
  unfold index, slice. simpl. rewrite Nat.leb_refl. simpl.
  rewrite Nat.sub_0_r, substring_0_all. reflexivity.
Qed.

Lemma qualify_namespace (namespace name : string) (c : ascii) (r : string) :
  namespace = String c r -> c <> ":"%char ->
  qualify namespace name = Ok (namespace ++ ":" ++ name).
Proof.
  intros -> Hc. unfold qualify.
  change (String c r ++ ":" ++ name) with (String c (r ++ ":" ++ name)).
  unfold index. simpl.
  destruct (Ascii.eqb_spec c ":") as [e|ne]; [contradiction | reflexivity].
Qed.

Lemma slice_inside (w : string) (a b : nat) :
  a <= b -> b <= String.length w -> slice w a b = Ok (substring a (b - a) w).
Proof.
  intros H1 H2. unfold slice.
  apply Nat.leb_le in H1. apply Nat.leb_le in H2. rewrite H1, H2. reflexivity.
Qed.

Lemma advanceWhile_Ok (cond : SaxParser -> bool) (fuel : nat) (s s' : SaxParser) :
  (forall x, cond x = true -> cursor x < len x) -> inside s ->
  advanceWhile cond fuel s = Ok s' ->
  moved s s' /\ inside s' /\ cond s' = false /\ (cond s = true -> cursor s < cursor s').
Proof.
  intros Hc Hi H. pose proof (advanceWhile_yields cond fuel s Hc Hi) as Y.
  rewrite H in Y. exact Y.
Qed.

Lemma nextIdentifier_Ok (s s' : SaxParser) :
  isIdentifierStart (peek s 0) = true -> nextIdentifier s = Ok s' ->
  inside s' /\ cursor s < cursor s' /\
  ((exists b : bool,
      s' = set_booleanVal
             (set_text (set_t (set_cursor s (cursor s')) boolean)
                (if b then "true" else "false")) b)
   \/ s' = set_text (set_t (set_cursor s (cursor s')) null) "null"
   \/ (s' = set_addText
              (set_text
                 (set_t (set_cursor s (cursor s'))
                    (if isTagPosition s then tagName else attributeName))
                 (text s')) (addText s')
       /\ qualify (addText s') (text s') = slice (Input s) (cursor s) (cursor s'))).
Proof.
  intros Hs H. unfold nextIdentifier in H.
  set (k := if isTagPosition s then tagName else attributeName).
  assert (E0 : (if isTagPosition s then set_t s tagName else set_t s attributeName)
               = set_t s k).
  { unfold k. destruct (isTagPosition s); reflexivity. }
  rewrite E0 in H. clear E0.
  pose proof (isIdentifierStart_not_ff _ Hs) as Hnff.
  assert (Hlt : cursor s < len s).
  { pose proof (peek_lt s 0 Hnff). lia. }
  bind_inv H as s1 H1.
  apply advanceWhile_Ok in H1 as (Hm1 & Hi1 & _ & Hc1);
    [|apply identifierContinues_inside | unfold inside, len in *; simpl; lia].
  assert (Hgt : cursor s < cursor s1).
  { apply Hc1. unfold identifierContinues. apply start_continue. exact Hs. }
  clear Hc1. destruct Hm1 as [Hs1 _]. simpl in Hs1.
  assert (Hl1 : len s1 = len s) by (rewrite Hs1; reflexivity).
  assert (HI1 : Input s1 = Input s) by (rewrite Hs1; reflexivity).
  bind_inv H as word Hw. apply slice_Ok in Hw. simpl in Hw. rewrite HI1 in Hw.
  assert (Hsl : forall c, cursor s <= c -> c <= len s ->
            slice (Input s) (cursor s) c = Ok (substring (cursor s) (c - cursor s) (Input s))).
  { intros c Ha Hb. apply slice_inside; auto. }
  destruct (_ || _).
  { injection H as <-. simpl. split; [exact Hi1|]. split; [exact Hgt|].
    left. exists true. rewrite Hs1. destruct s; reflexivity. }
  destruct (_ || _).
  { injection H as <-. simpl. split; [exact Hi1|]. split; [exact Hgt|].
    left. exists false. rewrite Hs1. destruct s; reflexivity. }
  destruct (String.eqb word "null").
  { injection H as <-. simpl. split; [exact Hi1|]. split; [exact Hgt|].
    right. left. rewrite Hs1. destruct s; reflexivity. }
  destruct (negb (Ascii.eqb (peek s1 0) ":")) eqn:Ecolon.
  { injection H as <-. simpl. split; [exact Hi1|]. split; [exact Hgt|].
    right. right. split; [rewrite Hs1; destruct s; reflexivity|].
    rewrite qualify_plain, Hsl, Hw; [reflexivity | lia | unfold inside in Hi1; lia]. }
  apply negb_false_iff in Ecolon.
  assert (Hlt1 : cursor s1 < len s1).
  { eapply peek_char0; [exact Ecolon | not_ff]. }
  bind_inv H as s3 H3.
  apply advanceWhile_Ok in H3 as (Hm3 & Hi3 & _ & _);
    [|apply identifierContinues_inside | unfold inside, len in *; simpl in *; lia].
  destruct Hm3 as [Hs3 Hc3]. simpl in Hs3, Hc3.
  assert (HI3 : Input s3 = Input s) by (rewrite Hs3; simpl; exact HI1).
  assert (Hl3 : len s3 = len s) by (unfold len; rewrite HI3; reflexivity).
  bind_inv H as name Hn. apply slice_Ok in Hn. simpl in Hn. rewrite HI3 in Hn.
  injection H as <-. simpl. unfold inside in *.
  split; [exact Hi3|]. split; [lia|].
  right. right. split.
  { rewrite Hs3. simpl. rewrite Hs1. destruct s; reflexivity. }
  assert (Ea : addText s3 = word) by (rewrite Hs3; reflexivity).
  rewrite Ea.
  destruct (substring_head (cursor s) (cursor s1 - cursor s - 1) (Input s) (peek s 0))
    as (r & Hr).
  { pose proof (peek_get s 0 _ eq_refl Hnff) as G. rewrite Nat.add_0_r in G. exact G. }
  replace (S (cursor s1 - cursor s - 1)) with (cursor s1 - cursor s) in Hr by lia.
  rewrite (qualify_namespace word name (peek s 0) r);
    [|rewrite Hw; exact Hr | apply isIdentifierStart_not_colon; exact Hs].
  rewrite Hsl by lia. f_equal.
  replace (cursor s3 - cursor s) with ((cursor s1 - cursor s) + (1 + (cursor s3 - (cursor s1 + 1))))
    by lia.
  rewrite substring_split by (unfold len in *; lia).
  rewrite <- Hw. f_equal.
  replace (cursor s + (cursor s1 - cursor s)) with (cursor s1) by lia.
  rewrite substring_split by (unfold len in *; lia).
  rewrite (substring_get (cursor s1) (Input s) ":").
  - rewrite Hn. reflexivity.
  - apply Ascii.eqb_eq in Ecolon.
    pose proof (peek_get s1 0 _ Ecolon) as G. rewrite Nat.add_0_r, HI1 in G.
    apply G. not_ff.
Qed.

Ltac absurd_fail H := exfalso; eapply fail_at_not_Ok; exact H.

Lemma slice_bounds (w r : string) (a b : nat) :
  slice w a b = Ok r -> a <= b /\ b <= String.length w.
Proof.
  unfold slice. destruct (a <=? b) eqn:E1; [|discriminate].
  destruct (b <=? String.length w) eqn:E2; [|discriminate].
  intros _. apply Nat.leb_le in E1. apply Nat.leb_le in E2. auto.
Qed.

Lemma nextDate_Ok (s s' : SaxParser) :
  nextDate s = Ok s' ->
  s' = set_dateTimeVal (set_t (set_cursor s (cursor s + 10)) date) (dateTimeVal s')
  /\ cursor s + 10 <= len s
  /\ exists year month day,
       strconv.Atoi (substring (cursor s) 4 (Input s)) = (year, None)
       /\ strconv.Atoi (substring (cursor s + 5) 2 (Input s)) = (month, None)
       /\ strconv.Atoi (substring (cursor s + 8) 2 (Input s)) = (day, None)
       /\ dateTimeVal s' = time.Date year month day 0 0 0 0.
Proof.
  intros H. unfold nextDate in H.
  destruct (len s <? cursor s + 10) eqn:El; [absurd_fail H|].
  apply Nat.ltb_ge in El.
  destruct (negb (Ascii.eqb (peek s 7) "/")); [absurd_fail H|].
  bind_inv H as ys Hy. apply slice_Ok in Hy.
  bind_inv H as ms Hm. apply slice_Ok in Hm.
  bind_inv H as ds Hd. apply slice_Ok in Hd.
  replace (cursor s + 4 - cursor s) with 4 in Hy by lia.
  replace (cursor s + 7 - (cursor s + 5)) with 2 in Hm by lia.
  replace (cursor s + 10 - (cursor s + 8)) with 2 in Hd by lia.
  subst ys ms ds.
  destruct (strconv.Atoi (substring (cursor s) 4 (Input s))) as [year yerr].
  destruct (strconv.Atoi (substring (cursor s + 5) 2 (Input s))) as [month merr].
  destruct (strconv.Atoi (substring (cursor s + 8) 2 (Input s))) as [day derr].
  destruct yerr; simpl in H.
  { bind_inv H as x Hx. destruct x as [[? ?] ?]. discriminate. }
  destruct merr; simpl in H.
  { bind_inv H as x Hx. destruct x as [[? ?] ?]. discriminate. }
  destruct derr; simpl in H.
  { bind_inv H as x Hx. destruct x as [[? ?] ?]. discriminate. }
  injection H as <-. simpl. split; [destruct s; reflexivity|]. split; [exact El|].
  exists year, month, day. auto.
Qed.

Lemma eatWhite_inside (s s1 : SaxParser) :
  inside s -> eatWhite s = Ok s1 -> moved s s1 /\ inside s1 /\ isBlank s1 = false.
Proof.
  intros Hi H. unfold eatWhite in H.
  apply advanceWhile_Ok in H as (Hm & Hi1 & Hb & _); auto. apply isBlank_inside.
Qed.

Lemma nextDateTime_Ok (s s' : SaxParser) :
  nextDateTime s = Ok s' ->
  s' = set_dateTimeVal (set_t (set_cursor s (cursor s')) dateTime) (dateTimeVal s')
  /\ cursor s + 18 <= cursor s' /\ inside s'.
Proof.
  intros H. unfold nextDateTime in H.
  bind_inv H as s1 H1. apply nextDate_Ok in H1 as (Hs1 & Hl1 & _).
  assert (Hc1 : cursor s1 = cursor s + 10) by (rewrite Hs1; reflexivity).
  assert (Hn1 : len s1 = len s) by (rewrite Hs1; reflexivity).
  bind_inv H as s2 H2. apply eatWhite_inside in H2 as (Hm2 & Hi2 & _);
    [|unfold inside; lia].
  pose proof (moved_len _ _ Hm2) as Hn2. destruct Hm2 as [Hs2 Hc2].
  destruct (len s2 <? cursor s2 + 8) eqn:El; [absurd_fail H|].
  apply Nat.ltb_ge in El.
  destruct (negb (Ascii.eqb (peek s2 5) ":")); [absurd_fail H|].
  bind_inv H as hs Hh. bind_inv H as ms Hm. bind_inv H as ss Hss.
  destruct (strconv.Atoi hs) as [hours herr].
  destruct (strconv.Atoi ms) as [minutes merr].
  destruct (strconv.Atoi ss) as [seconds serr].
  destruct (notNil herr || notNil merr || notNil serr).
  { bind_inv H as x Hx. destruct x as [[? ?] ?]. discriminate. }
  bind_inv H as st Hst. destruct st as [s3 frac]. injection H as <-. simpl.
  assert (Hs3 : s3 = set_cursor s2 (cursor s3) /\ cursor s2 + 8 <= cursor s3
                /\ cursor s3 <= len s2).
  { destruct (Ascii.eqb (peek (advance s2 8) 0) ".").
    - destruct (len (advance s2 8) <? cursor (advance s2 8) + 4) eqn:El4;
        [absurd_fail Hst|].
      apply Nat.ltb_ge in El4.
      bind_inv Hst as fs Hf. destruct (strconv.Atoi fs) as [fr ferr].
      destruct (notNil ferr); [absurd_fail Hst|].
      injection Hst as <- <-. simpl in *. unfold len in *. simpl in *.
      split; [destruct s2; unfold advance; simpl; f_equal; lia|]. lia.
    - injection Hst as <- <-. simpl. split; [reflexivity|]. lia. }
  destruct Hs3 as (Hs3 & Hc3 & Hl3).
  split; [|split; [lia | unfold inside; simpl; unfold len in *; simpl;
                    rewrite Hs3; simpl; unfold len in *; lia]].
  rewrite Hs3. simpl. rewrite Hs2. simpl. rewrite Hs1. destruct s; reflexivity.
Qed.

Lemma nextTimeSpan_Ok (s s' : SaxParser) (first : string) :
  nextTimeSpan s first = Ok s' ->
  s' = set_timeSpanVal (set_t (set_cursor s (cursor s')) timeSpan) (timeSpanVal s')
  /\ inside s'.
Proof.
  intros H. unfold nextTimeSpan in H.
  bind_inv H as neg Hneg.
  bind_inv H as st Hst. destruct st as [s1 days].
  assert (Hs1 : s1 = set_cursor s (cursor s1)).
  { destruct (Ascii.eqb (peek s 0) "d").
    - destruct (negb _); [absurd_fail Hst|]. injection Hst as <- _. reflexivity.
    - destruct (cursor s <? _);
        [exfalso; eapply nextTimeSpan_below_not_Ok; exact Hst|].
      injection Hst as <- _. destruct s; reflexivity. }
  clear Hst.
  destruct (negb (Ascii.eqb (peek s1 2) ":")); [absurd_fail H|].
  destruct (negb (Ascii.eqb (peek s1 5) ":")); [absurd_fail H|].
  cbv zeta in H.
  bind_inv H as hh Hhh. bind_inv H as mm Hmm. bind_inv H as ss Hss.
  apply slice_bounds in Hss as [_ Hb].
  bind_inv H as st Hst. destruct st as [s2 nsecs]. injection H as <-. simpl.
  assert (Hs2 : s2 = set_cursor s1 (cursor s2) /\ cursor s2 <= len s1).
  { destruct (Ascii.eqb (peek s1 8) ".").
    - destruct (_ || _); [absurd_fail Hst|].
      bind_inv Hst as ns Hns. apply slice_bounds in Hns as [_ Hb2].
      injection Hst as <- _. simpl. split; [reflexivity|]. exact Hb2.
    - injection Hst as <- _. simpl. split; [reflexivity|]. exact Hb. }
  destruct Hs2 as [Hs2 Hl2]. split.
  - rewrite Hs2. simpl. rewrite Hs1. destruct s; reflexivity.
  - unfold inside. simpl. rewrite Hs2. simpl. exact Hl2.
Qed.

Lemma numeric_loop_Ok (fuel : nat) (s s1 : SaxParser) (d d1 : bool) :
  inside s -> numeric_loop fuel s d = Ok (s1, d1) -> moved s s1 /\ inside s1.
Proof.
  revert s d. induction fuel as [|fuel IH]; intros s d Hi H; simpl in H.
  - destruct (SaxParser_eof s); simpl in H.
    + injection H as <- _. split; [apply moved_refl | exact Hi].
    + destruct (Ascii.eqb (peek s 0) ".").
      * destruct d; [absurd_fail H | discriminate].
      * destruct (negb (isDigit (peek s 0))); [|discriminate].
        injection H as <- _. split; [apply moved_refl | exact Hi].
  - destruct (SaxParser_eof s) eqn:E; simpl in H.
    + injection H as <- _. split; [apply moved_refl | exact Hi].
    + apply eof_false in E.
      assert (Hstep : forall d', numeric_loop fuel (advance s 1) d' = Ok (s1, d1) ->
                moved s s1 /\ inside s1).
      { intros d' H'. apply IH in H' as [Hm Hi1].
        - split; [|exact Hi1]. eapply moved_trans; [apply (moved_advance s 1)|exact Hm].
        - unfold inside, len in *. simpl. lia. }
      destruct (Ascii.eqb (peek s 0) ".").
      * destruct d; [absurd_fail H | eapply Hstep; eauto].
      * destruct (negb (isDigit (peek s 0))); [|eapply Hstep; eauto].
        injection H as <- _. split; [apply moved_refl | exact Hi].
Qed.

Lemma nextNumeric_Ok (s s' : SaxParser) :
  inside s -> nextNumeric s = Ok s' ->
  inside s' /\
  ((exists k, (k = integer \/ k = long \/ k = float \/ k = double)
      /\ s' = set_text (set_t (set_cursor s (cursor s')) k) (text s'))
   \/ s' = set_timeSpanVal (set_t (set_cursor s (cursor s')) timeSpan) (timeSpanVal s')
   \/ (exists k, (k = date \/ k = dateTime)
         /\ s' = set_dateTimeVal (set_t (set_cursor s (cursor s')) k) (dateTimeVal s'))).
Proof.
  intros Hi H. unfold nextNumeric in H.
  destruct (Ascii.eqb (peek s 4) "/").
  { destruct (_ && _).
    - apply nextDateTime_Ok in H as (Hs & _ & Hin). split; [exact Hin|].
      right. right. exists dateTime. auto.
    - apply nextDate_Ok in H as (Hs & Hl & _). split.
      + rewrite Hs. unfold inside. simpl. exact Hl.
      + right. right. exists date. split; [auto|].
        rewrite Hs at 1. rewrite Hs. reflexivity. }
  set (s0 := if Ascii.eqb (peek s 0) "-" then advance s 1 else s) in H.
  assert (H0 : moved s s0 /\ inside s0).
  { unfold s0. destruct (Ascii.eqb (peek s 0) "-") eqn:E.
    - split; [apply moved_advance|].
      assert (cursor s < len s) by (eapply peek_char0; [exact E | not_ff]).
      unfold inside, len in *. simpl. lia.
    - split; [apply moved_refl | exact Hi]. }
  destruct H0 as [Hm0 Hi0].
  bind_inv H as st Hst. destruct st as [s1 foundDot].
  apply numeric_loop_Ok in Hst as [Hm1 Hi1]; [|exact Hi0].
  pose proof (moved_trans _ _ _ Hm0 Hm1) as [Hs1 _].
  bind_inv H as num Hnum.
  destruct (Ascii.eqb (peek s1 0) "d" || Ascii.eqb (peek s1 0) ":").
  { apply nextTimeSpan_Ok in H as [Hs Hin]. split; [exact Hin|].
    right. left. rewrite Hs at 1. rewrite Hs1. destruct s; reflexivity. }
  assert (Hsuffix : forall c k,
            Ascii.eqb (peek (set_t s1 integer) 0) c = true -> c <> byte_ff ->
            inside (advance (set_t (set_t s1 integer) k) 1)).
  { intros c k Hc Hn. pose proof (peek_char0 _ _ Hc Hn) as Hlt.
    unfold inside, len in *. simpl in *. lia. }
  match type of H with
  | (if ?c then _ else _) = _ => destruct c; [absurd_fail H|]
  end.
  injection H as <-.
  destruct (Ascii.eqb (peek (set_t s1 integer) 0) "L") eqn:EL.
  { split; [eapply (Hsuffix _ long); [exact EL | not_ff]|].
    left. exists long. split; [auto|]. simpl. rewrite Hs1. destruct s; reflexivity. }
  destruct (Ascii.eqb (peek (set_t s1 integer) 0) "F") eqn:EF.
  { split; [eapply (Hsuffix _ float); [exact EF | not_ff]|].
    left. exists float. split; [auto|]. simpl. rewrite Hs1. destruct s; reflexivity. }
  destruct (Ascii.eqb (peek (set_t s1 integer) 0) "D") eqn:ED.
  { split; [eapply (Hsuffix _ double); [exact ED | not_ff]|].
    left. exists double. split; [auto|]. simpl. rewrite Hs1. destruct s; reflexivity. }
  destruct foundDot.
  { split; [exact Hi1|].
    left. exists double. split; [auto|]. simpl. rewrite Hs1. destruct s; reflexivity. }
  split; [exact Hi1|].
  left. exists integer. split; [auto|]. simpl. rewrite Hs1. destruct s; reflexivity.
Qed.

Lemma nextDoubleQuotedString_Ok (s s' : SaxParser) :
  nextDoubleQuotedString s = Ok s' ->
  s' = set_text (set_t (set_cursor s (cursor s')) string_) (text s')
  /\ inside s' /\ cursor s < cursor s'.
Proof.
  intros H. unfold nextDoubleQuotedString in H.
  pose proof (doubleQuoted_loop_scans (len (set_t (advance s 1) string_)) (cursor s)
                (set_t (advance s 1) string_) "" (cursor (set_t (advance s 1) string_))) as Y.
  rewrite H in Y. destruct Y as (Hs & Hi & Hc). simpl in Hc.
  split; [|split; [exact Hi | lia]].
  unfold scans in Hs. rewrite Hs at 1. destruct s; reflexivity.
Qed.

Lemma nextBacktickString_Ok (s s' : SaxParser) :
  nextBacktickString s = Ok s' ->
  s' = set_text (set_t (set_cursor s (cursor s')) string_) (text s')
  /\ inside s' /\ cursor s < cursor s'.
Proof.
  intros H. unfold nextBacktickString in H.
  pose proof (backtick_loop_scans (len (set_t (advance s 1) string_)) (cursor s)
                (set_t (advance s 1) string_) (cursor (set_t (advance s 1) string_))) as Y.
  rewrite H in Y. destruct Y as (Hs & Hi & Hc). simpl in Hc.
  split; [|split; [exact Hi | lia]].
  unfold scans in Hs. rewrite Hs at 1. destruct s; reflexivity.
Qed.

Lemma nextBinary_Ok (s s' : SaxParser) :
  nextBinary s = Ok s' ->
  s' = set_text (set_t (set_cursor s (cursor s')) binary) (text s')
  /\ inside s' /\ cursor s < cursor s'.
Proof.
  intros H. unfold nextBinary in H.
  pose proof (binary_loop_scans (len (set_t (advance s 1) binary)) (cursor s)
                (set_t (advance s 1) binary) "") as Y.
  rewrite H in Y. destruct Y as (Hs & Hi & Hc). simpl in Hc.
  split; [|split; [exact Hi | lia]].
  unfold scans in Hs. rewrite Hs at 1. destruct s; reflexivity.
Qed.

Lemma Next_rec_lexeme (fuel : nat) (s s' : SaxParser) :
  inside s -> Next_rec fuel s = Ok s' ->
  exists s1, moved s s1 /\ inside s1 /\ lexeme s1 s'.
Proof.
  revert s. induction fuel as [|fuel IH]; intros s Hi H; [discriminate|].
  simpl in H. bind_inv H as s1 H1.
  apply eatWhite_inside in H1 as (Hm1 & Hi1 & _); [|exact Hi].
  destruct (SaxParser_eof s1) eqn:Eeof.
  { injection H as <-. exists s1. split; [exact Hm1|]. split; [exact Hi1|].
    apply lexeme_eof. exact Eeof. }
  pose proof (eof_false _ Eeof) as Hlt.
  destruct (startsComment s1) eqn:Ecom.
  { bind_inv H as s2 H2.
    apply advanceWhile_Ok in H2 as (Hm2 & Hi2 & _ & _);
      [|apply inComment_inside | exact Hi1].
    apply IH in H as (s3 & Hm3 & Hi3 & Hl); [|exact Hi2].
    exists s3. split; [|auto].
    eapply moved_trans; [exact Hm1|]. eapply moved_trans; eauto. }
  destruct (Ascii.eqb (peek s1 0) LF) eqn:ELF.
  { injection H as <-. exists s1. split; [exact Hm1|]. split; [exact Hi1|].
    apply lexeme_LF; [exact Eeof|]. apply Ascii.eqb_eq. exact ELF. }
  destruct (Ascii.eqb (peek s1 0) CR) eqn:ECR.
  { destruct (negb (Ascii.eqb (peek s1 1) LF)) eqn:E1.
    - bind_inv H as x Hx. destruct x as [[? ?] ?]. discriminate.
    - injection H as <-. exists s1. split; [exact Hm1|]. split; [exact Hi1|].
      apply negb_false_iff in E1.
      apply lexeme_CRLF; apply Ascii.eqb_eq; assumption. }
  destruct (Ascii.eqb (peek s1 0) "\" && Ascii.eqb (peek s1 1) LF) eqn:Econt.
  { apply andb_true_iff in Econt as [_ E1].
    assert (cursor s1 + 1 < len s1) by (eapply peek_char; [exact E1 | not_ff]).
    apply IH in H as (s3 & Hm3 & Hi3 & Hl).
    - exists s3. split; [|auto].
      eapply moved_trans; [exact Hm1|].
      eapply moved_trans; [apply (moved_advance s1 2)|exact Hm3].
    - unfold inside, len in *. simpl. lia. }
  destruct (isIdentifierStart (peek s1 0)) eqn:Eid.
  { bind_inv H as s2 H2. exists s1. split; [exact Hm1|]. split; [exact Hi1|].
    destruct (bool_decide (t s2 = attributeName)) eqn:Ea.
    - apply bool_decide_eq_true in Ea.
      destruct (negb (Ascii.eqb (peek s2 0) "=")) eqn:Eq; [absurd_fail H|].
      injection H as <-. apply negb_false_iff in Eq. apply Ascii.eqb_eq in Eq.
      apply lexeme_attribute; auto.
    - apply bool_decide_eq_false in Ea. injection H as <-.
      apply lexeme_word; auto. }
  destruct (Ascii.eqb (peek s1 0) "{") eqn:Eopen.
  { injection H as <-. exists s1. split; [exact Hm1|]. split; [exact Hi1|].
    apply lexeme_open. apply Ascii.eqb_eq. exact Eopen. }
  destruct (Ascii.eqb (peek s1 0) "}") eqn:Eclose.
  { injection H as <-. exists s1. split; [exact Hm1|]. split; [exact Hi1|].
    apply lexeme_close. apply Ascii.eqb_eq. exact Eclose. }
  destruct (isTagPosition s1) eqn:Etag.
  { injection H as <-. exists s1. split; [exact Hm1|]. split; [exact Hi1|].
    apply lexeme_content; auto. }
  exists s1. split; [exact Hm1|]. split; [exact Hi1|].
  destruct (Ascii.eqb (peek s1 0) DQUOTE) eqn:Edq.
  { apply lexeme_doubleQuoted; auto. apply Ascii.eqb_eq. exact Edq. }
  destruct (Ascii.eqb (peek s1 0) "`") eqn:Ebt.
  { apply lexeme_backtick; auto. apply Ascii.eqb_eq. exact Ebt. }
  destruct (Ascii.eqb (peek s1 0) "[") eqn:Ebin.
  { apply lexeme_binary; auto. apply Ascii.eqb_eq. exact Ebin. }
  destruct (isDigit (peek s1 0) || Ascii.eqb (peek s1 0) "-") eqn:Enum.
  { apply lexeme_numeric; auto. }
  absurd_fail H.
Qed.

Lemma Next_lexeme (s s' : SaxParser) :
  inside s -> Next s = Ok s' -> exists s1, moved s s1 /\ inside s1 /\ lexeme s1 s'.
Proof. intros Hi H. eapply Next_rec_lexeme; eauto. Qed.

Lemma token_moved (s s1 s' : SaxParser) : moved s s1 -> token s1 s' -> token s s'.
Proof.
  intros [Hs _] Ht.
  assert (Hc : forall c, set_cursor s1 c = set_cursor s c).
  { intros c. rewrite Hs. reflexivity. }
  assert (Hp : isTagPosition s1 = isTagPosition s) by (rewrite Hs; reflexivity).
  assert (Hl : len s1 = len s) by (rewrite Hs; reflexivity).
  assert (HI : Input s1 = Input s) by (rewrite Hs; reflexivity).
  destruct Ht; rewrite Hc; rewrite ?Hp, ?Hl, ?HI in *.
  - apply token_eof; auto.
  - apply token_newLine.
  - apply token_boolean.
  - apply token_null.
  - apply token_tagName; auto.
  - apply token_attributeName; auto.
  - apply token_brace; auto.
  - apply token_content; auto.
  - apply token_text; auto.
  - apply token_timeSpan; auto.
  - apply token_date; auto.
Qed.

Lemma set_cursor_set_t (s : SaxParser) (k : saxType) (c : nat) :
  set_t (set_cursor s c) k = set_cursor (set_t s k) c.
Proof. reflexivity. Qed.

Lemma lexeme_token (s s' : SaxParser) :
  inside s -> lexeme s s' -> token s s' /\ cursor s <= cursor s' /\ inside s'.
Proof.
  intros Hi Hl.
  destruct Hl as [He | He Hp | Hp Hp1 | s2 Hid Hn Hna | s2 Hid Hn Ha Heq | Hp | Hp
                  | He Htag | s2 Htag Hp Hn | s2 Htag Hp Hn | s2 Htag Hp Hn
                  | s2 Htag Hp Hn].
  - split; [|split; [simpl; lia | exact Hi]].
    rewrite <- (set_cursor_same s) at 2. apply token_eof. apply eof_true. exact He.
  - apply eof_false in He.
    split; [apply (token_newLine s (cursor s + 1))|].
    unfold inside, len in *. simpl. split; lia.
  - assert (cursor s + 1 < len s).
    { apply peek_lt. rewrite Hp1. not_ff. }
    split; [apply (token_newLine s (cursor s + 2))|].
    unfold inside, len in *. simpl. split; lia.
  - apply nextIdentifier_Ok in Hn as (Hin & Hc & Hsh); [|exact Hid].
    split; [|split; [lia | exact Hin]].
    destruct Hsh as [[b Hb]|[Hb|[Hb _]]]; rewrite Hb.
    + apply token_boolean.
    + apply token_null.
    + destruct (isTagPosition s) eqn:Etag.
      * apply token_tagName. exact Etag.
      * exfalso. apply Hna. rewrite Hb. reflexivity.
  - apply nextIdentifier_Ok in Hn as (Hin & Hc & Hsh); [|exact Hid].
    assert (Hlt : cursor s2 < len s2).
    { pose proof (peek_lt s2 0) as P. rewrite Nat.add_0_r in P. apply P.
      rewrite Heq. not_ff. }
    split; [|unfold inside, len in *; simpl; split; lia].
    destruct Hsh as [[b Hb]|[Hb|[Hb _]]].
    + rewrite Hb in Ha. discriminate.
    + rewrite Hb in Ha. discriminate.
    + destruct (isTagPosition s) eqn:Etag.
      * rewrite Hb in Ha. discriminate.
      * pose proof (peek_get s2 0 _ Heq) as G. rewrite Nat.add_0_r in G.
        assert (HI : Input s2 = Input s) by (rewrite Hb; reflexivity).
        rewrite HI in G.
        replace (advance s2 1)
          with (set_addText (set_text (set_t (set_cursor s (S (cursor s2))) attributeName)
                               (text s2)) (addText s2)).
        -- apply token_attributeName; [exact Etag|]. apply G. not_ff.
        -- rewrite Hb at 4. unfold advance. simpl. rewrite Nat.add_1_r. reflexivity.
  - assert (cursor s < len s).
    { pose proof (peek_lt s 0) as P. rewrite Nat.add_0_r in P. apply P. rewrite Hp. not_ff. }
    split; [apply (token_brace s (cursor s + 1) openTag); auto|].
    unfold inside, len in *. simpl. split; lia.
  - assert (cursor s < len s).
    { pose proof (peek_lt s 0) as P. rewrite Nat.add_0_r in P. apply P. rewrite Hp. not_ff. }
    split; [apply (token_brace s (cursor s + 1) closeTag); auto|].
    unfold inside, len in *. simpl. split; lia.
  - split; [|split; [simpl; lia | exact Hi]].
    rewrite <- (set_cursor_same s) at 2. apply token_content. exact Htag.
  - apply nextDoubleQuotedString_Ok in Hn as (Hs & Hin & Hc).
    split; [|split; [lia | exact Hin]]. rewrite Hs. apply token_text; auto.
  - apply nextBacktickString_Ok in Hn as (Hs & Hin & Hc).
    split; [|split; [lia | exact Hin]]. rewrite Hs. apply token_text; auto.
  - apply nextBinary_Ok in Hn as (Hs & Hin & Hc).
    split; [|split; [lia | exact Hin]]. rewrite Hs. apply token_text; auto.
  - pose proof (ends_inv _ _ _ (nextNumeric_ends s Hp) Hn) as (_ & Hc & _).
    apply nextNumeric_Ok in Hn as (Hin & Hsh); [|exact Hi].
    split; [|split; [lia | exact Hin]].
    destruct Hsh as [(k & Hk & Hs)|[Hs|(k & Hk & Hs)]]; rewrite Hs.
    + apply token_text; [exact Htag|]. tauto.
    + apply token_timeSpan. exact Htag.
    + apply token_date; auto.
Qed.

Lemma Next_token (s s' : SaxParser) :
  Next s = Ok s' -> token s s' /\ cursor s <= cursor s' /\ (inside s -> inside s').
Proof.
  intros H. destruct (le_lt_dec (cursor s) (len s)) as [Hi|Ho].
  - apply Next_lexeme in H as (s1 & Hm & Hi1 & Hl); [|exact Hi].
    apply lexeme_token in Hl as (Ht & Hc & Hin); [|exact Hi1].
    split; [eapply token_moved; eauto|]. split; [destruct Hm; lia | auto].
  - rewrite Next_at_eof in H by lia. injection H as <-.
    split; [|split; [simpl; lia | unfold inside; simpl; auto]].
    rewrite <- (set_cursor_same s) at 2. apply token_eof. lia.
Qed.

(** ** What a call of [Next] returns *)

Ltac token_cases H :=
  let Ht := fresh "Ht" in
  destruct (Next_token _ _ H) as (Ht & _ & _);
  destruct Ht as [tc tHl | tc | tc tb | tc | tc tx ta tHp | tc tx ta tHp tHg
                  | tc tk tx tHk | tc tHp | tc tk tx tHp tHk | tc tv tHp
                  | tc tk tv tHp tHk].

(** X20: the kinds [failsafe], [character] and [decimal] are never the kind
    of a token: after any call of [Next] that returns, the kind is one of the
    seventeen others, so [IsChar] and [IsDecimal] are false. *)
Theorem Next_never_returns_unused_kinds (s s' : SaxParser) :
  Next s = Ok s' ->
  t s' <> failsafe /\ IsChar s' = false /\ IsDecimal s' = false.
Proof.
  intros H. unfold IsChar, IsDecimal.
  token_cases H; simpl; repeat split; try discriminate; try reflexivity;
    try (apply bool_decide_eq_false);
    intuition (subst; discriminate).
Qed.

(** X16: whether an identifier is a tag name or an attribute name follows
    from the token before it.  [Next] returns a tag name only when the
    previous token was a line end or there was none, an attribute name only
    otherwise; and in that first position it returns nothing but a tag name,
    a boolean, a null, a line end, a brace or the end of the input: a
    string, number, date, duration or binary literal is always preceded by
    the synthesized [content] tag name. *)
Theorem token_kind_follows_position (s s' : SaxParser) :
  Next s = Ok s' ->
  (IsTagName s' = true -> isTagPosition s = true)
  /\ (IsAttributeName s' = true -> isTagPosition s = false)
  /\ (isTagPosition s = true ->
      IsTagName s' || SaxParser_IsBool s' || SaxParser_IsNull s' || IsNewLine s'
      || IsOpenTag s' || IsCloseTag s' || IsEof s' = true).
Proof.
  intros H.
  unfold IsTagName, IsAttributeName, SaxParser_IsBool, SaxParser_IsNull, IsNewLine,
    IsOpenTag, IsCloseTag, IsEof.
  token_cases H; simpl; repeat split; intros E; try reflexivity; try congruence;
    try (apply bool_decide_eq_true in E; intuition (subst; discriminate));
    intuition (subst; reflexivity).
Qed.

(** X17: of two calls of [Next] in a row, the second returns a tag name only
    if the first returned a line end.  The tree builder therefore meets a
    tag name with [prevWasNewLine] false only on the first token of a parser
    that was used before. *)
Theorem tag_name_only_after_newLine (s s' s'' : SaxParser) :
  Next s = Ok s' -> Next s' = Ok s'' -> IsTagName s'' = true -> IsNewLine s' = true.
Proof.
  intros H1 H2 Ht.
  assert (Hpos : isTagPosition s' = true).
  { unfold IsTagName in Ht. apply bool_decide_eq_true in Ht.
    token_cases H2; simpl in Ht; try discriminate; try assumption;
      intuition (subst; discriminate). }
  unfold isTagPosition in Hpos. apply orb_true_iff in Hpos as [Hpos|Hpos]; [exact Hpos|].
  apply bool_decide_eq_true in Hpos. exfalso.
  token_cases H1; simpl in Hpos; try discriminate; intuition (subst; discriminate).
Qed.

(** X18: an attribute name is only returned with its [=] read: the cursor
    stands right behind an equals sign. *)
Theorem attribute_name_consumes_equals (s s' : SaxParser) :
  Next s = Ok s' -> IsAttributeName s' = true ->
  0 < cursor s' /\ String.get (cursor s' - 1) (Input s') = Some "="%char.
Proof.
  intros H Ha. unfold IsAttributeName in Ha. apply bool_decide_eq_true in Ha.
  token_cases H; simpl in Ha; try discriminate; try (intuition (subst; discriminate)).
  simpl. rewrite Nat.sub_0_r. split; [lia | exact tHg].
Qed.

(** X19: the text of the fixed tokens.  A boolean token has the text [true]
    or [false], whichever of [true], [on], [false], [off] was written, and
    [Bool] agrees with it; a null token has the text [null]; the braces have
    their own character as text. *)
Theorem keyword_tokens_are_normalised (s s' : SaxParser) :
  Next s = Ok s' ->
  (SaxParser_IsBool s' = true ->
   (Text s' = "true" /\ SaxParser_Bool s' = true)
   \/ (Text s' = "false" /\ SaxParser_Bool s' = false))
  /\ (SaxParser_IsNull s' = true -> Text s' = "null")
  /\ (IsOpenTag s' = true -> Text s' = "{")
  /\ (IsCloseTag s' = true -> Text s' = "}").
Proof.
  intros H. unfold SaxParser_IsBool, SaxParser_IsNull, IsOpenTag, IsCloseTag, Text,
    SaxParser_Bool.
  token_cases H; simpl; repeat split; intros E; try discriminate E;
    try reflexivity; try (apply bool_decide_eq_true in E);
    try (intuition (subst; try discriminate; reflexivity)).
  destruct tb; auto.
Qed.

(** X21: what [Next] leaves alone.  The input and the file name never
    change; [Bool], [Time], [TimeSpan] and [AdditionalText] keep the value of
    an earlier token unless the new token is of their own kind (a boolean; a
    date or date-time; a duration; a tag or attribute name). *)
Theorem Next_writes_only_its_token (s s' : SaxParser) :
  Next s = Ok s' ->
  Input s' = Input s /\ FileName s' = FileName s
  /\ (SaxParser_IsBool s' = false -> SaxParser_Bool s' = SaxParser_Bool s)
  /\ (IsDate s' = false -> SaxParser_IsDateTime s' = false -> Time s' = Time s)
  /\ (SaxParser_IsTimeSpan s' = false -> SaxParser_TimeSpan s' = SaxParser_TimeSpan s)
  /\ (IsTagName s' = false -> IsAttributeName s' = false ->
      AdditionalText s' = AdditionalText s).
Proof.
  intros H.
  unfold SaxParser_IsBool, IsDate, SaxParser_IsDateTime, SaxParser_IsTimeSpan, IsTagName,
    IsAttributeName, SaxParser_Bool, Time, SaxParser_TimeSpan, AdditionalText.
  token_cases H; simpl; repeat split; intros; try reflexivity;
    repeat match goal with
           | E : bool_decide _ = false |- _ => apply bool_decide_eq_false in E
           end;
    try congruence; intuition (subst; congruence).
Qed.

(** X22: the cursor never leaves the input.  From a parser whose cursor is
    on the input or at its end, any number of calls of [Next] that return
    leave it so, never move it back, and do not change the length of the
    input. *)
Theorem cursor_stays_inside (n : nat) (s s' : SaxParser) :
  cursor s <= len s -> Next_n n s = Ok s' ->
  cursor s <= cursor s' /\ cursor s' <= len s' /\ len s' = len s.
Proof.
  revert s. induction n as [|n IH]; intros s Hi H; simpl in H.
  - injection H as <-. lia.
  - bind_inv H as s1 H1.
    destruct (Next_token _ _ H1) as (_ & Hc & Hin).
    pose proof (ends_inv _ _ _ (Next_ends s) H1) as (HI & _).
    apply IH in H as (Hc' & Hi' & Hl'); [|apply Hin; exact Hi].
    unfold len in *. rewrite HI in Hl'. lia.
Qed.

(** ** The steps of the tree builder *)

(** X10: the qualified name of a tag or an attribute.  The statement
    [q[0]] never panics, since [q] holds at least the colon; the result is
    the name alone without a namespace, and namespace, colon, name with one.
    A namespace that itself starts with a colon loses that colon. *)
Theorem qualify_is_total (namespace name : string) :
  qualify namespace name
  = Ok match namespace with
       | EmptyString => name
       | String c r =>
           if Ascii.eqb c ":" then r ++ ":" ++ name else namespace ++ ":" ++ name
       end.
Proof.
  destruct namespace as [|c r].
  - apply qualify_plain.
  - destruct (Ascii.eqb_spec c ":") as [->|ne].
    + unfold qualify.
      change (String ":" r ++ ":" ++ name) with (String ":"%char (r ++ ":" ++ name)).
      unfold index, slice. simpl. rewrite Nat.leb_refl. simpl.
      rewrite Nat.sub_0_r, substring_0_all. reflexivity.
    + eapply qualify_namespace; eauto.
Qed.

Lemma closeTop_stack (stack : list SdlTag) (parent child : SdlTag) :
  closeTop (stack ++ [parent; child])
  = Ok (stack ++ [set_Children parent (Children parent ++ [child])])%list.
Proof.
  unfold closeTop, stackAt. rewrite length_app. simpl.
  replace (Z.of_nat (length stack + 2) - 2)%Z with (Z.of_nat (length stack)) by lia.
  replace (Z.of_nat (length stack + 2) - 1)%Z with (Z.of_nat (S (length stack))) by lia.
  destruct (Z.of_nat (length stack) <? 0)%Z eqn:E1; [apply Z.ltb_lt in E1; lia|].
  destruct (Z.of_nat (S (length stack)) <? 0)%Z eqn:E2; [apply Z.ltb_lt in E2; lia|].
  rewrite !Nat2Z.id.
  rewrite (list_lookup_middle stack [child] parent (length stack) eq_refl). simpl.
  replace (stack ++ [parent; child])%list with ((stack ++ [parent]) ++ [child])%list
    by (rewrite <- app_assoc; reflexivity).
  rewrite (list_lookup_middle (stack ++ [parent]) [] child (S (length stack)))
    by (rewrite length_app; simpl; lia).
  simpl. f_equal.
  rewrite <- app_assoc. simpl.
  rewrite insert_app_r_alt by lia. rewrite Nat.sub_diag. simpl.
  replace (S (length stack))
    with (length (stack ++ [set_Children parent (Children parent ++ [child])])%list)
    by (rewrite length_app; simpl; lia).
  replace (stack ++ [set_Children parent (Children parent ++ [child]); child])%list
    with ((stack ++ [set_Children parent (Children parent ++ [child])]) ++ [child])%list
    by (rewrite <- app_assoc; reflexivity).
  apply take_app_length.
Qed.

(** X9: closing a tag.  With at least two tags on the stack, the topmost
    one becomes the last child of the one below it and leaves the stack, and
    nothing else changes; with fewer than two, the index [len - 2] is out of
    range and the statement panics. *)
Theorem closeTop_pops_or_panics :
  (forall stack parent child,
     closeTop (stack ++ [parent; child])
     = Ok (stack ++ [set_Children parent (Children parent ++ [child])])%list)
  /\ closeTop [] = Panic IndexOutOfRange
  /\ (forall g, closeTop [g] = Panic IndexOutOfRange).
Proof. split; [exact closeTop_stack|]. split; reflexivity. Qed.

Lemma descendants_eq (g : SdlTag) :
  descendants g = g :: flat_map descendants (Children g).
Proof.
  destruct g as [ns n q children at_ vs]. reflexivity.
Qed.

Lemma deep_intro (P : SdlTag -> Prop) (g : SdlTag) :
  P g -> Forall (fun c => Forall P (descendants c)) (Children g) ->
  Forall P (descendants g).
Proof.
  intros Hg Hc. rewrite descendants_eq. constructor; [exact Hg|].
  apply Forall_flat_map. exact Hc.
Qed.

Lemma deep_inv (P : SdlTag -> Prop) (g : SdlTag) :
  Forall P (descendants g) ->
  P g /\ Forall (fun c => Forall P (descendants c)) (Children g).
Proof.
  rewrite descendants_eq. intros H. inversion H as [|? ? Hg Hc]; subst.
  split; [exact Hg|]. apply Forall_flat_map. exact Hc.
Qed.

Lemma yields_eq {A : Type} (r : outcome A) : yields r (fun a => r = Ok a).
Proof. destruct r; simpl; auto. Qed.

Section WellFormed.
Variable ParseFloat : string -> PrimFloat.float.

Lemma handleValue_built (p : SaxParser) (v : SdlValue) :
  handleValue ParseFloat SdlValue_zero p = Ok v -> built v.
Proof.
  unfold handleValue, built. intros H.
  repeat match type of H with
         | (if ?c then _ else _) = _ => destruct c
         end; try discriminate; injection H as <-.
  - right. right. right. right. right. right. right.
    unfold base64.Read. simpl. rewrite drop_nil. reflexivity.
  - right. right. right. right. right. right. left. eexists. reflexivity.
  - right. right. right. right. left. eexists. reflexivity.
  - right. right. right. left. eexists. reflexivity.
  - right. right. left. eexists. reflexivity.
  - left. reflexivity.
  - right. left. eexists. reflexivity.
  - right. right. right. right. right. left. eexists. reflexivity.
Qed.

Lemma deep_update (stack : list SdlTag) (i : nat) (g g' : SdlTag) :
  Forall deep stack -> stack !! i = Some g ->
  Children g' = Children g -> wellFormed g' ->
  Forall deep (<[i := g']> stack).
Proof.
  intros Hs Hg Hc Hw. apply Forall_insert; [exact Hs|].
  pose proof (Forall_lookup_1 _ _ _ _ Hs Hg) as Hd.
  apply deep_inv in Hd as [_ Hch].
  apply deep_intro; [exact Hw|]. rewrite Hc. exact Hch.
Qed.

Lemma closeTop_deep (stack : list SdlTag) :
  Forall deep stack -> yields (closeTop stack) (Forall deep).
Proof.
  intros Hs. unfold closeTop.
  eapply yields_bind; [apply stackAt_yields|]. intros parent [Hi Hp].
  eapply yields_bind; [apply stackAt_yields|]. intros child [_ Hc]. simpl.
  apply Forall_take. apply Forall_insert; [exact Hs|].
  pose proof (Forall_lookup_1 _ _ _ _ Hs Hp) as Hdp.
  pose proof (Forall_lookup_1 _ _ _ _ Hs Hc) as Hdc.
  apply deep_inv in Hdp as [Hw Hch].
  apply deep_intro; [exact Hw|]. simpl.
  apply Forall_app. split; [exact Hch|]. constructor; [exact Hdc | constructor].
Qed.

Lemma ParseIntoAst_loop_deep (fuel : nat) (p : SaxParser) (stack : list SdlTag)
    (prev : bool) :
  Forall deep stack ->
  yields (ParseIntoAst_loop ParseFloat fuel p stack prev) deep.
Proof.
  revert p stack prev. induction fuel as [|fuel IH]; intros p stack prev Hs;
    [exact I|].
  simpl. eapply yields_bind; [apply yields_True|]. intros p1 _.
  assert (Herr : forall q msg,
            yields (let* e := NewError q 0 msg in @Err SdlTag e) deep).
  { intros q msg. destruct (NewError q 0 msg); simpl; auto. }
  destruct (IsEof p1).
  { destruct (stackAt stack 0) as [root| | |] eqn:E; simpl; auto.
    apply stackAt_Ok in E as [_ E]. eapply Forall_lookup_1; eauto. }
  destruct (IsTagName p1).
  { destruct (negb prev); [apply Herr|].
    eapply yields_bind; [apply yields_eq|]. intros q Hq.
    apply IH. apply Forall_app. split; [exact Hs|].
    constructor; [|constructor]. apply deep_intro; [|constructor].
    split; [exact Hq|]. split; [|constructor].
    intros k a Hk. simpl in Hk. rewrite lookup_empty in Hk. discriminate. }
  destruct (IsAttributeName p1).
  { eapply yields_bind; [apply yields_eq|]. intros q Hq.
    eapply yields_bind; [apply yields_True|]. intros p2 _.
    eapply yields_bind; [apply yields_eq|]. intros v Hv.
    eapply yields_bind; [apply stackAt_yields|]. intros g [_ Hg].
    apply IH. eapply deep_update; eauto.
    pose proof (Forall_lookup_1 _ _ _ _ Hs Hg) as Hd.
    apply deep_inv in Hd as [(Hn & Ha & Hvs) _].
    split; [exact Hn|]. split; [|exact Hvs].
    intros k a Hk. simpl in Hk.
    destruct (decide (k = q)) as [->|ne].
    - rewrite lookup_insert_eq in Hk. injection Hk as <-. simpl.
      split; [reflexivity|]. split; [exact Hq|]. apply (handleValue_built p2). exact Hv.
    - rewrite lookup_insert_ne in Hk by congruence. apply Ha. exact Hk. }
  destruct (IsNewLine p1).
  { destruct (negb prev); [|apply IH; exact Hs].
    eapply yields_bind; [apply closeTop_deep; exact Hs|]. intros st Hst.
    apply IH. exact Hst. }
  destruct (IsOpenTag p1).
  { destruct prev; [apply Herr|].
    eapply yields_bind; [apply yields_True|]. intros p2 _.
    destruct (negb (IsNewLine p2)); [apply Herr|]. apply IH. exact Hs. }
  destruct (IsCloseTag p1).
  { destruct (negb prev); [apply Herr|].
    eapply yields_bind; [apply yields_True|]. intros p2 _.
    destruct (_ && _); [apply Herr|].
    eapply yields_bind; [apply closeTop_deep; exact Hs|]. intros st Hst.
    apply IH. exact Hst. }
  eapply yields_bind; [apply yields_eq|]. intros v Hv.
  eapply yields_bind; [apply stackAt_yields|]. intros g [_ Hg].
  apply IH. eapply deep_update; eauto.
  pose proof (Forall_lookup_1 _ _ _ _ Hs Hg) as Hd.
  apply deep_inv in Hd as [(Hn & Ha & Hvs) _].
  split; [exact Hn|]. split; [exact Ha|]. simpl.
  apply Forall_app. split; [exact Hvs|]. constructor; [|constructor].
  apply (handleValue_built p1). exact Hv.
Qed.

Lemma ParseIntoAst_deep (p : SaxParser) (root : SdlTag) :
  ParseIntoAst ParseFloat p = Ok root -> Forall wellFormed (descendants root).
Proof.
  intros H.
  pose proof (ParseIntoAst_loop_deep (2 * len p + 2) p [SdlTag_zero] true) as Y.
  unfold ParseIntoAst in H. rewrite H in Y. apply Y.
  constructor; [|constructor]. apply deep_intro; [|constructor].
  split; [reflexivity|]. split; [|constructor].
  intros k a Hk. simpl in Hk. rewrite lookup_empty in Hk. discriminate.
Qed.

End WellFormed.

Section TreeExtras.
Variable ParseFloat : string -> PrimFloat.float.

(** X8: the value branch of [ParseIntoAst] never reaches the panic of
    [handleValue].  Every token [Next] returns that is not the end of the
    input, a name, a line end or a brace is one [handleValue] turns into a
    value, and that value is one the package constructors build. *)
Theorem literal_tokens_become_values (s s' : SaxParser) :
  Next s = Ok s' ->
  IsEof s' || IsTagName s' || IsAttributeName s' || IsNewLine s' || IsOpenTag s'
  || IsCloseTag s' = false ->
  exists v, handleValue ParseFloat SdlValue_zero s' = Ok v /\ built v.
Proof.
  intros H Hk.
  assert (Hv : exists v, handleValue ParseFloat SdlValue_zero s' = Ok v).
  { unfold IsEof, IsTagName, IsAttributeName, IsNewLine, IsOpenTag, IsCloseTag in Hk.
    unfold handleValue, SaxParser_IsBinary, SaxParser_IsBool, IsDate, SaxParser_IsDateTime,
      IsDouble, SaxParser_IsFloat, IsInteger, IsLong, SaxParser_IsNull, SaxParser_IsString,
      SaxParser_IsTimeSpan.
    token_cases H; simpl in Hk |- *; try discriminate Hk; eauto;
      intuition (subst; simpl in *; try discriminate; eauto). }
  destruct Hv as [v Hv]. exists v. split; [exact Hv|].
  eapply handleValue_built; eauto.
Qed.

(** X5: in every tree [ParseIntoAst] returns, each tag -- the root, its
    children, and so on down -- carries the qualified name made of its own
    namespace and name. *)
Theorem qualified_names_agree (p : SaxParser) (root g : SdlTag) :
  ParseIntoAst ParseFloat p = Ok root -> g ∈ descendants root ->
  qualify (Namespace g) (Name g) = Ok (QualifiedName g).
Proof.
  intros H Hg. apply ParseIntoAst_deep in H.
  rewrite Forall_forall in H. apply (H g Hg).
Qed.

(** X6: in every tree [ParseIntoAst] returns, each attribute is stored
    under its own qualified name, which is the one made of its namespace and
    name. *)
Theorem attributes_are_keyed_by_qualified_name (p : SaxParser) (root g : SdlTag)
    (k : string) (a : SdlAttribute) :
  ParseIntoAst ParseFloat p = Ok root -> g ∈ descendants root ->
  Attributes g !! k = Some a ->
  AttrQualifiedName a = k /\ qualify (AttrNamespace a) (AttrName a) = Ok k.
Proof.
  intros H Hg Ha. apply ParseIntoAst_deep in H.
  rewrite Forall_forall in H. destruct (H g Hg) as (_ & Hat & _).
  destruct (Hat k a Ha) as (? & ? & _). auto.
Qed.

(** X7: in every tree [ParseIntoAst] returns, each value of a tag and each
    value of an attribute is what one of the package constructors returns:
    its tag and the payload of that variant are set, all other payloads are
    zero.  A binary value holds no bytes. *)
Theorem values_are_built (p : SaxParser) (root g : SdlTag) :
  ParseIntoAst ParseFloat p = Ok root -> g ∈ descendants root ->
  (forall v, v ∈ Values g -> built v)
  /\ (forall k a, Attributes g !! k = Some a -> built (Value a)).
Proof.
  intros H Hg. apply ParseIntoAst_deep in H.
  rewrite Forall_forall in H. destruct (H g Hg) as (_ & Hat & Hv).
  split.
  - rewrite Forall_forall in Hv. exact Hv.
  - intros k a Ha. destruct (Hat k a Ha) as (_ & _ & Hb). exact Hb.
Qed.

End TreeExtras.

(** ** Visiting children *)

Section ForEachProperties.
Context {St : Type}.
Implicit Types (f : SdlTag -> St -> SdlTag * St) (st : St).

Lemma ForEachChild_loop_visits (selected : SdlTag -> bool) f (children : list SdlTag) st :
  let visit := fun c st => if selected c then f c st else (c, st) in
  let r := ForEachChild_loop visit children st in
  let v := ForEachChild_loop f (List.filter selected children) st in
  r = (putBack selected children (fst v), snd v)
  /\ length (fst r) = length children
  /\ (forall i c, children !! i = Some c -> selected c = false -> fst r !! i = Some c)
  /\ (forall i c, children !! i = Some c -> selected c = true ->
        fst r !! i
        = Some (fst (f c (snd (ForEachChild_loop visit (take i children) st))))).
Proof.
  cbv zeta. revert st. induction children as [|c r IH]; intros st; simpl.
  - repeat split; intros i c H; rewrite lookup_nil in H; discriminate.
  - destruct (selected c) eqn:E; simpl.
    + destruct (f c st) as [c' st1] eqn:Ef.
      specialize (IH st1).
      destruct (ForEachChild_loop _ r st1) as [r' st2].
      destruct (ForEachChild_loop f (List.filter selected r) st1) as [r'' st3].
      simpl in *. destruct IH as (H1 & H2 & H3 & H4).
      injection H1 as -> ->.
      split; [reflexivity|]. split; [simpl; lia|]. split.
      * intros [|i] x Hx Hp; simpl in *; [injection Hx as ->; congruence|].
        apply H3; auto.
      * intros [|i] x Hx Hp; simpl in *.
        -- injection Hx as <-. rewrite Ef. reflexivity.
        -- rewrite E, Ef.
           destruct (ForEachChild_loop _ (take i r) st1) as [r3 st4] eqn:E3.
           simpl. rewrite (H4 i x Hx Hp), E3. reflexivity.
    + specialize (IH st).
      destruct (ForEachChild_loop _ r st) as [r' st2].
      destruct (ForEachChild_loop f (List.filter selected r) st) as [r'' st3].
      simpl in *. destruct IH as (H1 & H2 & H3 & H4).
      injection H1 as -> ->.
      split; [reflexivity|]. split; [simpl; lia|]. split.
      * intros [|i] x Hx Hp; simpl in *; [exact Hx|]. apply H3; auto.
      * intros [|i] x Hx Hp; simpl in *; [injection Hx as ->; congruence|].
        rewrite E.
        destruct (ForEachChild_loop _ (take i r) st) as [r3 st4] eqn:E3.
        simpl. rewrite (H4 i x Hx Hp), E3. reflexivity.
Qed.

(** X28: [ForEachChildByName] calls [f] on the children of that name, in
    their order, and on no other child, and what [f] does to a child stays
    in the tag.  The children and the state it leaves are those
    [ForEachChild] leaves on the tag reduced to the children of that name,
    each put back at the place of the child it comes from among the
    children of another name, which are left as they were; no child is
    added or removed.  Child by child: the child at [i], when it has that
    name, is replaced by what [f] makes of it in the state the visit of the
    children before [i] has left. *)
Theorem ForEachChildByName_visits_the_named (g : SdlTag) (name : string) f st :
  (let named := fun c => String.eqb (Name c) name in
   let r := ForEachChild (set_Children g (List.filter named (Children g))) f st in
   ForEachChildByName g name f st = (putBack named (Children g) (fst r), snd r))
  /\ length (fst (ForEachChildByName g name f st)) = length (Children g)
  /\ (forall i c, Children g !! i = Some c -> Name c <> name ->
        fst (ForEachChildByName g name f st) !! i = Some c)
  /\ (forall i c, Children g !! i = Some c -> Name c = name ->
        fst (ForEachChildByName g name f st) !! i
        = Some (fst (f c (snd (ForEachChildByName
                                 (set_Children g (take i (Children g))) name f st))))).
Proof.
  pose proof (ForEachChild_loop_visits
                (fun c => String.eqb (Name c) name) f (Children g) st)
    as (H1 & H2 & H3 & H4).
  split; [exact H1|]. split; [exact H2|]. split.
  - intros i c Hc Hn. apply H3; [exact Hc|]. apply String.eqb_neq. exact Hn.
  - intros i c Hc Hn. apply String.eqb_eq in Hn.
    etransitivity; [exact (H4 i c Hc Hn)|]. destruct g; reflexivity.
Qed.

(** X29: [ForEachChildByNamespace] calls [f] on the children of that
    namespace, in their order, and on no other child, and what [f] does to a
    child stays in the tag.  The children and the state it leaves are those
    [ForEachChild] leaves on the tag reduced to the children of that
    namespace, each put back at the place of the child it comes from; the
    children of another namespace are left as they were and no child is
    added or removed.  Child by child: the child at [i], when it is of that
    namespace, is replaced by what [f] makes of it in the state the visit of
    the children before [i] has left. *)
Theorem ForEachChildByNamespace_visits_the_namespace (g : SdlTag) (namespace : string)
    f st :
  (let spaced := fun c => String.eqb (Namespace c) namespace in
   let r := ForEachChild (set_Children g (List.filter spaced (Children g))) f st in
   ForEachChildByNamespace g namespace f st
   = (putBack spaced (Children g) (fst r), snd r))
  /\ length (fst (ForEachChildByNamespace g namespace f st)) = length (Children g)
  /\ (forall i c, Children g !! i = Some c -> Namespace c <> namespace ->
        fst (ForEachChildByNamespace g namespace f st) !! i = Some c)
  /\ (forall i c, Children g !! i = Some c -> Namespace c = namespace ->
        fst (ForEachChildByNamespace g namespace f st) !! i
        = Some (fst (f c (snd (ForEachChildByNamespace
                                 (set_Children g (take i (Children g))) namespace f st))))).
Proof.
  pose proof (ForEachChild_loop_visits
                (fun c => String.eqb (Namespace c) namespace) f (Children g) st)
    as (H1 & H2 & H3 & H4).
  split; [exact H1|]. split; [exact H2|]. split.
  - intros i c Hc Hn. apply H3; [exact Hc|]. apply String.eqb_neq. exact Hn.
  - intros i c Hc Hn. apply String.eqb_eq in Hn.
    etransitivity; [exact (H4 i c Hc Hn)|]. destruct g; reflexivity.
Qed.

End ForEachProperties.

(** ** The text of string and binary literals *)

Lemma substring_prefix (w r : string) : substring 0 (String.length w) (w ++ r) = w.
Proof.
  induction w as [|c w IH]; simpl.
  - destruct r; reflexivity.
  - change (String c w ++ r) with (String c (w ++ r)). simpl. rewrite IH. reflexivity.
Qed.

Lemma substring_of_suffix (a : nat) (input w r : string) :
  suffix a input = w ++ r -> substring a (String.length w) input = w.
Proof.
  revert input. induction a as [|a IH]; intros input H.
  - simpl in H. subst input. apply substring_prefix.
  - destruct input as [|c i].
    + simpl in H. destruct w; [reflexivity | discriminate].
    + simpl in H. simpl. apply IH. exact H.
Qed.

Lemma append_assoc_1 (w1 w2 : string) (c : ascii) :
  (w1 ++ String c EmptyString) ++ w2 = w1 ++ String c w2.
Proof.
  induction w1 as [|x w1 IH]; [reflexivity|].
  change (String x w1 ++ String c "") with (String x (w1 ++ String c "")).
  change (String x (w1 ++ String c "") ++ w2) with (String x ((w1 ++ String c "") ++ w2)).
  rewrite IH. reflexivity.
Qed.

Lemma append_nil_r (w : string) : w ++ "" = w.
Proof.
  induction w as [|x w IH]; [reflexivity|].
  change (String x w ++ "") with (String x (w ++ "")). rewrite IH. reflexivity.
Qed.

Lemma length_append (w1 w2 : string) :
  String.length (w1 ++ w2) = String.length w1 + String.length w2.
Proof.
  induction w1 as [|x w1 IH]; [reflexivity|].
  change (String x w1 ++ w2) with (String x (w1 ++ w2)). simpl. rewrite IH. reflexivity.
Qed.

Lemma advance_advance (s : SaxParser) (n m : nat) :
  advance (advance s n) m = advance s (n + m).
Proof. destruct s. unfold advance. simpl. f_equal. lia. Qed.

Lemma doubleQuoted_loop_plain (w2 : string) :
  forall (fuel debugStart : nat) (s : SaxParser) (w1 tail : string) (start : nat),
    allChars plainInQuotes w2 = true ->
    String.length w2 < fuel ->
    rest s = w2 ++ String DQUOTE tail ->
    suffix start (Input s) = (w1 ++ w2) ++ String DQUOTE tail ->
    cursor s = start + String.length w1 ->
    doubleQuoted_loop fuel debugStart s "" start
    = Ok (set_text (advance s (String.length w2 + 1)) (w1 ++ w2)).
Proof.
  induction w2 as [|c w2 IH]; intros fuel dbg s w1 tail start Hall Hf Hr Hs Hc.
  - destruct fuel as [|fuel]; [simpl in Hf; lia|].
    change ("" ++ String DQUOTE tail) with (String DQUOTE tail) in Hr.
    apply rest_cons in Hr as (He & Hp & _).
    simpl. rewrite He, Hp. simpl.
    rewrite append_nil_r in *.
    rewrite slice_inside.
    + simpl. replace (cursor s - start) with (String.length w1) by lia.
      rewrite (substring_of_suffix _ _ _ _ Hs). reflexivity.
    + lia.
    + apply eof_false in He. unfold len in He. lia.
  - destruct fuel as [|fuel]; [simpl in Hf; lia|].
    change (String c w2 ++ String DQUOTE tail) with (String c (w2 ++ String DQUOTE tail)) in Hr.
    apply rest_cons in Hr as (He & Hp & Hr).
    simpl in Hall. apply andb_true_iff in Hall as [Hpl Hall].
    unfold plainInQuotes in Hpl.
    apply andb_true_iff in Hpl as [Hpl H3]. apply andb_true_iff in Hpl as [H1 H2].
    apply negb_true_iff in H1, H2, H3.
    simpl. rewrite He, Hp, H1, H2, H3. simpl.
    rewrite (IH fuel dbg (advance s 1) (w1 ++ String c "") tail start); auto.
    + rewrite advance_advance, append_assoc_1. reflexivity.
    + simpl in Hf. lia.
    + rewrite append_assoc_1. exact Hs.
    + simpl. rewrite length_append. simpl. lia.
Qed.

Lemma nextDoubleQuotedString_plain (s : SaxParser) (w tail : string) :
  rest s = String DQUOTE (w ++ String DQUOTE tail) ->
  allChars plainInQuotes w = true ->
  nextDoubleQuotedString s
  = Ok (set_text (set_t (advance s (String.length w + 2)) string_) w).
Proof.
  intros Hr Hall. unfold nextDoubleQuotedString.
  pose proof (f_equal String.length Hr) as Hlen. simpl in Hlen.
  rewrite length_append in Hlen. simpl in Hlen.
  assert (Hle : String.length (rest s) <= String.length (Input s))
    by apply length_suffix.
  apply rest_cons in Hr as (He & Hp & Hr).
  rewrite (doubleQuoted_loop_plain w _ _ _ "" tail (cursor s + 1)); simpl; auto.
  - f_equal. destruct s. unfold advance, set_t, set_text, set_cursor. simpl. f_equal. lia.
  - unfold len. simpl. lia.
Qed.

Lemma backtick_loop_plain (w2 : string) :
  forall (fuel debugStart : nat) (s : SaxParser) (w1 tail : string) (start : nat),
    allChars plainInBackticks w2 = true ->
    String.length w2 < fuel ->
    rest s = w2 ++ String "`" tail ->
    suffix start (Input s) = (w1 ++ w2) ++ String "`" tail ->
    cursor s = start + String.length w1 ->
    backtick_loop fuel debugStart s start
    = Ok (set_text (advance s (String.length w2 + 1)) (w1 ++ w2)).
Proof.
  induction w2 as [|c w2 IH]; intros fuel dbg s w1 tail start Hall Hf Hr Hs Hc.
  - destruct fuel as [|fuel]; [simpl in Hf; lia|].
    change ("" ++ String "`" tail) with (String "`" tail) in Hr.
    apply rest_cons in Hr as (He & Hp & _).
    simpl. rewrite He, Hp. simpl.
    rewrite append_nil_r in *.
    rewrite slice_inside.
    + simpl. replace (cursor s - start) with (String.length w1) by lia.
      rewrite (substring_of_suffix _ _ _ _ Hs). reflexivity.
    + lia.
    + apply eof_false in He. unfold len in He. lia.
  - destruct fuel as [|fuel]; [simpl in Hf; lia|].
    change (String c w2 ++ String "`" tail) with (String c (w2 ++ String "`" tail)) in Hr.
    apply rest_cons in Hr as (He & Hp & Hr).
    simpl in Hall. apply andb_true_iff in Hall as [Hpl Hall].
    unfold plainInBackticks in Hpl.
    apply andb_true_iff in Hpl as [H1 H2].
    apply negb_true_iff in H1, H2.
    simpl. rewrite He, Hp, H1, H2. simpl.
    rewrite (IH fuel dbg (advance s 1) (w1 ++ String c "") tail start); auto.
    + rewrite advance_advance, append_assoc_1. reflexivity.
    + simpl in Hf. lia.
    + rewrite append_assoc_1. exact Hs.
    + simpl. rewrite length_append. simpl. lia.
Qed.

Lemma nextBacktickString_plain (s : SaxParser) (w tail : string) :
  rest s = String "`" (w ++ String "`" tail) ->
  allChars plainInBackticks w = true ->
  nextBacktickString s
  = Ok (set_text (set_t (advance s (String.length w + 2)) string_) w).
Proof.
  intros Hr Hall. unfold nextBacktickString.
  pose proof (f_equal String.length Hr) as Hlen. simpl in Hlen.
  rewrite length_append in Hlen. simpl in Hlen.
  assert (Hle : String.length (rest s) <= String.length (Input s))
    by apply length_suffix.
  apply rest_cons in Hr as (He & Hp & Hr).
  rewrite (backtick_loop_plain w _ _ _ "" tail (cursor s + 1)); simpl; auto.
  - f_equal. destruct s. unfold advance, set_t, set_text, set_cursor. simpl. f_equal. lia.
  - unfold len. simpl. lia.
Qed.

Lemma binary_loop_strips (w2 : string) :
  forall (fuel debugStart : nat) (s : SaxParser) (text_ tail : string),
    allChars notClosing w2 = true ->
    String.length w2 < fuel ->
    rest s = w2 ++ String "]" tail ->
    binary_loop fuel debugStart s text_
    = Ok (set_text (advance s (String.length w2 + 1))
            (text_ ++ keepChars (fun c => negb (blankInBinary c)) w2)).
Proof.
  induction w2 as [|c w2 IH]; intros fuel dbg s text_ tail Hall Hf Hr.
  - destruct fuel as [|fuel]; [simpl in Hf; lia|].
    change ("" ++ String "]" tail) with (String "]" tail) in Hr.
    apply rest_cons in Hr as (He & Hp & _).
    simpl. rewrite He, Hp. simpl. rewrite append_nil_r. reflexivity.
  - destruct fuel as [|fuel]; [simpl in Hf; lia|].
    change (String c w2 ++ String "]" tail) with (String c (w2 ++ String "]" tail)) in Hr.
    apply rest_cons in Hr as (He & Hp & Hr).
    simpl in Hall. apply andb_true_iff in Hall as [H1 Hall].
    unfold notClosing in H1. apply negb_true_iff in H1.
    simpl. rewrite He, Hp, H1. simpl.
    unfold blankInBinary at 1.
    destruct (Ascii.eqb c " " || Ascii.eqb c TAB || Ascii.eqb c LF || Ascii.eqb c CR).
    + simpl. rewrite (IH fuel dbg (advance s 1) text_ tail); auto; [|simpl in Hf; lia].
      rewrite advance_advance. reflexivity.
    + simpl. rewrite (IH fuel dbg (advance s 1) _ tail); auto; [|simpl in Hf; lia].
      rewrite advance_advance. unfold str1. rewrite append_assoc_1. reflexivity.
Qed.

Lemma nextBinary_strips (s : SaxParser) (w tail : string) :
  rest s = String "[" (w ++ String "]" tail) ->
  allChars notClosing w = true ->
  nextBinary s
  = Ok (set_text (set_t (advance s (String.length w + 2)) binary)
          (keepChars (fun c => negb (blankInBinary c)) w)).
Proof.
  intros Hr Hall. unfold nextBinary.
  pose proof (f_equal String.length Hr) as Hlen. simpl in Hlen.
  rewrite length_append in Hlen. simpl in Hlen.
  assert (Hle : String.length (rest s) <= String.length (Input s))
    by apply length_suffix.
  apply rest_cons in Hr as (He & Hp & Hr).
  rewrite (binary_loop_strips w _ _ _ "" tail); simpl; auto.
  - f_equal. destruct s. unfold advance, set_t, set_text, set_cursor. simpl. f_equal. lia.
  - unfold len. simpl. lia.
Qed.

(** ** What [Next] skips *)

Lemma advanceWhile_total (cond : SaxParser -> bool) (fuel : nat) (s : SaxParser) :
  (forall x, cond x = true -> cursor x < len x) -> remaining s <= fuel ->
  exists s', advanceWhile cond fuel s = Ok s' /\ moved s s' /\ cond s' = false
             /\ (forall i, cursor s <= i < cursor s' -> cond (set_cursor s i) = true).
Proof.
  intros Hc. revert s. induction fuel as [|fuel IH]; intros s Hf.
  - destruct (cond s) eqn:E.
    + apply Hc in E. unfold remaining in Hf. lia.
    + exists s. rewrite advanceWhile_stop by exact E.
      split; [reflexivity|]. split; [apply moved_refl|]. split; [exact E|]. lia.
  - destruct (cond s) eqn:E.
    + simpl. rewrite E.
      destruct (IH (advance s 1)) as (s' & HA & Hm & Hc' & Hall).
      { unfold remaining, len in *. simpl. apply Hc in E. unfold len in E. lia. }
      exists s'. split; [exact HA|]. split.
      { eapply moved_trans; [apply (moved_advance s 1)|exact Hm]. }
      split; [exact Hc'|]. intros i Hi.
      destruct (Nat.eq_dec i (cursor s)) as [->|ne].
      * rewrite set_cursor_same. exact E.
      * specialize (Hall i). simpl in Hall. apply Hall. lia.
    + exists s. rewrite advanceWhile_stop by exact E.
      split; [reflexivity|]. split; [apply moved_refl|]. split; [exact E|]. lia.
Qed.

Lemma advanceWhile_fuel (cond : SaxParser -> bool) (f1 f2 : nat) (s : SaxParser) :
  (forall x, cond x = true -> cursor x < len x) ->
  remaining s <= f1 -> remaining s <= f2 ->
  advanceWhile cond f1 s = advanceWhile cond f2 s.
Proof.
  intros Hc H1 H2.
  destruct (advanceWhile_total cond f1 s Hc H1) as (a & Ha & _).
  destruct (advanceWhile_total cond f2 s Hc H2) as (b & Hb & _).
  rewrite Ha, Hb. f_equal.
  revert s f2 a b H1 H2 Ha Hb. induction f1 as [|f1 IH]; intros s f2 a b H1 H2 Ha Hb.
  - destruct (cond s) eqn:E.
    + apply Hc in E. unfold remaining in H1. lia.
    + rewrite advanceWhile_stop in Ha, Hb by exact E. congruence.
  - destruct (cond s) eqn:E.
    + destruct f2 as [|f2]; [apply Hc in E; unfold remaining in H2; lia|].
      simpl in Ha, Hb. rewrite E in Ha, Hb.
      apply (IH (advance s 1) f2); auto;
        unfold remaining, len in *; simpl; apply Hc in E; unfold len in E; lia.
    + rewrite advanceWhile_stop in Ha, Hb by exact E. congruence.
Qed.

Lemma Next_skips_blank (s : SaxParser) :
  isBlank s = true -> Next s = Next (advance s 1).
Proof.
  intros Hb. pose proof (isBlank_inside _ Hb) as Hlt.
  unfold Next. change (len (advance s 1)) with (len s).
  simpl. unfold eatWhite. change (len (advance s 1)) with (len s).
  destruct (len s) as [|n] eqn:El; [lia|].
  simpl. rewrite Hb.
  rewrite (advanceWhile_fuel isBlank n (S n) (advance s 1) isBlank_inside);
    [reflexivity | |]; unfold remaining, len in *; simpl; lia.
Qed.

Lemma Next_skips_continuation (s : SaxParser) :
  Ascii.eqb (peek s 0) "\" && Ascii.eqb (peek s 1) LF = true ->
  Next s = Next (advance s 2).
Proof.
  intros Hc. apply andb_true_iff in Hc as [H0 H1].
  assert (Hlt : cursor s + 1 < len s) by (eapply peek_char; [exact H1 | not_ff]).
  apply Ascii.eqb_eq in H0. apply Ascii.eqb_eq in H1.
  assert (Hb : isBlank s = false).
  { unfold isBlank. rewrite H0. apply andb_false_r. }
  unfold Next at 1. simpl. unfold eatWhite. rewrite advanceWhile_stop by exact Hb.
  simpl.
  assert (He : SaxParser_eof s = false) by (apply Nat.leb_gt; lia).
  assert (Hs : startsComment s = false) by (unfold startsComment; rewrite H0; reflexivity).
  rewrite He, Hs, H0, H1. simpl.
  apply Next_rec_fuel; unfold remaining, len in *; simpl; lia.
Qed.

(** X24: blanks and line continuations produce no token.  On a space or a
    tab, and on a backslash directly followed by a line feed, [Next] returns
    what it returns one, respectively two, characters further. *)
Theorem blanks_and_continuations_are_skipped (s : SaxParser) :
  (isBlank s = true -> Next s = Next (advance s 1))
  /\ (Ascii.eqb (peek s 0) "\" && Ascii.eqb (peek s 1) LF = true ->
      Next s = Next (advance s 2)).
Proof. split; [apply Next_skips_blank | apply Next_skips_continuation]. Qed.

(** X23: a comment produces no token.  Where a comment starts ([//], [--]
    or [#]), [Next] returns what it returns at the end of that line: the
    first position from there on that holds a line feed or is the end of the
    input. *)
Theorem comments_are_skipped (s : SaxParser) :
  startsComment s = true -> SaxParser_eof s = false ->
  exists s2,
    moved s s2 /\ cursor s < cursor s2
    /\ (forall i, cursor s <= i < cursor s2 -> inComment (set_cursor s i) = true)
    /\ inComment s2 = false
    /\ Next s = Next s2.
Proof.
  intros Hs He. pose proof (eof_false _ He) as Hlt.
  destruct (advanceWhile_total inComment (len s) s inComment_inside (remaining_le_len s))
    as (s2 & HA & Hm & Hc & Hall).
  destruct (skipComment_Ok _ _ Hs He HA) as [_ Hgt].
  exists s2. split; [exact Hm|]. split; [exact Hgt|]. split; [exact Hall|].
  split; [exact Hc|].
  assert (Hb : isBlank s = false).
  { unfold isBlank, startsComment in *.
    destruct (Ascii.eqb_spec (peek s 0) " ") as [e|_];
      [rewrite e in Hs; discriminate|].
    destruct (Ascii.eqb_spec (peek s 0) TAB) as [e|_];
      [rewrite e in Hs; discriminate|].
    apply andb_false_r. }
  unfold Next at 1. simpl. unfold eatWhite. rewrite advanceWhile_stop by exact Hb.
  simpl. rewrite He, Hs, HA. simpl.
  pose proof (moved_len _ _ Hm) as Hl.
  apply Next_rec_fuel; unfold remaining; lia.
Qed.

(** ** Reporting a position *)

Lemma index_Ok (w : string) (i : nat) :
  i < String.length w ->
  exists c, index w i = Ok c /\ String.get i w = Some c.
Proof.
  revert i. induction w as [|x w IH]; intros i H; simpl in H; [lia|].
  destruct i as [|i].
  - exists x. split; reflexivity.
  - destruct (IH i) as (c & Hc & Hg); [lia|]. exists c. unfold index in *. simpl.
    rewrite Hg. auto.
Qed.

Lemma getLine_start_Ok (fuel : nat) (input : string) (start : nat) :
  start <= fuel -> start < String.length input ->
  exists r, getLine_start fuel input start = Ok r /\ r <= start
            /\ (r < start -> String.get r input = Some LF \/ r = 0)
            /\ (0 < r -> String.get r input = Some LF).
Proof.
  revert start. induction fuel as [|fuel IH]; intros start Hf Hl.
  - assert (start = 0) by lia. subst. exists 0. simpl. repeat split; auto; lia.
  - simpl. destruct (0 <? start) eqn:E.
    + apply Nat.ltb_lt in E.
      destruct (index_Ok input start Hl) as (c & Hc & Hg). rewrite Hc. simpl.
      destruct (Ascii.eqb_spec c LF) as [->|ne]; simpl.
      * exists start. repeat split; auto; lia.
      * destruct (IH (start - 1)) as (r & Hr & Hle & Hlt & Hpos); [lia | lia|].
        exists r. split; [exact Hr|]. split; [lia|]. split; [|exact Hpos].
        intros _. destruct (Nat.eq_dec r 0) as [->|nz]; [auto|].
        left. apply Hpos. lia.
    + apply Nat.ltb_ge in E. assert (start = 0) by lia. subst.
      exists 0. repeat split; auto; lia.
Qed.

Lemma getLine_end_Ok (fuel : nat) (input : string) (end_ : nat) :
  String.length input - end_ <= fuel -> end_ <= String.length input ->
  exists r, getLine_end fuel input end_ = Ok r /\ end_ <= r /\ r <= String.length input.
Proof.
  revert end_. induction fuel as [|fuel IH]; intros end_ Hf Hl.
  - assert (end_ = String.length input) by lia. subst. exists (String.length input).
    simpl. rewrite Nat.ltb_irrefl. auto.
  - simpl. destruct (end_ <? String.length input) eqn:E.
    + apply Nat.ltb_lt in E.
      destruct (index_Ok input end_ E) as (c & Hc & _). rewrite Hc. simpl.
      destruct (negb (Ascii.eqb c LF) && negb (Ascii.eqb c CR)).
      * destruct (IH (end_ + 1)) as (r & Hr & Hge & Hle); [lia | lia|].
        exists r. split; [exact Hr|]. lia.
      * exists end_. split; [reflexivity|]. lia.
    + exists end_. split; [reflexivity|]. lia.
Qed.

Lemma getLine_count_Ok (input : string) (idx : list nat) (line : nat) :
  Forall (fun i => i < String.length input) idx ->
  exists n, getLine_count input idx line = Ok n /\ line <= n.
Proof.
  revert line. induction idx as [|i idx IH]; intros line H; simpl.
  - exists line. auto.
  - inversion H as [|? ? Hi Hr]; subst.
    destruct (index_Ok input i Hi) as (c & Hc & _). rewrite Hc. simpl.
    destruct (IH (if Ascii.eqb c LF then S line else line) Hr) as (n & Hn & Hle).
    exists n. split; [exact Hn|]. destruct (Ascii.eqb c LF); lia.
Qed.

Lemma getLine_Ok (s : SaxParser) (at_ : nat) :
  0 < len s -> at_ <= len s ->
  String.get 0 (Input s) <> Some LF \/ 0 < at_ ->
  exists line loc ln,
    getLine s at_ = Ok (line, loc, ln) /\ (0 <= loc)%Z /\ 1 <= ln.
Proof.
  intros Hpos Hat H0. unfold getLine. unfold len in *.
  set (input := Input s) in *.
  assert (Hnl : exists nl,
            (if negb (at_ =? 0) && negb (String.length input <=? at_)
             then let* c := index input at_ in Ok (Ascii.eqb c LF)
             else Ok false) = Ok nl
            /\ (nl = false -> at_ < String.length input -> 0 < at_ ->
                String.get at_ input <> Some LF)).
  { destruct (at_ =? 0) eqn:E0; simpl.
    - apply Nat.eqb_eq in E0. exists false. split; [reflexivity|]. lia.
    - destruct (String.length input <=? at_) eqn:E1; simpl.
      + apply Nat.leb_le in E1. exists false. split; [reflexivity|]. lia.
      + apply Nat.leb_gt in E1.
        destruct (index_Ok input at_ E1) as (c & Hc & Hg). rewrite Hc. simpl.
        exists (Ascii.eqb c LF). split; [reflexivity|].
        intros Hn _ _. rewrite Hg. intros [= ->]. rewrite Ascii.eqb_refl in Hn.
        discriminate. }
  destruct Hnl as (nl & -> & Hnl). simpl.
  set (start0 := if negb (at_ =? 0) && ((String.length input <=? at_) || nl)
                 then at_ - 1 else at_).
  assert (Hs0 : start0 < String.length input /\ start0 <= at_
                /\ (start0 = at_ ->
                    at_ = 0 \/ String.get at_ input <> Some LF)).
  { unfold start0. destruct (at_ =? 0) eqn:E0; simpl.
    - apply Nat.eqb_eq in E0. split; [lia|]. split; [lia|]. auto.
    - apply Nat.eqb_neq in E0.
      destruct (String.length input <=? at_) eqn:E1; simpl.
      + split; [lia|]. split; [lia|]. lia.
      + apply Nat.leb_gt in E1. destruct nl.
        * split; [lia|]. split; [lia|]. lia.
        * split; [lia|]. split; [lia|]. intros _. right. apply Hnl; auto. lia. }
  destruct Hs0 as (Hs0 & Hs0le & Hs0eq).
  destruct (getLine_start_Ok start0 input start0 (le_n _) Hs0)
    as (start1 & -> & Hle1 & Hlt1 & Hpos1). simpl.
  destruct (getLine_end_Ok (String.length input) input at_) as (end1 & -> & Hge & Hle);
    [lia | exact Hat|]. simpl.
  destruct (index_Ok input start1) as (c & -> & Hg); [lia|]. simpl.
  set (start2 := if Ascii.eqb c LF then start1 + 1 else start1).
  assert (Hs2 : start2 <= at_ /\ start2 <= String.length input).
  { unfold start2. destruct (Ascii.eqb_spec c LF) as [->|ne]; [|lia].
    assert (start1 < at_); [|lia].
    destruct (Nat.eq_dec start1 at_) as [e|ne]; [|lia].
    exfalso. assert (start0 = at_) by lia.
    destruct (Hs0eq H) as [Hz|Hn].
    - subst at_. assert (start1 = 0) by lia. subst start1.
      destruct H0 as [H0|H0]; [apply H0; exact Hg | lia].
    - apply Hn. rewrite <- e. exact Hg. }
  destruct Hs2 as [Hs2 Hs2l].
  destruct (getLine_count_Ok input (seq 0 start2) 1) as (ln & -> & Hln).
  { apply Forall_forall. intros i Hi. apply elem_of_seq in Hi.
    unfold start2 in *. destruct (Ascii.eqb c LF); lia. }
  simpl. rewrite slice_inside by lia. simpl.
  eexists _, _, _. split; [reflexivity|]. split; [lia | exact Hln].
Qed.

(** X26: reporting a position of the input.  For a position on a non-empty
    input or at its end (but not position 0 of an input that starts with a
    line feed), [getLine] returns a line, a column that is not negative and a
    line number of at least one, and [NewError] returns the error made of
    them: neither panics. *)
Theorem reporting_inside_the_input_never_panics (s : SaxParser) (offset : nat)
    (msg : string) :
  0 < len s -> cursor s + offset <= len s ->
  String.get 0 (Input s) <> Some LF \/ 0 < cursor s + offset ->
  exists line loc ln,
    getLine s (cursor s + offset) = Ok (line, loc, ln) /\ (0 <= loc)%Z /\ 1 <= ln
    /\ NewError s offset msg
       = Ok (mkError [(line, mkLineMetadata (FileName s) ln)] [(0, loc, msg)]).
Proof.
  intros H1 H2 H3.
  destruct (getLine_Ok s (cursor s + offset) H1 H2 H3) as (line & loc & ln & Hg & Hl & Hn).
  exists line, loc, ln. split; [exact Hg|]. split; [exact Hl|]. split; [exact Hn|].
  unfold NewError. rewrite Hg. reflexivity.
Qed.

(** X27: reporting a position past the end of the input panics: [getLine]
    indexes the input at that position minus one, or at 0 when the input is
    empty. *)
Theorem reporting_past_the_input_panics (s : SaxParser) (at_ : nat) :
  len s < at_ -> getLine s at_ = Panic IndexOutOfRange.
Proof.
  intros H. unfold getLine.
  assert (E0 : (at_ =? 0) = false) by (apply Nat.eqb_neq; lia).
  assert (E1 : (len s <=? at_) = true) by (apply Nat.leb_le; lia).
  rewrite E0, E1. simpl.
  assert (Hn : forall i, len s <= i -> index (Input s) i = Panic IndexOutOfRange).
  { intros i Hi. unfold index.
    destruct (String.get i (Input s)) eqn:G; [|reflexivity].
    assert (i < String.length (Input s)); [|unfold len in *; lia].
    clear -G. revert i G. induction (Input s) as [|x w IH]; intros [|i] G;
      simpl in *; try discriminate; try lia.
    apply IH in G. lia. }
  destruct (at_ - 1) as [|n] eqn:En.
  - simpl. assert (len s = 0) by lia.
    unfold len in *. rewrite H0. simpl.
    destruct (at_ <? 0) eqn:E; [apply Nat.ltb_lt in E; lia|].
    destruct (Input s); [reflexivity | discriminate].
  - simpl. rewrite Hn by lia. reflexivity.
Qed.

(** ** Identifiers, line ends, accessors and numbers *)

(** X15: an identifier is read back as written.  When [nextIdentifier]
    returns a tag or attribute name, the qualified name made of
    [AdditionalText] and [Text] is the slice of the input from where the
    identifier started to the cursor, with or without a namespace. *)
Theorem identifier_is_read_back (s s' : SaxParser) :
  isIdentifierStart (peek s 0) = true -> nextIdentifier s = Ok s' ->
  SaxParser_IsBool s' = false -> SaxParser_IsNull s' = false ->
  qualify (AdditionalText s') (Text s') = slice (Input s) (cursor s) (cursor s')
  /\ cursor s < cursor s' /\ cursor s' <= len s.
Proof.
  intros Hs H Hb Hn.
  destruct (nextIdentifier_Ok _ _ Hs H) as (Hin & Hc & Hsh).
  assert (Hl : len s' = len s).
  { destruct Hsh as [[b E]|[E|[E _]]]; rewrite E; reflexivity. }
  unfold inside in Hin. rewrite Hl in Hin.
  destruct Hsh as [[b E]|[E|[_ E]]].
  - rewrite E in Hb. discriminate.
  - rewrite E in Hn. discriminate.
  - auto.
Qed.

(** X25: a carriage return that is not followed by a line feed is an error
    and not a panic: [Next] returns the error that frames the line and
    points behind its end. *)
Theorem stray_carriage_return_is_an_error (s : SaxParser) :
  peek s 0 = CR -> Ascii.eqb (peek s 1) LF = false ->
  exists line loc ln,
    getLine s (cursor s) = Ok (line, loc, ln)
    /\ Next s = Err (mkError [(line ++ " ", mkLineMetadata (FileName s) ln)]
                       [(0, Z.of_nat (String.length line),
                         "Stray \r without a \n following it.")]).
Proof.
  intros H0 H1.
  assert (Hlt : cursor s < len s).
  { pose proof (peek_lt s 0) as P. rewrite Nat.add_0_r in P. apply P. rewrite H0. not_ff. }
  destruct (getLine_Ok s (cursor s)) as (line & loc & ln & Hg & _); [lia | lia | |].
  { destruct (Nat.eq_dec (cursor s) 0) as [e|ne]; [|right; lia].
    left. pose proof (peek_get s 0 CR H0) as G. rewrite Nat.add_0_r, e in G.
    rewrite G; [discriminate | not_ff]. }
  exists line, loc, ln. split; [exact Hg|].
  assert (Hb : isBlank s = false).
  { unfold isBlank. rewrite H0. apply andb_false_r. }
  unfold Next. simpl. unfold eatWhite. rewrite advanceWhile_stop by exact Hb. simpl.
  assert (He : SaxParser_eof s = false) by (apply Nat.leb_gt; lia).
  assert (Hs : startsComment s = false) by (unfold startsComment; rewrite H0; reflexivity).
  rewrite He, Hs, H0, H1. simpl. rewrite Hg. reflexivity.
Qed.

(** X30: the accessors [String], [Int], [TimeSpan], [Bool] and [Binary]
    return what the constructor of their variant stored, and each succeeds
    exactly on the values of its own variant. *)
Theorem accessors_round_trip :
  (forall w, SdlValue_String (String_ w) = (w, None))
  /\ (forall n, SdlValue_Int (Int n) = (n, None))
  /\ (forall d, SdlValue_TimeSpan (TimeSpan d) = (d, None))
  /\ (forall b, SdlValue_Bool (Bool b) = (b, None))
  /\ (forall bs, SdlValue_Binary (Binary bs) = (bs, None))
  /\ (forall v, snd (SdlValue_String v) = None <-> SdlValue_IsString v = true)
  /\ (forall v, snd (SdlValue_Int v) = None <-> SdlValue_IsInt v = true)
  /\ (forall v, snd (SdlValue_TimeSpan v) = None <-> SdlValue_IsTimeSpan v = true)
  /\ (forall v, snd (SdlValue_Bool v) = None <-> SdlValue_IsBool v = true)
  /\ (forall v, snd (SdlValue_Binary v) = None <-> SdlValue_IsBinary v = true).
Proof.
  repeat split; try reflexivity.
  all: unfold SdlValue_String, SdlValue_Int, SdlValue_TimeSpan, SdlValue_Bool,
    SdlValue_Binary;
    match goal with |- context [negb ?b] => destruct b end; simpl; congruence.
Qed.

Lemma length_suffix_exact (n : nat) (input : string) :
  String.length (suffix n input) = String.length input - n.
Proof.
  revert n. induction input as [|c r IH]; intros [|n]; simpl; try lia. apply IH.
Qed.

Lemma isDigit_not (c x : ascii) :
  isDigit c = true -> isDigit x = false -> Ascii.eqb c x = false.
Proof.
  intros Hc Hx. destruct (Ascii.eqb_spec c x) as [->|ne]; [congruence | reflexivity].
Qed.

Lemma numeric_loop_digits (w2 : string) :
  forall (fuel : nat) (s : SaxParser) (tail : string) (d : bool),
    allChars isDigit w2 = true -> endsNumber tail = true ->
    String.length w2 <= fuel ->
    rest s = w2 ++ tail ->
    numeric_loop fuel s d = Ok (advance s (String.length w2), d).
Proof.
  induction w2 as [|c w2 IH]; intros fuel s tail d Hall Ht Hf Hr.
  - change ("" ++ tail) with tail in Hr. simpl.
    assert (E0 : advance s 0 = s).
    { destruct s. unfold advance, set_cursor. simpl. rewrite Nat.add_0_r. reflexivity. }
    rewrite E0.
    destruct tail as [|c r].
    + destruct fuel; simpl; rewrite (rest_nil _ Hr); reflexivity.
    + apply rest_cons in Hr as (He & Hp & _). simpl in Ht.
      assert (Hdot : Ascii.eqb c "." = false /\ isDigit c = false).
      { destruct (Ascii.eqb_spec c " ") as [->|?]; [split; reflexivity|].
        destruct (Ascii.eqb_spec c LF) as [->|?]; [split; reflexivity|].
        destruct (Ascii.eqb_spec c CR) as [->|?]; [split; reflexivity|].
        discriminate. }
      destruct Hdot as [Hdot Hdig].
      destruct fuel; simpl; rewrite He, Hp, Hdot, Hdig; reflexivity.
  - change (String c w2 ++ tail) with (String c (w2 ++ tail)) in Hr.
    apply rest_cons in Hr as (He & Hp & Hr).
    simpl in Hall. apply andb_true_iff in Hall as [Hc Hall].
    destruct fuel as [|fuel]; [simpl in Hf; lia|].
    simpl. rewrite He, Hp, Hc. simpl.
    rewrite (isDigit_not c "." Hc eq_refl).
    rewrite (IH fuel (advance s 1) tail d); auto; [|simpl in Hf; lia].
    rewrite advance_advance. reflexivity.
Qed.

Lemma rest_advance (s : SaxParser) (w tail : string) :
  rest s = w ++ tail -> rest (advance s (String.length w)) = tail.
Proof.
  revert s. induction w as [|c w IH]; intros s H.
  - replace (advance s (String.length "")) with s; [exact H|].
    destruct s. unfold advance, set_cursor. simpl. rewrite Nat.add_0_r. reflexivity.
  - change (String c w ++ tail) with (String c (w ++ tail)) in H.
    apply rest_cons in H as (_ & _ & H). apply IH in H.
    rewrite advance_advance in H. exact H.
Qed.

Lemma nextNumeric_digits (s : SaxParser) (w tail : string) :
  rest s = w ++ tail -> w <> "" -> allChars isDigit w = true ->
  endsNumber tail = true -> Ascii.eqb (peek s 4) "/" = false ->
  nextNumeric s = Ok (set_text (set_t (advance s (String.length w)) integer) w).
Proof.
  intros Hr Hw Hall Ht H4. unfold nextNumeric. rewrite H4.
  assert (H0 : SaxParser_eof s = false /\ Ascii.eqb (peek s 0) "-" = false).
  { destruct w as [|c w]; [contradiction|].
    change (String c w ++ tail) with (String c (w ++ tail)) in Hr.
    apply rest_cons in Hr as (He & Hp & _).
    simpl in Hall. apply andb_true_iff in Hall as [Hc _].
    rewrite Hp, (isDigit_not c "-" Hc eq_refl). auto. }
  destruct H0 as [He Hminus]. rewrite Hminus.
  assert (Hlen : cursor s + (String.length w + String.length tail) = len s).
  { rewrite <- length_append, <- Hr. unfold rest. rewrite length_suffix_exact.
    apply eof_false in He. unfold len in *. lia. }
  rewrite (numeric_loop_digits w (len s) s tail false Hall Ht); [|lia | exact Hr].
  pose proof (rest_advance s w tail Hr) as Hr1.
  set (s1 := advance s (String.length w)) in *.
  assert (Hc1 : cursor s1 = cursor s + String.length w) by reflexivity.
  assert (HI1 : Input s1 = Input s) by reflexivity.
  unfold bind at 1.
  rewrite HI1, slice_inside; [|lia | unfold len in *; lia].
  replace (cursor s1 - cursor s) with (String.length w) by lia.
  rewrite (substring_of_suffix (cursor s) (Input s) w tail Hr).
  unfold bind.
  assert (Hpk : forall x, Ascii.eqb byte_ff x = false -> Ascii.eqb x " " = false ->
                 Ascii.eqb x LF = false -> Ascii.eqb x CR = false ->
                 Ascii.eqb (peek s1 0) x = false).
  { intros x H1 H2 H3 H5. destruct tail as [|y r].
    - rewrite peek_eof; [exact H1|]. apply eof_true. apply rest_nil. exact Hr1.
    - apply rest_cons in Hr1 as (_ & Hy & _). rewrite Hy. simpl in Ht.
      destruct (Ascii.eqb_spec y x) as [->|?]; [|reflexivity].
      rewrite H2, H3, H5 in Ht. discriminate. }
  rewrite (Hpk "d"%char), (Hpk ":"%char) by reflexivity. cbv zeta.
  change (peek (set_t s1 integer) 0) with (peek s1 0).
  rewrite (Hpk "L"%char), (Hpk "F"%char), (Hpk "D"%char) by reflexivity.
  change (SaxParser_eof (set_t s1 integer)) with (SaxParser_eof s1).
  change (peek (set_t s1 integer) 0) with (peek s1 0).
  destruct tail as [|y r].
  - rewrite (rest_nil _ Hr1). reflexivity.
  - apply rest_cons in Hr1 as (He1 & Hy & _). rewrite He1, Hy. simpl in Ht.
    destruct (Ascii.eqb y " "); [reflexivity|].
    destruct (Ascii.eqb y LF); [reflexivity|].
    destruct (Ascii.eqb y CR); [reflexivity | discriminate].
Qed.

(** ** [Next] on a literal *)

(** The choice [Next] makes where a literal can start. *)
Lemma Next_dispatch (s : SaxParser) :
  SaxParser_eof s = false -> isBlank s = false -> startsComment s = false ->
  Ascii.eqb (peek s 0) LF = false -> Ascii.eqb (peek s 0) CR = false ->
  Ascii.eqb (peek s 0) "\" = false -> isIdentifierStart (peek s 0) = false ->
  Ascii.eqb (peek s 0) "{" = false -> Ascii.eqb (peek s 0) "}" = false ->
  isTagPosition s = false ->
  Next s
  = if Ascii.eqb (peek s 0) DQUOTE then nextDoubleQuotedString s
    else if Ascii.eqb (peek s 0) "`" then nextBacktickString s
    else if Ascii.eqb (peek s 0) "[" then nextBinary s
    else if isDigit (peek s 0) || Ascii.eqb (peek s 0) "-" then nextNumeric s
    else fail_at s (cursor s) "Unexpected character.".
Proof.
  intros He Hb Hc HLF HCR Hbs Hid Ho Hcl Htag.
  unfold Next. simpl. unfold eatWhite. rewrite advanceWhile_stop by exact Hb. simpl.
  rewrite He, Hc, HLF, HCR, Hbs, Hid, Ho, Hcl, Htag. reflexivity.
Qed.

Lemma Next_dispatch_char (s : SaxParser) (c : ascii) (r : string) :
  rest s = String c r -> isTagPosition s = false ->
  Ascii.eqb c " " || Ascii.eqb c TAB || Ascii.eqb c "/" || Ascii.eqb c "-"
  || Ascii.eqb c "#" || Ascii.eqb c LF || Ascii.eqb c CR || Ascii.eqb c "\"
  || isIdentifierStart c || Ascii.eqb c "{" || Ascii.eqb c "}" = false ->
  Next s
  = if Ascii.eqb c DQUOTE then nextDoubleQuotedString s
    else if Ascii.eqb c "`" then nextBacktickString s
    else if Ascii.eqb c "[" then nextBinary s
    else if isDigit c || Ascii.eqb c "-" then nextNumeric s
    else fail_at s (cursor s) "Unexpected character.".
Proof.
  intros Hr Htag Hc. apply rest_cons in Hr as (He & Hp & _).
  repeat (apply orb_false_iff in Hc as [Hc ?]).
  rewrite Next_dispatch; rewrite ?Hp; auto.
  - unfold isBlank. rewrite Hp, Hc, H8. simpl. apply andb_false_r.
  - unfold startsComment. rewrite Hp, H7, H6, H5. reflexivity.
Qed.

(** X11: a double-quoted string without escapes.  After a tag or a value,
    on a quote, a text [w] without backslash, quote and line feed, and a
    quote, [Next] returns a String token whose text is [w], with the cursor
    behind the closing quote. *)
Theorem Next_reads_quoted_string (s : SaxParser) (w tail : string) :
  isTagPosition s = false ->
  rest s = String DQUOTE (w ++ String DQUOTE tail) ->
  allChars plainInQuotes w = true ->
  Next s = Ok (set_text (set_t (advance s (String.length w + 2)) string_) w).
Proof.
  intros Htag Hr Hall.
  rewrite (Next_dispatch_char s _ _ Hr Htag eq_refl). simpl.
  apply (nextDoubleQuotedString_plain s w tail); assumption.
Qed.

(** X12: a backtick string.  After a tag or a value, on a backtick, a text
    [w] without backtick and carriage return, and a backtick, [Next] returns
    a String token whose text is [w] as written: backslashes and line feeds
    are kept. *)
Theorem Next_reads_backtick_string (s : SaxParser) (w tail : string) :
  isTagPosition s = false ->
  rest s = String "`" (w ++ String "`" tail) ->
  allChars plainInBackticks w = true ->
  Next s = Ok (set_text (set_t (advance s (String.length w + 2)) string_) w).
Proof.
  intros Htag Hr Hall.
  rewrite (Next_dispatch_char s _ _ Hr Htag eq_refl). simpl.
  apply (nextBacktickString_plain s w tail); assumption.
Qed.

(** X13: a binary literal.  After a tag or a value, on an opening bracket,
    a text [w] without closing bracket, and a closing bracket, [Next]
    returns a Binary token whose text is [w] without its spaces, tabs, line
    feeds and carriage returns. *)
Theorem Next_reads_binary (s : SaxParser) (w tail : string) :
  isTagPosition s = false ->
  rest s = String "[" (w ++ String "]" tail) ->
  allChars notClosing w = true ->
  Next s = Ok (set_text (set_t (advance s (String.length w + 2)) binary)
                 (keepChars (fun c => negb (blankInBinary c)) w)).
Proof.
  intros Htag Hr Hall.
  rewrite (Next_dispatch_char s _ _ Hr Htag eq_refl). simpl.
  apply (nextBinary_strips s w tail); assumption.
Qed.

Lemma isDigit_dispatch (c : ascii) :
  isDigit c = true ->
  Ascii.eqb c " " || Ascii.eqb c TAB || Ascii.eqb c "/" || Ascii.eqb c "-"
  || Ascii.eqb c "#" || Ascii.eqb c LF || Ascii.eqb c CR || Ascii.eqb c "\"
  || isIdentifierStart c || Ascii.eqb c "{" || Ascii.eqb c "}" = false
  /\ Ascii.eqb c DQUOTE = false /\ Ascii.eqb c "`" = false /\ Ascii.eqb c "[" = false.
Proof.
  intros H.
  assert (Hx : forall x, isDigit x = false -> Ascii.eqb c x = false)
    by (intros x; apply isDigit_not; exact H).
  rewrite !Hx by reflexivity.
  assert (Hid : isIdentifierStart c = false).
  { unfold isDigit, isIdentifierStart, between in *.
    apply andb_true_iff in H as [H1 H2].
    apply Nat.leb_le in H1. apply Nat.leb_le in H2.
    change (nat_of_ascii "0") with 48 in H1. change (nat_of_ascii "9") with 57 in H2.
    change (nat_of_ascii "a") with 97. change (nat_of_ascii "z") with 122.
    change (nat_of_ascii "A") with 65. change (nat_of_ascii "Z") with 90.
    rewrite (Hx "_"%char eq_refl).
    destruct (97 <=? nat_of_ascii c) eqn:E1; [apply Nat.leb_le in E1; lia|].
    destruct (65 <=? nat_of_ascii c) eqn:E2; [apply Nat.leb_le in E2; lia|].
    reflexivity. }
  rewrite Hid. auto.
Qed.

(** X14: an integer literal.  After a tag or a value, on a non-empty run of
    digits [w] that is followed by a space, a line end or the end of the
    input, [Next] returns an Integer token whose text is [w], provided the
    fifth character from the start of the number is not a slash (which
    makes [nextNumeric] read a date). *)
Theorem Next_reads_integer (s : SaxParser) (w tail : string) :
  isTagPosition s = false ->
  rest s = w ++ tail -> w <> "" -> allChars isDigit w = true ->
  endsNumber tail = true -> Ascii.eqb (peek s 4) "/" = false ->
  Next s = Ok (set_text (set_t (advance s (String.length w)) integer) w).
Proof.
  intros Htag Hr Hw Hall Ht H4.
  destruct w as [|c w]; [contradiction|].
  pose proof Hall as Hall0. simpl in Hall0. apply andb_true_iff in Hall0 as [Hc _].
  destruct (isDigit_dispatch c Hc) as (Hd & H1 & H2 & H3).
  rewrite (Next_dispatch_char s c (w ++ tail) Hr Htag Hd).
  rewrite H1, H2, H3, Hc. simpl.
  apply (nextNumeric_digits s (String c w) tail); assumption.
Qed.

(** ** [Next] on a name *)

Lemma advanceWhile_identifier (w2 : string) :
  forall (fuel : nat) (s : SaxParser) (tail : string),
    allChars isIdentifierContinue w2 = true -> endsName tail = true ->
    String.length w2 <= fuel -> rest s = w2 ++ tail ->
    advanceWhile identifierContinues fuel s = Ok (advance s (String.length w2)).
Proof.
  induction w2 as [|c w2 IH]; intros fuel s tail Hall Ht Hf Hr.
  - change ("" ++ tail) with tail in Hr.
    assert (E0 : advance s 0 = s).
    { destruct s. unfold advance, set_cursor. simpl. rewrite Nat.add_0_r. reflexivity. }
    simpl String.length. rewrite E0. apply advanceWhile_stop.
    unfold identifierContinues. destruct tail as [|c r].
    + rewrite peek_eof; [reflexivity|]. apply eof_true. apply rest_nil. exact Hr.
    + apply rest_cons in Hr as (_ & Hp & _). rewrite Hp. simpl in Ht.
      apply andb_true_iff in Ht as [Ht _]. apply negb_true_iff in Ht. exact Ht.
  - change (String c w2 ++ tail) with (String c (w2 ++ tail)) in Hr.
    apply rest_cons in Hr as (He & Hp & Hr).
    simpl in Hall. apply andb_true_iff in Hall as [Hc Hall].
    destruct fuel as [|fuel]; [simpl in Hf; lia|].
    simpl. unfold identifierContinues at 1. rewrite Hp, Hc.
    rewrite (IH fuel (advance s 1) tail); auto; [|simpl in Hf; lia].
    rewrite advance_advance. reflexivity.
Qed.

Lemma isName_inv (w : string) :
  isName w = true ->
  exists c r, w = String c r /\ isIdentifierStart c = true
              /\ allChars isIdentifierContinue w = true /\ isKeyword w = false.
Proof.
  unfold isName. intros H. apply andb_true_iff in H as [H Hk].
  apply negb_true_iff in Hk. destruct w as [|c r]; [discriminate|].
  apply andb_true_iff in H as [Hc Hr]. exists c, r.
  repeat split; auto. simpl. rewrite (start_continue _ Hc), Hr. reflexivity.
Qed.

Lemma nextIdentifier_name (s : SaxParser) (w tail : string) :
  rest s = w ++ tail -> isName w = true -> endsName tail = true ->
  nextIdentifier s
  = Ok (set_addText
          (set_text
             (set_t (advance s (String.length w))
                (if isTagPosition s then tagName else attributeName)) w) "").
Proof.
  intros Hr Hn Ht. destruct (isName_inv w Hn) as (c & r & Hw & Hc & Hall & Hk).
  unfold nextIdentifier.
  set (k := if isTagPosition s then tagName else attributeName).
  assert (E0 : (if isTagPosition s then set_t s tagName else set_t s attributeName)
               = set_t s k).
  { unfold k. destruct (isTagPosition s); reflexivity. }
  rewrite E0. clear E0.
  assert (He : SaxParser_eof s = false).
  { rewrite Hw in Hr. change (String c r ++ tail) with (String c (r ++ tail)) in Hr.
    apply rest_cons in Hr as (He & _). exact He. }
  assert (Hlen : cursor s + (String.length w + String.length tail) = len s).
  { rewrite <- length_append, <- Hr. unfold rest. rewrite length_suffix_exact.
    apply eof_false in He. unfold len in *. lia. }
  rewrite (advanceWhile_identifier w (len (set_t s k)) (set_t s k) tail Hall Ht);
    [| unfold len in *; simpl; lia | exact Hr].
  unfold bind at 1.
  pose proof (rest_advance s w tail Hr) as Hr1.
  set (s1 := advance (set_t s k) (String.length w)) in *.
  assert (Hr1' : rest s1 = tail) by exact Hr1.
  change (cursor (set_t s k)) with (cursor s).
  change (Input s1) with (Input s).
  rewrite slice_inside; [|simpl; lia | simpl; unfold len in *; lia].
  replace (cursor s1 - cursor s) with (String.length w) by (simpl; lia).
  rewrite (substring_of_suffix (cursor s) (Input s) w tail Hr).
  unfold bind at 1.
  unfold isKeyword in Hk. repeat (apply orb_false_iff in Hk as [Hk ?]).
  rewrite Hk, H, H0, H1, H2. simpl.
  assert (Hcolon : Ascii.eqb (peek s1 0) ":" = false).
  { destruct tail as [|y z].
    - rewrite peek_eof; [reflexivity|]. apply eof_true. apply rest_nil. exact Hr1'.
    - apply rest_cons in Hr1' as (_ & Hy & _). rewrite Hy. simpl in Ht.
      apply andb_true_iff in Ht as [_ Ht]. apply negb_true_iff in Ht. exact Ht. }
  rewrite Hcolon. reflexivity.
Qed.

Lemma isIdentifierStart_dispatch (c : ascii) :
  isIdentifierStart c = true ->
  Ascii.eqb c " " = false /\ Ascii.eqb c TAB = false /\ Ascii.eqb c "/" = false
  /\ Ascii.eqb c "-" = false /\ Ascii.eqb c "#" = false /\ Ascii.eqb c LF = false
  /\ Ascii.eqb c CR = false /\ Ascii.eqb c "\" = false.
Proof.
  intros H.
  assert (Hx : forall x, isIdentifierStart x = false -> Ascii.eqb c x = false).
  { intros x Hx. destruct (Ascii.eqb_spec c x) as [->|ne]; [congruence | reflexivity]. }
  repeat split; apply Hx; reflexivity.
Qed.

Lemma Next_identifier (s : SaxParser) :
  isIdentifierStart (peek s 0) = true ->
  Next s
  = let* s' := nextIdentifier s in
    if bool_decide (t s' = attributeName) then
      if negb (Ascii.eqb (peek s' 0) "=") then
        fail_at s' (cursor s') "Expected '=' following attribute name"
      else Ok (advance s' 1)
    else Ok s'.
Proof.
  intros Hid.
  destruct (isIdentifierStart_dispatch _ Hid) as (H1 & H2 & H3 & H4 & H5 & H6 & H7 & H8).
  assert (Hlt : cursor s < len s).
  { pose proof (peek_lt s 0) as P. rewrite Nat.add_0_r in P. apply P.
    apply isIdentifierStart_not_ff. exact Hid. }
  assert (Hb : isBlank s = false).
  { unfold isBlank. rewrite H1, H2. apply andb_false_r. }
  unfold Next. simpl. unfold eatWhite. rewrite advanceWhile_stop by exact Hb. simpl.
  assert (He : SaxParser_eof s = false) by (apply Nat.leb_gt; lia).
  assert (Hs : startsComment s = false).
  { unfold startsComment. rewrite H3, H4, H5. reflexivity. }
  rewrite He, Hs, H6, H7, H8, Hid. reflexivity.
Qed.

Lemma Next_reads_tag_name (s : SaxParser) (w tail : string) :
  isTagPosition s = true ->
  rest s = w ++ tail -> isName w = true -> endsName tail = true ->
  Next s = Ok (set_addText (set_text (set_t (advance s (String.length w)) tagName) w) "").
Proof.
  intros Htag Hr Hn Ht.
  destruct (isName_inv w Hn) as (c & r & Hw & Hc & _).
  assert (Hp : peek s 0 = c).
  { rewrite Hw in Hr. change (String c r ++ tail) with (String c (r ++ tail)) in Hr.
    apply rest_cons in Hr as (_ & Hp & _). exact Hp. }
  rewrite Next_identifier by (rewrite Hp; exact Hc).
  rewrite (nextIdentifier_name s w tail Hr Hn Ht), Htag. reflexivity.
Qed.

Lemma Next_reads_attribute_name (s : SaxParser) (w tail : string) :
  isTagPosition s = false ->
  rest s = w ++ String "=" tail -> isName w = true ->
  Next s
  = Ok (set_addText
          (set_text (set_t (advance s (String.length w + 1)) attributeName) w) "").
Proof.
  intros Htag Hr Hn.
  destruct (isName_inv w Hn) as (c & r & Hw & Hc & _).
  assert (Hp : peek s 0 = c).
  { pose proof Hr as Hr0. rewrite Hw in Hr0.
    change (String c r ++ String "=" tail) with (String c (r ++ String "=" tail)) in Hr0.
    apply rest_cons in Hr0 as (_ & Hp & _). exact Hp. }
  rewrite Next_identifier by (rewrite Hp; exact Hc).
  rewrite (nextIdentifier_name s w (String "=" tail) Hr Hn eq_refl), Htag.
  unfold bind. simpl bool_decide.
  pose proof (rest_advance s w _ Hr) as Hr1.
  apply rest_cons in Hr1 as (_ & Heq & _).
  change (peek (set_addText (set_text (set_t (advance s (String.length w)) attributeName) w)
                  "") 0)
    with (peek (advance s (String.length w)) 0).
  rewrite Heq. simpl. f_equal.
  destruct s. unfold advance, set_addText, set_text, set_t, set_cursor. simpl.
  f_equal. lia.
Qed.

(** ** Whole lines *)

Lemma Next_LF (s : SaxParser) (tail : string) :
  rest s = String LF tail -> Next s = Ok (set_t (advance s 1) newLine).
Proof.
  intros Hr. apply rest_cons in Hr as (He & Hp & _).
  assert (Hb : isBlank s = false).
  { unfold isBlank. rewrite Hp. apply andb_false_r. }
  unfold Next. simpl. unfold eatWhite. rewrite advanceWhile_stop by exact Hb. simpl.
  assert (Hs : startsComment s = false) by (unfold startsComment; rewrite Hp; reflexivity).
  rewrite He, Hs, Hp. reflexivity.
Qed.

Lemma Next_end (s : SaxParser) : rest s = "" -> Next s = Ok (set_t s eof).
Proof. intros Hr. apply Next_at_eof. apply eof_true. apply rest_nil. exact Hr. Qed.

Lemma append_assoc (a b c : string) : (a ++ b) ++ c = a ++ b ++ c.
Proof.
  induction a as [|x a IH]; [reflexivity|].
  change (String x a ++ b) with (String x (a ++ b)).
  change (String x (a ++ b) ++ c) with (String x ((a ++ b) ++ c)).
  rewrite IH. reflexivity.
Qed.

Section Lines.
Variable ParseFloat : string -> PrimFloat.float.

Lemma loop_tag (fuel : nat) (p p1 : SaxParser) (stack : list SdlTag) (q : string) :
  Next p = Ok p1 -> t p1 = tagName ->
  qualify (AdditionalText p1) (Text p1) = Ok q ->
  ParseIntoAst_loop ParseFloat (S fuel) p stack true
  = ParseIntoAst_loop ParseFloat fuel p1
      (stack ++ [mkSdlTag (AdditionalText p1) (Text p1) q [] ∅ []]) false.
Proof.
  intros HN Ht Hq. simpl. rewrite HN. simpl.
  unfold IsEof, IsTagName. rewrite Ht. simpl. rewrite Hq. reflexivity.
Qed.

Lemma loop_value (fuel : nat) (p p1 : SaxParser) (stack : list SdlTag) (g : SdlTag)
    (prev : bool) (v : SdlValue) :
  Next p = Ok p1 ->
  IsEof p1 || IsTagName p1 || IsAttributeName p1 || IsNewLine p1 || IsOpenTag p1
  || IsCloseTag p1 = false ->
  handleValue ParseFloat SdlValue_zero p1 = Ok v ->
  ParseIntoAst_loop ParseFloat (S fuel) p (stack ++ [g]) prev
  = ParseIntoAst_loop ParseFloat fuel p1
      (stack ++ [set_Values g (Values g ++ [v])]) false.
Proof.
  intros HN Hk Hv. simpl. rewrite HN. simpl.
  repeat (apply orb_false_iff in Hk as [Hk ?]).
  rewrite Hk, H3, H2, H1, H0, H, Hv. simpl.
  unfold stackAt. rewrite length_app. simpl.
  replace (Z.of_nat (length stack + 1) - 1)%Z with (Z.of_nat (length stack)) by lia.
  destruct (Z.of_nat (length stack) <? 0)%Z eqn:E; [apply Z.ltb_lt in E; lia|].
  rewrite Nat2Z.id, (list_lookup_middle stack [] g (length stack) eq_refl). simpl.
  rewrite insert_app_r_alt by lia. rewrite Nat.sub_diag. reflexivity.
Qed.

Lemma loop_line_end (fuel : nat) (p p1 : SaxParser) (stack : list SdlTag)
    (parent child : SdlTag) :
  Next p = Ok p1 -> t p1 = newLine ->
  ParseIntoAst_loop ParseFloat (S fuel) p (stack ++ [parent; child]) false
  = ParseIntoAst_loop ParseFloat fuel p1
      (stack ++ [set_Children parent (Children parent ++ [child])]) true.
Proof.
  intros HN Ht. simpl. rewrite HN. simpl.
  unfold IsEof, IsTagName, IsAttributeName, IsNewLine. rewrite Ht. simpl.
  rewrite closeTop_stack. reflexivity.
Qed.

Lemma loop_eof (fuel : nat) (p p1 : SaxParser) (root : SdlTag) (stack : list SdlTag)
    (prev : bool) :
  Next p = Ok p1 -> t p1 = eof ->
  ParseIntoAst_loop ParseFloat (S fuel) p (root :: stack) prev = Ok root.
Proof.
  intros HN Ht. simpl. rewrite HN. simpl. unfold IsEof. rewrite Ht. reflexivity.
Qed.

Lemma loop_attribute (fuel : nat) (p p1 p2 : SaxParser) (stack : list SdlTag)
    (g : SdlTag) (prev : bool) (q : string) (v : SdlValue) :
  Next p = Ok p1 -> t p1 = attributeName ->
  qualify (AdditionalText p1) (Text p1) = Ok q ->
  Next p1 = Ok p2 -> handleValue ParseFloat SdlValue_zero p2 = Ok v ->
  ParseIntoAst_loop ParseFloat (S fuel) p (stack ++ [g]) prev
  = ParseIntoAst_loop ParseFloat fuel p2
      (stack ++ [set_Attributes g
                   (<[q := mkSdlAttribute (AdditionalText p1) (Text p1) q v]>
                      (Attributes g))]) false.
Proof.
  intros HN Ht Hq HN2 Hv. simpl. rewrite HN. simpl.
  unfold IsEof, IsTagName, IsAttributeName. rewrite Ht. simpl.
  rewrite Hq. simpl. rewrite HN2. simpl. rewrite Hv. simpl.
  unfold stackAt. rewrite length_app. simpl.
  replace (Z.of_nat (length stack + 1) - 1)%Z with (Z.of_nat (length stack)) by lia.
  destruct (Z.of_nat (length stack) <? 0)%Z eqn:E; [apply Z.ltb_lt in E; lia|].
  rewrite Nat2Z.id, (list_lookup_middle stack [] g (length stack) eq_refl). simpl.
  rewrite insert_app_r_alt by lia. rewrite Nat.sub_diag. reflexivity.
Qed.

Lemma loop_open (fuel : nat) (p p1 p2 : SaxParser) (stack : list SdlTag) :
  Next p = Ok p1 -> t p1 = openTag -> Next p1 = Ok p2 -> t p2 = newLine ->
  ParseIntoAst_loop ParseFloat (S fuel) p stack false
  = ParseIntoAst_loop ParseFloat fuel p2 stack true.
Proof.
  intros HN Ht HN2 Ht2. simpl. rewrite HN. simpl.
  unfold IsEof, IsTagName, IsAttributeName, IsNewLine, IsOpenTag. rewrite Ht. simpl.
  rewrite HN2. simpl. rewrite Ht2. reflexivity.
Qed.

Lemma loop_close (fuel : nat) (p p1 p2 : SaxParser) (stack : list SdlTag)
    (parent child : SdlTag) :
  Next p = Ok p1 -> t p1 = closeTag -> Next p1 = Ok p2 ->
  IsNewLine p2 || IsEof p2 = true ->
  ParseIntoAst_loop ParseFloat (S fuel) p (stack ++ [parent; child]) true
  = ParseIntoAst_loop ParseFloat fuel p2
      (stack ++ [set_Children parent (Children parent ++ [child])]) true.
Proof.
  intros HN Ht HN2 Ht2. simpl. rewrite HN. simpl.
  unfold IsEof at 1, IsTagName, IsAttributeName, IsNewLine at 1, IsOpenTag, IsCloseTag.
  rewrite Ht. simpl. rewrite HN2. simpl.
  apply orb_true_iff in Ht2.
  assert (E : negb (IsNewLine p2) && negb (IsEof p2) = false).
  { destruct Ht2 as [-> | ->]; [reflexivity | apply andb_false_r]. }
  rewrite E, closeTop_stack. reflexivity.
Qed.

Lemma Next_brace (s : SaxParser) (tail : string) :
  (rest s = String "{" tail ->
   Next s = Ok (advance (set_text (set_t s openTag) "{") 1))
  /\ (rest s = String "}" tail ->
      Next s = Ok (advance (set_text (set_t s closeTag) "}") 1)).
Proof.
  split; intros Hr; apply rest_cons in Hr as (He & Hp & _);
    (assert (Hb : isBlank s = false)
       by (unfold isBlank; rewrite Hp; apply andb_false_r));
    unfold Next; simpl; unfold eatWhite; rewrite advanceWhile_stop by exact Hb; simpl;
    (assert (Hs : startsComment s = false)
       by (unfold startsComment; rewrite Hp; reflexivity));
    rewrite He, Hs, Hp; reflexivity.
Qed.

(** X4: a line that holds one name parses to a root with one child: the tag
    of that name, without namespace, values, attributes or children. *)
Theorem parses_a_tag_line (w name : string) :
  isName w = true ->
  ParseIntoAst ParseFloat (newSaxParser (w ++ str1 LF) name)
  = Ok (mkSdlTag "" "" "" [mkSdlTag "" w w [] ∅ []] ∅ []).
Proof.
  intros Hn. destruct (isName_inv w Hn) as (c & r & Hw & Hc & _).
  set (p0 := newSaxParser (w ++ str1 LF) name).
  assert (Hr0 : rest p0 = w ++ str1 LF) by reflexivity.
  assert (Hp0 : peek p0 0 = c).
  { pose proof Hr0 as H. rewrite Hw in H.
    change (String c r ++ str1 LF) with (String c (r ++ str1 LF)) in H.
    apply rest_cons in H as (_ & Hp & _). exact Hp. }
  set (p1 := set_addText (set_text (set_t (advance p0 (String.length w)) tagName) w) "").
  assert (H1 : Next p0 = Ok p1).
  { rewrite Next_identifier by (rewrite Hp0; exact Hc).
    rewrite (nextIdentifier_name p0 w (str1 LF) Hr0 Hn eq_refl). reflexivity. }
  assert (Hr1 : rest p1 = str1 LF) by exact (rest_advance p0 w _ Hr0).
  set (p2 := set_t (advance p1 1) newLine).
  assert (H2 : Next p1 = Ok p2) by exact (Next_LF p1 "" Hr1).
  assert (Hr2 : rest p2 = "").
  { apply rest_cons in Hr1 as (_ & _ & H). exact H. }
  assert (H3 : Next p2 = Ok (set_t p2 eof)) by exact (Next_end p2 Hr2).
  unfold ParseIntoAst.
  assert (Hf : exists f, 2 * len p0 + 2 = S (S (S f))).
  { exists (2 * len p0 - 1). unfold len, p0. simpl. rewrite length_append, Hw. simpl. lia. }
  destruct Hf as [f ->].
  rewrite (loop_tag _ p0 p1 [SdlTag_zero] w H1 eq_refl (qualify_plain w)).
  simpl app.
  pose proof (loop_line_end (S f) p1 p2 [] SdlTag_zero
                (mkSdlTag (AdditionalText p1) (Text p1) w [] ∅ []) H2 eq_refl) as E2.
  simpl app in E2. rewrite E2.
  rewrite (loop_eof _ p2 _ _ [] true H3 eq_refl). reflexivity.
Qed.

(** X1: a name and a double-quoted string on one line -- a name-value
    pair -- parse to a root with one child: the tag of that name, whose only
    value is the string.  [w] is any identifier that is not a keyword, [v]
    any text without backslash, quote and line feed. *)
Theorem parses_a_name_value_line (w v name : string) :
  isName w = true -> allChars plainInQuotes v = true ->
  ParseIntoAst ParseFloat
    (newSaxParser (w ++ " " ++ dq ++ v ++ dq ++ str1 LF) name)
  = Ok (mkSdlTag "" "" "" [mkSdlTag "" w w [] ∅ [String_ v]] ∅ []).
Proof.
  intros Hn Hv. destruct (isName_inv w Hn) as (c & r & Hw & Hc & _).
  set (line := " " ++ dq ++ v ++ dq ++ str1 LF).
  set (p0 := newSaxParser (w ++ line) name).
  assert (Hr0 : rest p0 = w ++ line) by reflexivity.
  assert (Hp0 : peek p0 0 = c).
  { pose proof Hr0 as H. rewrite Hw in H.
    change (String c r ++ line) with (String c (r ++ line)) in H.
    apply rest_cons in H as (_ & Hp & _). exact Hp. }
  set (p1 := set_addText (set_text (set_t (advance p0 (String.length w)) tagName) w) "").
  assert (H1 : Next p0 = Ok p1).
  { rewrite Next_identifier by (rewrite Hp0; exact Hc).
    rewrite (nextIdentifier_name p0 w line Hr0 Hn eq_refl). reflexivity. }
  assert (Hr1 : rest p1 = String " " (String DQUOTE (v ++ String DQUOTE (str1 LF))))
    by exact (rest_advance p0 w _ Hr0).
  set (p2 := set_text (set_t (advance (advance p1 1) (String.length v + 2)) string_) v).
  assert (H2 : Next p1 = Ok p2).
  { pose proof (rest_cons _ _ _ Hr1) as (He & Hp & Hr).
    rewrite Next_skips_blank by (unfold isBlank; rewrite He, Hp; reflexivity).
    rewrite (Next_dispatch_char _ _ _ Hr eq_refl eq_refl). simpl.
    apply (nextDoubleQuotedString_plain _ v (str1 LF) Hr Hv). }
  assert (Hr2 : rest p2 = str1 LF).
  { pose proof (rest_cons _ _ _ Hr1) as (_ & _ & Hr).
    assert (Hr' : rest (advance p1 1)
                  = String DQUOTE (v ++ String DQUOTE "") ++ str1 LF).
    { rewrite Hr.
      change (String DQUOTE (v ++ String DQUOTE "") ++ str1 LF)
        with (String DQUOTE ((v ++ String DQUOTE "") ++ str1 LF)).
      rewrite append_assoc. reflexivity. }
    apply rest_advance in Hr'.
    simpl String.length in Hr'. rewrite length_append in Hr'. simpl in Hr'.
    replace (S (String.length v + 1)) with (String.length v + 2) in Hr' by lia.
    exact Hr'. }
  set (p3 := set_t (advance p2 1) newLine).
  assert (H3 : Next p2 = Ok p3) by exact (Next_LF p2 "" Hr2).
  assert (Hr3 : rest p3 = "").
  { apply rest_cons in Hr2 as (_ & _ & H). exact H. }
  assert (H4 : Next p3 = Ok (set_t p3 eof)) by exact (Next_end p3 Hr3).
  unfold ParseIntoAst.
  assert (Hf : exists f, 2 * len p0 + 2 = S (S (S (S f)))).
  { exists (2 * len p0 - 2). unfold len, p0. simpl. rewrite length_append, Hw. simpl. lia. }
  destruct Hf as [f ->].
  rewrite (loop_tag _ p0 p1 [SdlTag_zero] w H1 eq_refl (qualify_plain w)).
  rewrite (loop_value _ p1 p2 [SdlTag_zero] _ false (String_ v) H2 eq_refl eq_refl).
  simpl app.
  pose proof (loop_line_end (S f) p2 p3 [] SdlTag_zero
                (set_Values (mkSdlTag (AdditionalText p1) (Text p1) w [] ∅ [])
                   [String_ v]) H3 eq_refl) as E3.
  simpl app in E3. simpl Values. rewrite E3.
  rewrite (loop_eof _ p3 _ _ [] true H4 eq_refl). reflexivity.
Qed.

(** X2: a name followed by one attribute [a=] with a double-quoted string
    parses to a root with one child: the tag of that name, with no values
    and the single attribute [a], stored under [a], holding the string. *)
Theorem parses_an_attribute_line (w a v name : string) :
  isName w = true -> isName a = true -> allChars plainInQuotes v = true ->
  ParseIntoAst ParseFloat
    (newSaxParser (w ++ " " ++ a ++ "=" ++ dq ++ v ++ dq ++ str1 LF) name)
  = Ok (mkSdlTag "" "" ""
          [mkSdlTag "" w w [] (<[a := mkSdlAttribute "" a a (String_ v)]> ∅) []] ∅ []).
Proof.
  intros Hn Ha Hv. destruct (isName_inv w Hn) as (c & r & Hw & Hc & _).
  set (line := " " ++ a ++ "=" ++ dq ++ v ++ dq ++ str1 LF).
  set (p0 := newSaxParser (w ++ line) name).
  assert (Hr0 : rest p0 = w ++ line) by reflexivity.
  set (p1 := set_addText (set_text (set_t (advance p0 (String.length w)) tagName) w) "").
  assert (H1 : Next p0 = Ok p1)
    by exact (Next_reads_tag_name p0 w line eq_refl Hr0 Hn eq_refl).
  assert (Hr1 : rest p1 = String " " (a ++ String "=" (String DQUOTE (v ++ String DQUOTE (str1 LF)))))
    by exact (rest_advance p0 w _ Hr0).
  pose proof (rest_cons _ _ _ Hr1) as (He1 & Hp1 & Hr1').
  set (p2 := set_addText
               (set_text (set_t (advance (advance p1 1) (String.length a + 1)) attributeName)
                  a) "").
  assert (H2 : Next p1 = Ok p2).
  { rewrite Next_skips_blank by (unfold isBlank; rewrite He1, Hp1; reflexivity).
    exact (Next_reads_attribute_name (advance p1 1) a _ eq_refl Hr1' Ha). }
  assert (Hr2 : rest p2 = String DQUOTE (v ++ String DQUOTE (str1 LF))).
  { assert (Hr' : rest (advance p1 1)
                  = (a ++ "=") ++ String DQUOTE (v ++ String DQUOTE (str1 LF))).
    { rewrite Hr1', append_assoc. reflexivity. }
    apply rest_advance in Hr'. rewrite length_append in Hr'. exact Hr'. }
  set (p3 := set_text (set_t (advance p2 (String.length v + 2)) string_) v).
  assert (H3 : Next p2 = Ok p3).
  { rewrite (Next_dispatch_char _ _ _ Hr2 eq_refl eq_refl). simpl.
    apply (nextDoubleQuotedString_plain _ v (str1 LF) Hr2 Hv). }
  assert (Hr3 : rest p3 = str1 LF).
  { assert (Hr' : rest p2 = String DQUOTE (v ++ String DQUOTE "") ++ str1 LF).
    { rewrite Hr2.
      change (String DQUOTE (v ++ String DQUOTE "") ++ str1 LF)
        with (String DQUOTE ((v ++ String DQUOTE "") ++ str1 LF)).
      rewrite append_assoc. reflexivity. }
    apply rest_advance in Hr'.
    simpl String.length in Hr'. rewrite length_append in Hr'. simpl in Hr'.
    replace (S (String.length v + 1)) with (String.length v + 2) in Hr' by lia.
    exact Hr'. }
  set (p4 := set_t (advance p3 1) newLine).
  assert (H4 : Next p3 = Ok p4) by exact (Next_LF p3 "" Hr3).
  assert (Hr4 : rest p4 = "").
  { apply rest_cons in Hr3 as (_ & _ & H). exact H. }
  assert (H5 : Next p4 = Ok (set_t p4 eof)) by exact (Next_end p4 Hr4).
  unfold ParseIntoAst.
  assert (Hf : exists f, 2 * len p0 + 2 = S (S (S (S f)))).
  { exists (2 * len p0 - 2). unfold len, p0. simpl. rewrite length_append, Hw. simpl. lia. }
  destruct Hf as [f ->].
  rewrite (loop_tag _ p0 p1 [SdlTag_zero] w H1 eq_refl (qualify_plain w)).
  rewrite (loop_attribute _ p1 p2 p3 [SdlTag_zero] _ false a (String_ v) H2 eq_refl
             (qualify_plain a) H3 eq_refl).
  simpl app.
  pose proof (loop_line_end (S f) p3 p4 [] SdlTag_zero
                (set_Attributes (mkSdlTag (AdditionalText p1) (Text p1) w [] ∅ [])
                   (<[a := mkSdlAttribute (AdditionalText p2) (Text p2) a (String_ v)]> ∅))
                H4 eq_refl) as E.
  simpl app in E. simpl Attributes. rewrite E.
  rewrite (loop_eof _ p4 _ _ [] true H5 eq_refl). reflexivity.
Qed.

(** X3: a block.  A name, an opening brace, a line with one name and a line
    with the closing brace parse to a root with one child, which has the
    inner tag as its only child. *)
Theorem parses_a_block (w c name : string) :
  isName w = true -> isName c = true ->
  ParseIntoAst ParseFloat
    (newSaxParser (w ++ " {" ++ str1 LF ++ c ++ str1 LF ++ "}" ++ str1 LF) name)
  = Ok (mkSdlTag "" "" "" [mkSdlTag "" w w [mkSdlTag "" c c [] ∅ []] ∅ []] ∅ []).
Proof.
  intros Hn Hc. destruct (isName_inv w Hn) as (x & r & Hw & Hx & _).
  set (line := " {" ++ str1 LF ++ c ++ str1 LF ++ "}" ++ str1 LF).
  set (p0 := newSaxParser (w ++ line) name).
  assert (Hr0 : rest p0 = w ++ line) by reflexivity.
  set (p1 := set_addText (set_text (set_t (advance p0 (String.length w)) tagName) w) "").
  assert (H1 : Next p0 = Ok p1)
    by exact (Next_reads_tag_name p0 w line eq_refl Hr0 Hn eq_refl).
  assert (Hr1 : rest p1 = String " " (String "{" (String LF (c ++ String LF (String "}" (str1 LF))))))
    by exact (rest_advance p0 w _ Hr0).
  pose proof (rest_cons _ _ _ Hr1) as (He1 & Hp1 & Hr1').
  set (p2 := advance (set_text (set_t (advance p1 1) openTag) "{") 1).
  assert (H2 : Next p1 = Ok p2).
  { rewrite Next_skips_blank by (unfold isBlank; rewrite He1, Hp1; reflexivity).
    exact (proj1 (Next_brace (advance p1 1) _) Hr1'). }
  assert (Hr2 : rest p2 = String LF (c ++ String LF (String "}" (str1 LF)))).
  { apply rest_cons in Hr1' as (_ & _ & H). exact H. }
  set (p3 := set_t (advance p2 1) newLine).
  assert (H3 : Next p2 = Ok p3) by exact (Next_LF p2 _ Hr2).
  assert (Hr3 : rest p3 = c ++ String LF (String "}" (str1 LF))).
  { apply rest_cons in Hr2 as (_ & _ & H). exact H. }
  set (p4 := set_addText (set_text (set_t (advance p3 (String.length c)) tagName) c) "").
  assert (H4 : Next p3 = Ok p4)
    by exact (Next_reads_tag_name p3 c _ eq_refl Hr3 Hc eq_refl).
  assert (Hr4 : rest p4 = String LF (String "}" (str1 LF)))
    by exact (rest_advance p3 c _ Hr3).
  set (p5 := set_t (advance p4 1) newLine).
  assert (H5 : Next p4 = Ok p5) by exact (Next_LF p4 _ Hr4).
  assert (Hr5 : rest p5 = String "}" (str1 LF)).
  { apply rest_cons in Hr4 as (_ & _ & H). exact H. }
  set (p6 := advance (set_text (set_t p5 closeTag) "}") 1).
  assert (H6 : Next p5 = Ok p6) by exact (proj2 (Next_brace p5 _) Hr5).
  assert (Hr6 : rest p6 = str1 LF).
  { apply rest_cons in Hr5 as (_ & _ & H). exact H. }
  set (p7 := set_t (advance p6 1) newLine).
  assert (H7 : Next p6 = Ok p7) by exact (Next_LF p6 "" Hr6).
  assert (Hr7 : rest p7 = "").
  { apply rest_cons in Hr6 as (_ & _ & H). exact H. }
  assert (H8 : Next p7 = Ok (set_t p7 eof)) by exact (Next_end p7 Hr7).
  unfold ParseIntoAst.
  assert (Hf : exists f, 2 * len p0 + 2 = S (S (S (S (S (S f)))))).
  { exists (2 * len p0 - 4). unfold len, p0, line. simpl.
    rewrite length_append, Hw. simpl. lia. }
  destruct Hf as [f ->].
  rewrite (loop_tag _ p0 p1 [SdlTag_zero] w H1 eq_refl (qualify_plain w)).
  rewrite (loop_open _ p1 p2 p3 _ H2 eq_refl H3 eq_refl).
  rewrite (loop_tag _ p3 p4 _ c H4 eq_refl (qualify_plain c)).
  simpl app.
  pose proof (loop_line_end (S (S f)) p4 p5 [SdlTag_zero]
                (mkSdlTag (AdditionalText p1) (Text p1) w [] ∅ [])
                (mkSdlTag (AdditionalText p4) (Text p4) c [] ∅ []) H5 eq_refl) as E5.
  simpl app in E5. rewrite E5. clear E5.
  pose proof (loop_close (S f) p5 p6 p7 [] SdlTag_zero
                (set_Children (mkSdlTag (AdditionalText p1) (Text p1) w [] ∅ [])
                   [mkSdlTag (AdditionalText p4) (Text p4) c [] ∅ []])
                H6 eq_refl H7 eq_refl) as E6.
  simpl app in E6. simpl Children. rewrite E6. clear E6.
  rewrite (loop_eof _ p7 _ _ [] true H8 eq_refl). reflexivity.
Qed.

End Lines.

(** ** The properties at concrete inputs *)

Lemma Next_never_returns_unused_kinds_witness :
  exists s',
    Next (newSaxParser "t 1" "") = Ok s'
    /\ t s' <> failsafe /\ IsChar s' = false /\ IsDecimal s' = false.
Proof.
  eexists. split; [vm_compute; reflexivity|].
  apply (Next_never_returns_unused_kinds (newSaxParser "t 1" "")). vm_compute. reflexivity.
Defined.

Lemma token_kind_follows_position_witness :
  exists s',
    Next (newSaxParser "t 1" "") = Ok s'
    /\ IsTagName s' = true /\ isTagPosition (newSaxParser "t 1" "") = true.
Proof.
  eexists. split; [vm_compute; reflexivity|]. split; [reflexivity|].
  refine (proj1 (token_kind_follows_position (newSaxParser "t 1" "") _ _) _).
  - vm_compute. reflexivity.
  - reflexivity.
Defined.

Lemma tag_name_only_after_newLine_witness :
  exists s' s'',
    Next (newSaxParser (String LF "a") "") = Ok s' /\ Next s' = Ok s''
    /\ IsTagName s'' = true /\ IsNewLine s' = true.
Proof.
  eexists. eexists. split; [vm_compute; reflexivity|].
  split; [vm_compute; reflexivity|]. split; [reflexivity|].
  eapply (tag_name_only_after_newLine (newSaxParser (String LF "a") "")).
  - vm_compute. reflexivity.
  - vm_compute. reflexivity.
  - reflexivity.
Defined.

Lemma attribute_name_consumes_equals_witness :
  exists s',
    Next (mkSaxParser "t a=1" "" 1 tagName "t" "" time.zero 0%Z false) = Ok s'
    /\ IsAttributeName s' = true
    /\ 0 < cursor s' /\ String.get (cursor s' - 1) (Input s') = Some "="%char.
Proof.
  eexists. split; [vm_compute; reflexivity|]. split; [reflexivity|].
  apply (attribute_name_consumes_equals
           (mkSaxParser "t a=1" "" 1 tagName "t" "" time.zero 0%Z false)).
  - vm_compute. reflexivity.
  - reflexivity.
Defined.

Lemma keyword_tokens_are_normalised_witness :
  exists s',
    Next (mkSaxParser "t on" "" 1 tagName "t" "" time.zero 0%Z false) = Ok s'
    /\ SaxParser_IsBool s' = true
    /\ ((Text s' = "true" /\ SaxParser_Bool s' = true)
        \/ (Text s' = "false" /\ SaxParser_Bool s' = false)).
Proof.
  eexists. split; [vm_compute; reflexivity|]. split; [reflexivity|].
  refine (proj1 (keyword_tokens_are_normalised
                   (mkSaxParser "t on" "" 1 tagName "t" "" time.zero 0%Z false) _ _) _).
  - vm_compute. reflexivity.
  - reflexivity.
Defined.

Lemma Next_writes_only_its_token_witness :
  exists s',
    Next (mkSaxParser "t `x`" "f.sdl" 1 tagName "t" "ns" 42%Z 7%Z true) = Ok s'
    /\ SaxParser_IsString s' = true
    /\ Time s' = 42%Z /\ SaxParser_TimeSpan s' = 7%Z /\ SaxParser_Bool s' = true
    /\ AdditionalText s' = "ns".
Proof.
  eexists. split; [vm_compute; reflexivity|]. split; [reflexivity|].
  destruct (Next_writes_only_its_token
              (mkSaxParser "t `x`" "f.sdl" 1 tagName "t" "ns" 42%Z 7%Z true) _
              ltac:(vm_compute; reflexivity)) as (_ & _ & Hb & Hd & Ht & Ha).
  split; [apply Hd; reflexivity|]. split; [apply Ht; reflexivity|].
  split; [apply Hb; reflexivity | apply Ha; reflexivity].
Defined.

Lemma cursor_stays_inside_witness :
  exists s',
    Next_n 2 (newSaxParser "t 1" "") = Ok s'
    /\ cursor (newSaxParser "t 1" "") <= cursor s' /\ cursor s' <= len s'
    /\ len s' = len (newSaxParser "t 1" "").
Proof.
  eexists. split; [vm_compute; reflexivity|].
  apply (cursor_stays_inside 2 (newSaxParser "t 1" "")).
  - simpl. lia.
  - vm_compute. reflexivity.
Defined.

Lemma literal_tokens_become_values_witness :
  exists s' v,
    Next (mkSaxParser "t 12" "" 1 tagName "t" "" time.zero 0%Z false) = Ok s'
    /\ handleValue (fun _ => PrimFloat.zero) SdlValue_zero s' = Ok v /\ built v.
Proof.
  eexists.
  destruct (literal_tokens_become_values (fun _ => PrimFloat.zero)
              (mkSaxParser "t 12" "" 1 tagName "t" "" time.zero 0%Z false) _
              ltac:(vm_compute; reflexivity) eq_refl) as (v & Hv & Hb).
  exists v. split; [vm_compute; reflexivity|]. split; [exact Hv | exact Hb].
Defined.

Lemma qualified_names_agree_witness :
  exists root g,
    ParseIntoAst (fun _ => PrimFloat.zero) (newSaxParser ("a:b c=1" ++ str1 LF) "") = Ok root
    /\ descendants root !! 1 = Some g
    /\ Name g = "b"
    /\ qualify (Namespace g) (Name g) = Ok (QualifiedName g).
Proof.
  eexists. eexists. split; [vm_compute; reflexivity|].
  split; [vm_compute; reflexivity|]. split; [reflexivity|].
  eapply (qualified_names_agree (fun _ => PrimFloat.zero)
            (newSaxParser ("a:b c=1" ++ str1 LF) "")).
  - vm_compute. reflexivity.
  - apply (list_elem_of_lookup_2 _ 1). vm_compute. reflexivity.
Defined.

Lemma attributes_are_keyed_by_qualified_name_witness :
  exists root g a,
    ParseIntoAst (fun _ => PrimFloat.zero) (newSaxParser ("t n:c=1" ++ str1 LF) "") = Ok root
    /\ descendants root !! 1 = Some g
    /\ Attributes g !! "n:c" = Some a
    /\ AttrQualifiedName a = "n:c" /\ qualify (AttrNamespace a) (AttrName a) = Ok "n:c".
Proof.
  eexists. eexists. eexists. split; [vm_compute; reflexivity|].
  split; [vm_compute; reflexivity|]. split; [vm_compute; reflexivity|].
  eapply (attributes_are_keyed_by_qualified_name (fun _ => PrimFloat.zero)
            (newSaxParser ("t n:c=1" ++ str1 LF) "")).
  - vm_compute. reflexivity.
  - apply (list_elem_of_lookup_2 _ 1). vm_compute. reflexivity.
  - vm_compute. reflexivity.
Defined.

Lemma values_are_built_witness :
  exists root g,
    ParseIntoAst (fun _ => PrimFloat.zero) (newSaxParser ("t 1 c=2" ++ str1 LF) "") = Ok root
    /\ descendants root !! 1 = Some g
    /\ (forall v, v ∈ Values g -> built v)
    /\ (forall k a, Attributes g !! k = Some a -> built (Value a)).
Proof.
  eexists. eexists. split; [vm_compute; reflexivity|].
  split; [vm_compute; reflexivity|].
  eapply (values_are_built (fun _ => PrimFloat.zero)
            (newSaxParser ("t 1 c=2" ++ str1 LF) "")).
  - vm_compute. reflexivity.
  - apply (list_elem_of_lookup_2 _ 1). vm_compute. reflexivity.
Defined.

Lemma comments_are_skipped_witness :
  exists s2,
    moved (newSaxParser ("# c" ++ str1 LF ++ "t") "") s2
    /\ cursor (newSaxParser ("# c" ++ str1 LF ++ "t") "") < cursor s2
    /\ (forall i, cursor (newSaxParser ("# c" ++ str1 LF ++ "t") "") <= i < cursor s2 ->
        inComment (set_cursor (newSaxParser ("# c" ++ str1 LF ++ "t") "") i) = true)
    /\ inComment s2 = false
    /\ Next (newSaxParser ("# c" ++ str1 LF ++ "t") "") = Next s2.
Proof. apply comments_are_skipped; reflexivity. Defined.

Lemma reporting_inside_the_input_never_panics_witness :
  exists line loc ln,
    getLine (mkSaxParser "ab" "f.sdl" 1 tagName "a" "" time.zero 0%Z false) (1 + 0)
    = Ok (line, loc, ln) /\ (0 <= loc)%Z /\ 1 <= ln
    /\ NewError (mkSaxParser "ab" "f.sdl" 1 tagName "a" "" time.zero 0%Z false) 0 "m"
       = Ok (mkError [(line, mkLineMetadata "f.sdl" ln)] [(0, loc, "m")]).
Proof.
  apply (reporting_inside_the_input_never_panics
           (mkSaxParser "ab" "f.sdl" 1 tagName "a" "" time.zero 0%Z false) 0 "m").
  - unfold len. simpl. lia.
  - unfold len. simpl. lia.
  - right. simpl. lia.
Defined.

Lemma reporting_past_the_input_panics_witness :
  getLine (newSaxParser "t 1d:" "") 7 = Panic IndexOutOfRange.
Proof. apply reporting_past_the_input_panics. unfold len. simpl. lia. Defined.

Lemma identifier_is_read_back_witness :
  exists s',
    nextIdentifier (newSaxParser "ns:tag 1" "") = Ok s'
    /\ AdditionalText s' = "ns" /\ Text s' = "tag"
    /\ qualify (AdditionalText s') (Text s') = slice "ns:tag 1" 0 (cursor s')
    /\ 0 < cursor s' /\ cursor s' <= 8.
Proof.
  eexists. split; [vm_compute; reflexivity|]. split; [reflexivity|].
  split; [reflexivity|].
  apply (identifier_is_read_back (newSaxParser "ns:tag 1" "")).
  - reflexivity.
  - vm_compute. reflexivity.
  - reflexivity.
  - reflexivity.
Defined.

Lemma stray_carriage_return_is_an_error_witness :
  exists line loc ln,
    getLine (newSaxParser (String CR "a") "f.sdl") 0 = Ok (line, loc, ln)
    /\ Next (newSaxParser (String CR "a") "f.sdl")
       = Err (mkError [(line ++ " ", mkLineMetadata "f.sdl" ln)]
                [(0, Z.of_nat (String.length line),
                  "Stray \r without a \n following it.")]).
Proof.
  apply (stray_carriage_return_is_an_error (newSaxParser (String CR "a") "f.sdl"));
    reflexivity.
Defined.

Lemma Next_reads_quoted_string_witness :
  Next (mkSaxParser ("t " ++ dq ++ "a b" ++ dq) "" 2 tagName "t" "" time.zero 0%Z false)
  = Ok (mkSaxParser ("t " ++ dq ++ "a b" ++ dq) "" 7 string_ "a b" "" time.zero 0%Z false).
Proof.
  apply (Next_reads_quoted_string
           (mkSaxParser ("t " ++ dq ++ "a b" ++ dq) "" 2 tagName "t" "" time.zero 0%Z false)
           "a b" ""); reflexivity.
Defined.

Lemma Next_reads_backtick_string_witness :
  Next (mkSaxParser "t `a\b` 1" "" 2 tagName "t" "" time.zero 0%Z false)
  = Ok (mkSaxParser "t `a\b` 1" "" 7 string_ "a\b" "" time.zero 0%Z false).
Proof.
  apply (Next_reads_backtick_string
           (mkSaxParser "t `a\b` 1" "" 2 tagName "t" "" time.zero 0%Z false)
           "a\b" " 1"); reflexivity.
Defined.

Lemma Next_reads_binary_witness :
  Next (mkSaxParser "t [a b]" "" 2 tagName "t" "" time.zero 0%Z false)
  = Ok (mkSaxParser "t [a b]" "" 7 binary "ab" "" time.zero 0%Z false).
Proof.
  apply (Next_reads_binary
           (mkSaxParser "t [a b]" "" 2 tagName "t" "" time.zero 0%Z false)
           "a b" ""); reflexivity.
Defined.

Lemma Next_reads_integer_witness :
  Next (mkSaxParser "t 12 3" "" 2 tagName "t" "" time.zero 0%Z false)
  = Ok (mkSaxParser "t 12 3" "" 4 integer "12" "" time.zero 0%Z false).
Proof.
  apply (Next_reads_integer
           (mkSaxParser "t 12 3" "" 2 tagName "t" "" time.zero 0%Z false)
           "12" " 3"); try reflexivity. discriminate.
Defined.

Lemma parses_a_tag_line_witness :
  ParseIntoAst (fun _ => PrimFloat.zero) (newSaxParser ("my_tag" ++ str1 LF) "f.sdl")
  = Ok (mkSdlTag "" "" "" [mkSdlTag "" "my_tag" "my_tag" [] ∅ []] ∅ []).
Proof. apply parses_a_tag_line. reflexivity. Defined.

Lemma parses_a_name_value_line_witness :
  ParseIntoAst (fun _ => PrimFloat.zero)
    (newSaxParser ("first_name" ++ " " ++ dq ++ "Akiko" ++ dq ++ str1 LF) "f.sdl")
  = Ok (mkSdlTag "" "" ""
          [mkSdlTag "" "first_name" "first_name" [] ∅ [String_ "Akiko"]] ∅ []).
Proof. apply parses_a_name_value_line; reflexivity. Defined.

Lemma parses_an_attribute_line_witness :
  ParseIntoAst (fun _ => PrimFloat.zero)
    (newSaxParser ("person" ++ " " ++ "name" ++ "=" ++ dq ++ "Akiko" ++ dq ++ str1 LF)
       "f.sdl")
  = Ok (mkSdlTag "" "" ""
          [mkSdlTag "" "person" "person" []
             (<["name" := mkSdlAttribute "" "name" "name" (String_ "Akiko")]> ∅) []] ∅ []).
Proof. apply parses_an_attribute_line; reflexivity. Defined.

Lemma parses_a_block_witness :
  ParseIntoAst (fun _ => PrimFloat.zero)
    (newSaxParser ("files" ++ " {" ++ str1 LF ++ "a" ++ str1 LF ++ "}" ++ str1 LF) "f.sdl")
  = Ok (mkSdlTag "" "" ""
          [mkSdlTag "" "files" "files" [mkSdlTag "" "a" "a" [] ∅ []] ∅ []] ∅ []).
Proof. apply parses_a_block; reflexivity. Defined.
